(** * NGAS archive command plug-ins: CARCHIVE and MIRRARCHIVE

    A shallow embedding of [ngamsCmd_CARCHIVE.py] (container archive:
    several files per request, container rows in the catalog) and of
    [ngamsCmd_MIRRARCHIVE.py] (mirroring archive with resumable fetch),
    followed by the properties of the two command handlers.

    Python objects that the handlers mutate (the server object, its
    database, the request properties) are threaded as one explicit
    [World]; exceptions are an outcome of every command, and a [finally]
    block is a combinator on commands.  Collaborating modules that the
    plug-ins import (the MIME parser, the DAPI, the fetch commands, the
    file system, the clock) are fields of one record of [Externals]. *)

From Stdlib Require Import ZArith Floats Lia Ascii String.
From stdpp Require Import gmap strings list pretty.

Open Scope Z_scope.
Open Scope string_scope.

(** ** Python exceptions and outcomes *)

Inductive PyExc : Type :=
| Exception_ (msg : string)                  (* raise Exception, msg *)
| EnvironmentError_ (errno : Z) (msg : string) (* IOError / OSError *)
| ZeroDivisionError
| OverflowError
| TypeError (msg : string)
| ValueError (msg : string)
| IndexError
| AttributeError (msg : string)
| UnboundLocalError (name : string)
| NameError (name : string)
| AbortedException (msg : string)
| FailedDownloadException (cause : PyExc)
| PostponeException (cause : PyExc).

(** [getattr(e, 'errno', 0)]: only environment errors carry an [errno]. *)
Definition getattr_errno (e : PyExc) : Z :=
  match e with
  | EnvironmentError_ n _ => n
  | _ => 0
  end.

(** The outcome of a call: a value, a raised exception, or a call that
    never returns because it waits for a resource ([Block]). *)
Inductive Res (A : Type) : Type :=
| Ok (a : A)
| Raise (e : PyExc)
| Block.
Arguments Ok {A} a.
Arguments Raise {A} e.
Arguments Block {A}.

Definition is_Ok {A} (r : Res A) : bool :=
  match r with Ok _ => true | _ => false end.

Definition res_map {A B} (f : A -> B) (r : Res A) : Res B :=
  match r with
  | Ok a => Ok (f a)
  | Raise e => Raise e
  | Block => Block
  end.

(** Commands over a state [S]: the state survives an exception. *)
Definition M (S A : Type) : Type := S -> Res A * S.

Definition ret {S A} (a : A) : M S A := fun s => (Ok a, s).

Definition bind {S A B} (m : M S A) (k : A -> M S B) : M S B :=
  fun s =>
    match m s with
    | (Ok a, s') => k a s'
    | (Raise e, s') => (Raise e, s')
    | (Block, s') => (Block, s')
    end.

Definition raise {S A} (e : PyExc) : M S A := fun s => (Raise e, s).

Definition lift {S A} (r : Res A) : M S A := fun s => (r, s).

Definition gets {S A} (f : S -> A) : M S A := fun s => (Ok (f s), s).

Definition modify {S} (f : S -> S) : M S unit := fun s => (Ok tt, f s).

(** [try: body finally: fin].  The [finally] clause runs after a normal
    return and after an exception; an exception of its own replaces the
    pending outcome.  A body that never returns never reaches it. *)
Definition try_finally {S A} (body : M S A) (fin : M S unit) : M S A :=
  fun s =>
    match body s with
    | (Block, s1) => (Block, s1)
    | (r, s1) =>
        match fin s1 with
        | (Ok _, s2) => (r, s2)
        | (Raise e, s2) => (Raise e, s2)
        | (Block, s2) => (Block, s2)
        end
    end.

(** [try: body except Exception, e: handler e]. *)
Definition try_except {S A} (body : M S A) (handler : PyExc -> M S A) : M S A :=
  fun s =>
    match body s with
    | (Raise e, s1) => handler e s1
    | other => other
    end.

Declare Scope py_scope.
Delimit Scope py_scope with py.
Notation "x <- m ;; k" := (bind m (fun x => k))
  (at level 100, m at next level, right associativity) : py_scope.
Notation "m ;; k" := (bind m (fun _ => k))
  (at level 100, right associativity) : py_scope.
Open Scope py_scope.

(** A [for] loop over a list, threading an accumulator. *)
Fixpoint for_each {S A B} (body : B -> A -> M S B) (acc : B) (l : list A) : M S B :=
  match l with
  | [] => ret acc
  | x :: rest => acc' <- body acc x ;; for_each body acc' rest
  end.

(** ** Python numbers and strings *)

(** [float(n)] for an [int]: round to nearest binary64, [OverflowError]
    beyond the largest finite float. *)
Definition py_float (z : Z) : Res float :=
  let f := SF2Prim (binary_normalize prec emax z 0 false) in
  if PrimFloat.is_infinity f then Raise OverflowError else Ok f.

(** [x / y] on floats. *)
Definition py_float_div (x y : float) : Res float :=
  if PrimFloat.eqb y 0%float then Raise ZeroDivisionError
  else Ok (PrimFloat.div x y).

(** [s.startswith(p)] *)
Definition startswith (s p : string) : bool := String.prefix p s.

(** [s.find(sub)]: [None] stands for [-1]. *)
Definition str_find (s sub : string) : option nat := String.index 0 sub s.

Definition drop_str (n : nat) (s : string) : string :=
  String.substring n (String.length s - n) s.

(** [s.split(sep)] for a non-empty separator; [fuel] bounds the number of
    pieces and [String.length s] always suffices. *)
Fixpoint split_fuel (fuel : nat) (sep s : string) : list string :=
  match fuel with
  | O => [s]
  | S fuel' =>
      match str_find s sep with
      | None => [s]
      | Some i =>
          String.substring 0 i s
            :: split_fuel fuel' sep (drop_str (i + String.length sep) s)
      end
  end.

Definition str_split (s sep : string) : list string :=
  split_fuel (String.length s) sep s.

(** [l[i]]: [IndexError] out of range. *)
Definition py_index {A} (l : list A) (i : nat) : Res A :=
  match l !! i with
  | Some x => Ok x
  | None => Raise IndexError
  end.

(** Dropping the longest suffix of characters that satisfy [P]. *)
Fixpoint drop_while {A} (P : A -> bool) (l : list A) : list A :=
  match l with
  | [] => []
  | x :: rest => if P x then drop_while P rest else l
  end.

Fixpoint take_while {A} (P : A -> bool) (l : list A) : list A :=
  match l with
  | [] => []
  | x :: rest => if P x then x :: take_while P rest else []
  end.

Definition is_slash (c : ascii) : bool := Ascii.eqb c "/"%char.

(** [os.path.basename(p)]: what follows the last slash. *)
Definition basename (p : string) : string :=
  string_of_list_ascii
    (rev (take_while (fun c => negb (is_slash c)) (rev (list_ascii_of_string p)))).

(** [os.path.dirname(p)]: what precedes the last slash, without trailing
    slashes unless it consists of slashes only. *)
Definition dirname (p : string) : string :=
  let head := drop_while (fun c => negb (is_slash c)) (rev (list_ascii_of_string p)) in
  match drop_while is_slash head with
  | [] => string_of_list_ascii (rev head)
  | stripped => string_of_list_ascii (rev stripped)
  end.

(** [os.path.join(a, b)] *)
Definition path_join (a b : string) : string :=
  if startswith b "/" then b
  else if String.eqb a "" || is_slash (default "/"%char (last (list_ascii_of_string a)))
       then a ++ b
       else a ++ "/" ++ b.

(** [fmt % arg] for a format string and one [str] argument.  Of the
    conversions only [%s] and [%%] occur here; the argument must be
    consumed by exactly one conversion. *)
Fixpoint py_mod_aux (fmt : string) (arg : option string) : Res string :=
  match fmt with
  | EmptyString =>
      match arg with
      | Some _ =>
          Raise (TypeError "not all arguments converted during string formatting")
      | None => Ok EmptyString
      end
  | String c rest =>
      if Ascii.eqb c "%"%char then
        match rest with
        | String d rest' =>
            if Ascii.eqb d "s"%char then
              match arg with
              | Some a => res_map (String.append a) (py_mod_aux rest' None)
              | None => Raise (TypeError "not enough arguments for format string")
              end
            else if Ascii.eqb d "%"%char then
              res_map (String "%"%char) (py_mod_aux rest' arg)
            else Raise (ValueError "unsupported format character")
        | EmptyString => Raise (ValueError "incomplete format")
        end
      else res_map (String c) (py_mod_aux rest arg)
  end.

Definition py_mod (fmt arg : string) : Res string := py_mod_aux fmt (Some arg).

(** ** Data model *)

(** [ngamsDiskInfo]: a volume, one row of [ngas_disks]. *)
Record DiskInfo : Type := mkDiskInfo {
  diskId : string;
  diskHostId : string;
  mountPoint : string;
  slotId : string;
  completed : Z;
  completionDate : option string;
  availableMb : Z;
  bytesStored : Z;
  numberOfFiles : Z
}.

(** The text [str(container.getContainerId())] under which a container is
    addressed in the catalog: the text of an issued identity, or the text
    of [None] for a container that was never persisted.  [str] is
    injective on identities, so the identity itself stands for its text. *)
Inductive ContainerKey : Type :=
| KeyId (id : nat)
| KeyNone.

#[global] Instance ContainerKey_eq_dec : EqDecision ContainerKey.
Proof. solve_decision. Defined.

#[global] Instance ContainerKey_countable : Countable ContainerKey.
Proof.
  apply (inj_countable'
           (fun k => match k with KeyId n => Some n | KeyNone => None end)
           (fun o => match o with Some n => KeyId n | None => KeyNone end)).
  intros []; reflexivity.
Defined.

Definition str_id (o : option nat) : ContainerKey :=
  match o with
  | Some n => KeyId n
  | None => KeyNone
  end.

(** [ngamsContainer]: the in-memory container tree built by the MIME
    handler.  The identity and the ingestion date are unset until the
    container is persisted. *)
#[warnings="-register-all"]
Inductive Container : Type := mkContainer {
  containerName : string;
  containerId : option nat;
  ingestionDate : option float;
  containers : list Container
}.

Definition setContainerId (id : nat) (c : Container) : Container :=
  mkContainer (containerName c) (Some id) (ingestionDate c) (containers c).

Definition setIngestionDate (d : float) (c : Container) : Container :=
  mkContainer (containerName c) (containerId c) (Some d) (containers c).

Definition setContainers (cs : list Container) (c : Container) : Container :=
  mkContainer (containerName c) (containerId c) (ingestionDate c) cs.

(** A reference to a container object of a tree: the child indices on the
    way down from the root.  Every holder of a reference sees what
    [createContainers] later writes into the object. *)
Definition ContainerRef : Type := list nat.

Fixpoint deref (c : Container) (p : ContainerRef) : option Container :=
  match p with
  | [] => Some c
  | i :: p' =>
      match containers c !! i with
      | Some ch => deref ch p'
      | None => None
      end
  end.

(** [container.getContainerId()] through a reference; a reference outside
    the tree is an object nobody persisted, whose identity stays unset. *)
Definition getContainerId (root : Container) (p : ContainerRef) : option nat :=
  match deref root p with
  | Some c => containerId c
  | None => None
  end.

(** The containers of a tree in pre-order, each with the catalog key of
    its parent ([None] above the root). *)
Fixpoint nodes (parent : option ContainerKey) (c : Container)
    : list (option ContainerKey * Container) :=
  (parent, c)
    :: flat_map (nodes (Some (str_id (containerId c)))) (containers c).

(** A tree as the parser hands it over: no identity, no ingestion date. *)
Fixpoint strip (c : Container) : Container :=
  mkContainer (containerName c) None None (map strip (containers c)).

(** [ngamsDapiStatus] as filled by [genDapiSuccessStat]. *)
Record DapiStatus : Type := mkDapiStatus {
  ds_diskId : string;
  ds_relFilename : string;
  ds_fileId : string;
  ds_fileVersion : Z;
  ds_format : string;
  ds_fileSize : Z;
  ds_uncomprSize : Z;
  ds_compression : string;
  ds_relPath : string;
  ds_slotId : string;
  ds_fileExists : bool;
  ds_completeFilename : string
}.

(** A row of [ngas_files].  A column that a writer does not set is [None]. *)
Record FileRow : Type := mkFileRow {
  file_disk_id : string;
  file_name : string;
  file_id : string;
  file_version : Z;
  file_format : string;
  file_size : Z;
  uncompressed_file_size : Z;
  file_compression : string;
  file_ingestion_date : string;
  file_ignore : option Z;
  file_checksum : string;
  file_checksum_plugin : string;
  file_status : string;
  file_creation_date : string;
  file_io_time : option float
}.

(** A row of [ngas_containers]. *)
Record ContainerRow : Type := mkContainerRow {
  container_name : string;
  container_size : Z;
  container_ingestion_date : float;
  parent_container_id : option ContainerKey
}.

(** The statements sent to the catalog, in the order they were sent. *)
Inductive DbOp : Type :=
| OpCreateContainer (id : nat) (name : string) (size : Z)
    (parent : option ContainerKey)
| OpWriteFileInfo (fileId : string) (fileVersion : Z)
| OpAddFileToContainer (key : ContainerKey) (fileId : string)
| OpSetContainerSize (key : ContainerKey) (size : Z)
| OpUpdateDiskInfo (fileSize : Z) (disk : string)
| OpWriteDiskInfo (disk : string)
| OpMirrorUpdateDisk (fileSize : Z) (disk : string)
| OpMirrorInsertFile (fileId : string) (fileVersion : Z).

#[global] Instance DbOp_eq_dec : EqDecision DbOp.
Proof. solve_decision. Defined.

(** The catalog ([srvObj.getDb()]). *)
Record Catalog : Type := mkCatalog {
  ngas_disks : gmap string DiskInfo;
  ngas_containers : gmap nat ContainerRow;
  next_container_id : nat;
  ngas_containers_files : list (ContainerKey * string);
  ngas_files : list FileRow;
  db_log : list DbOp
}.

(** ** Catalog operations *)

(** Modelled from the spec: [ngamsDb.createContainer] is not part of the
    plug-ins.  The catalog inserts a row holding the given name, size,
    ingestion date and parent reference, and returns the identity it
    issues for the row; identities are issued from a counter, so no two
    calls return the same one. *)
Definition createContainer (name : string) (containerSize : Z)
    (date : float) (parentContainerId : option ContainerKey)
    (c : Catalog) : nat * Catalog :=
  let id := next_container_id c in
  (id,
   mkCatalog (ngas_disks c)
     (<[id := mkContainerRow name containerSize date parentContainerId]>
        (ngas_containers c))
     (S id)
     (ngas_containers_files c)
     (ngas_files c)
     (db_log c ++ [OpCreateContainer id name containerSize parentContainerId])).

Definition set_size (size : Z) (r : ContainerRow) : ContainerRow :=
  mkContainerRow (container_name r) size (container_ingestion_date r)
    (parent_container_id r).

(** Modelled from the spec: [ngamsDb.setContainerSize] overwrites the size
    of the row with the given identity; a key that names no row changes
    no row. *)
Definition setContainerSize (key : ContainerKey) (size : Z) (c : Catalog) : Catalog :=
  mkCatalog (ngas_disks c)
    (match key with
     | KeyId id => alter (set_size size) id (ngas_containers c)
     | KeyNone => ngas_containers c
     end)
    (next_container_id c)
    (ngas_containers_files c)
    (ngas_files c)
    (db_log c ++ [OpSetContainerSize key size]).

(** Modelled from the spec: [ngamsDb.addFileToContainer] records the
    membership of a file in a container as a relation of its own. *)
Definition addFileToContainer (key : ContainerKey) (fileId : string)
    (c : Catalog) : Catalog :=
  mkCatalog (ngas_disks c) (ngas_containers c) (next_container_id c)
    (ngas_containers_files c ++ [(key, fileId)])
    (ngas_files c)
    (db_log c ++ [OpAddFileToContainer key fileId]).

(** Modelled from the spec: [ngamsFileInfo.write] appends the file record. *)
Definition writeFileInfo (row : FileRow) (c : Catalog) : Catalog :=
  mkCatalog (ngas_disks c) (ngas_containers c) (next_container_id c)
    (ngas_containers_files c)
    (ngas_files c ++ [row])
    (db_log c ++ [OpWriteFileInfo (file_id row) (file_version row)]).

Definition set_disk_counters (avail stored files : Z) (d : DiskInfo) : DiskInfo :=
  mkDiskInfo (diskId d) (diskHostId d) (mountPoint d) (slotId d)
    (completed d) (completionDate d) avail stored files.

(** Modelled from the spec: [ngamsDb.updateDiskInfo(fileSize, diskId)]
    updates the stored-bytes and the file-count counters of the volume. *)
Definition db_updateDiskInfo (fileSize : Z) (disk : string) (c : Catalog) : Catalog :=
  mkCatalog
    (alter (fun d => set_disk_counters (availableMb d)
                       (bytesStored d + fileSize) (numberOfFiles d + 1) d)
       disk (ngas_disks c))
    (ngas_containers c) (next_container_id c)
    (ngas_containers_files c) (ngas_files c)
    (db_log c ++ [OpUpdateDiskInfo fileSize disk]).

(** Modelled from the spec: [ngamsDiskInfo.write] stores the volume. *)
Definition writeDiskInfo (d : DiskInfo) (c : Catalog) : Catalog :=
  mkCatalog (<[diskId d := d]> (ngas_disks c))
    (ngas_containers c) (next_container_id c)
    (ngas_containers_files c) (ngas_files c)
    (db_log c ++ [OpWriteDiskInfo (diskId d)]).

(** The mirroring handler's first statement, as its SQL text reads:
    [update ngas_disks set available_mb = available_mb - :1 / (1024 * 1024),
     bytes_stored = bytes_stored + :2 where disk_id = :3]. *)
Definition sqlUpdate_ngas_disks (p1 p2 : Z) (p3 : string) (c : Catalog) : Catalog :=
  mkCatalog
    (alter (fun d => set_disk_counters (availableMb d - p1 / (1024 * 1024))
                       (bytesStored d + p2) (numberOfFiles d) d)
       p3 (ngas_disks c))
    (ngas_containers c) (next_container_id c)
    (ngas_containers_files c) (ngas_files c)
    (db_log c ++ [OpMirrorUpdateDisk p2 p3]).

(** The mirroring handler's second statement: [INSERT INTO ngas_files]. *)
Definition sqlInsert_ngas_files (row : FileRow) (c : Catalog) : Catalog :=
  mkCatalog (ngas_disks c) (ngas_containers c) (next_container_id c)
    (ngas_containers_files c)
    (ngas_files c ++ [row])
    (db_log c ++ [OpMirrorInsertFile (file_id row) (file_version row)]).

(** ** The request and the server *)

(** [ngamsReqProps] *)
Record ReqProps : Type := mkReqProps {
  fileUri : string;
  safeFileUri : string;
  mimeType : string;
  reqSize : Z;
  readFd : string;
  bytesReceived : Z;
  ioTime : float;
  stagingFilename : string;
  targDiskInfo : option DiskInfo;
  fileinfo_fileId : string;
  fileinfo_fileVersion : Z
}.

Inductive LockEvent : Type :=
| Acquire (slot : string)
| Release (slot : string).

(** The server object with its configuration, the catalog, the disk
    semaphores of [ngamsHighLevelLib], and the request in progress. *)
Record World : Type := mkWorld {
  allowArchiveReq : bool;
  blockSize : Z;
  freeSpaceDiskChangeMb : Z;
  mirroringFetchMethod : string;
  srvHostId : string;
  srvState : string;
  srvSubState : string;
  cachingActive : bool;
  db : Catalog;
  diskMutexSems : gmap string nat;
  lockLog : list LockEvent;
  newFilesDbm : list (string * string * Z * string);
  subscriptionInfo : list (string * Z);
  subscriptionTriggers : nat;
  replies : list string;
  clock : nat;
  req : ReqProps
}.

Definition with_db (f : Catalog -> Catalog) (w : World) : World :=
  mkWorld (allowArchiveReq w) (blockSize w) (freeSpaceDiskChangeMb w)
    (mirroringFetchMethod w) (srvHostId w) (srvState w) (srvSubState w)
    (cachingActive w) (f (db w)) (diskMutexSems w) (lockLog w)
    (newFilesDbm w) (subscriptionInfo w) (subscriptionTriggers w)
    (replies w) (clock w) (req w).

Definition with_req (f : ReqProps -> ReqProps) (w : World) : World :=
  mkWorld (allowArchiveReq w) (blockSize w) (freeSpaceDiskChangeMb w)
    (mirroringFetchMethod w) (srvHostId w) (srvState w) (srvSubState w)
    (cachingActive w) (db w) (diskMutexSems w) (lockLog w)
    (newFilesDbm w) (subscriptionInfo w) (subscriptionTriggers w)
    (replies w) (clock w) (f (req w)).

Definition with_state (state subState : string) (w : World) : World :=
  mkWorld (allowArchiveReq w) (blockSize w) (freeSpaceDiskChangeMb w)
    (mirroringFetchMethod w) (srvHostId w) state subState
    (cachingActive w) (db w) (diskMutexSems w) (lockLog w)
    (newFilesDbm w) (subscriptionInfo w) (subscriptionTriggers w)
    (replies w) (clock w) (req w).

Definition with_sems (sems : gmap string nat) (ev : LockEvent) (w : World) : World :=
  mkWorld (allowArchiveReq w) (blockSize w) (freeSpaceDiskChangeMb w)
    (mirroringFetchMethod w) (srvHostId w) (srvState w) (srvSubState w)
    (cachingActive w) (db w) sems (lockLog w ++ [ev])
    (newFilesDbm w) (subscriptionInfo w) (subscriptionTriggers w)
    (replies w) (clock w) (req w).

Definition with_notify (dbm : list (string * string * Z * string))
    (subs : list (string * Z)) (triggers : nat) (rs : list string)
    (w : World) : World :=
  mkWorld (allowArchiveReq w) (blockSize w) (freeSpaceDiskChangeMb w)
    (mirroringFetchMethod w) (srvHostId w) (srvState w) (srvSubState w)
    (cachingActive w) (db w) (diskMutexSems w) (lockLog w)
    dbm subs triggers rs (clock w) (req w).

Definition with_clock (n : nat) (w : World) : World :=
  mkWorld (allowArchiveReq w) (blockSize w) (freeSpaceDiskChangeMb w)
    (mirroringFetchMethod w) (srvHostId w) (srvState w) (srvSubState w)
    (cachingActive w) (db w) (diskMutexSems w) (lockLog w)
    (newFilesDbm w) (subscriptionInfo w) (subscriptionTriggers w)
    (replies w) n (req w).

(** Reading a clock: the [n]-th reading is answered by the environment. *)
Definition read_clock {A} (at_tick : nat -> A) : M World A :=
  fun w => (Ok (at_tick (clock w)), with_clock (S (clock w)) w).

Definition setMimeType (m : string) (r : ReqProps) : ReqProps :=
  mkReqProps (fileUri r) (safeFileUri r) m (reqSize r) (readFd r)
    (bytesReceived r) (ioTime r) (stagingFilename r) (targDiskInfo r)
    (fileinfo_fileId r) (fileinfo_fileVersion r).

Definition setReadFd (fd : string) (r : ReqProps) : ReqProps :=
  mkReqProps (fileUri r) (safeFileUri r) (mimeType r) (reqSize r) fd
    (bytesReceived r) (ioTime r) (stagingFilename r) (targDiskInfo r)
    (fileinfo_fileId r) (fileinfo_fileVersion r).

Definition setBytesReceived (n : Z) (r : ReqProps) : ReqProps :=
  mkReqProps (fileUri r) (safeFileUri r) (mimeType r) (reqSize r) (readFd r)
    n (ioTime r) (stagingFilename r) (targDiskInfo r)
    (fileinfo_fileId r) (fileinfo_fileVersion r).

Definition incIoTime (t : float) (r : ReqProps) : ReqProps :=
  mkReqProps (fileUri r) (safeFileUri r) (mimeType r) (reqSize r) (readFd r)
    (bytesReceived r) (PrimFloat.add (ioTime r) t) (stagingFilename r)
    (targDiskInfo r) (fileinfo_fileId r) (fileinfo_fileVersion r).

Definition setStagingFilename (f : string) (r : ReqProps) : ReqProps :=
  mkReqProps (fileUri r) (safeFileUri r) (mimeType r) (reqSize r) (readFd r)
    (bytesReceived r) (ioTime r) f (targDiskInfo r)
    (fileinfo_fileId r) (fileinfo_fileVersion r).

Definition setTargDiskInfo (d : DiskInfo) (r : ReqProps) : ReqProps :=
  mkReqProps (fileUri r) (safeFileUri r) (mimeType r) (reqSize r) (readFd r)
    (bytesReceived r) (ioTime r) (stagingFilename r) (Some d)
    (fileinfo_fileId r) (fileinfo_fileVersion r).

(** Server states and sub-states of [ngamsCore]. *)
Definition NGAMS_ONLINE_STATE : string := "ONLINE".
Definition NGAMS_IDLE_SUBSTATE : string := "IDLE".
Definition NGAMS_BUSY_SUBSTATE : string := "BUSY".
Definition NGAMS_FILE_STATUS_OK : string := "00000000".
Definition NGAMS_STAGING_DIR : string := "staging".

(** Modelled from the spec: [srvObj.checkSetState] rejects the request
    unless the server is in one of the allowed states and sub-states, and
    otherwise moves it to the new state and sub-state. *)
Definition checkSetState (action : string) (allowedStates allowedSubStates : list string)
    (newState newSubState : string) : M World unit :=
  fun w =>
    if bool_decide (srvState w ∈ allowedStates)
       && bool_decide (srvSubState w ∈ allowedSubStates)
    then (Ok tt, with_state newState newSubState w)
    else (Raise (Exception_ ("NGAMS_ER_IMPROPER_STATE: " ++ action)), w).

(** ** The disk resource lock *)

(** Modelled from the spec: [ngamsHighLevelLib] keeps one semaphore per
    slot, created with one permit.  Acquiring takes a permit and waits
    while there is none; releasing gives one back. *)
Definition permits (slot : string) (w : World) : nat :=
  default 1%nat (diskMutexSems w !! slot).

Definition acquireDiskResource (slot : string) : M World unit :=
  fun w =>
    match permits slot w with
    | O => (Block, w)
    | S n => (Ok tt, with_sems (<[slot := n]> (diskMutexSems w)) (Acquire slot) w)
    end.

Definition releaseDiskResource (slot : string) : M World unit :=
  fun w =>
    (Ok tt,
     with_sems (<[slot := S (permits slot w)]> (diskMutexSems w)) (Release slot) w).

(** [diskInfoObj.getSlotId()] on an argument that may be [None]. *)
Definition getSlotId (diskInfoObj : option DiskInfo) : M World string :=
  match diskInfoObj with
  | Some d => ret (slotId d)
  | None => raise (AttributeError "'NoneType' object has no attribute 'getSlotId'")
  end.

(** * ngamsCmd_CARCHIVE *)

Module CARCHIVE.

(** What the MIME parser and its file-system handler report after
    [parser.parse()].  An item of [fileDataList] is
    [(container, staged file path, crc)]. *)
Record ParseResult : Type := mkParseResult {
  fileDataList : list (ContainerRef * string * Z);
  crcTime : float;
  writingTime : float;
  rootContainer : Container;
  readingTime : float;
  bytesRead : Z
}.

(** The collaborators of the plug-in. *)
Record Externals : Type := mkExternals {
  time_time : nat -> float;
  getTimeStamp : nat -> string;
  timer_stop : nat -> float;
  genUniqueId : nat -> string;
  checkCreatePath : string -> Res unit;
  determineMimeType : string -> string;
  openCheckUri : string -> Res string;
  isArchivePull : string -> bool;
  contentLength : string -> option string;
  int_of_str : string -> Res Z;
  qarchive_getTargetVolume : World -> option DiskInfo;
  parse : string -> Z -> Z -> string -> Res ParseResult;
  getFileSize : string -> Res Z;
  genFileInfo : Catalog -> DiskInfo -> string -> string -> string -> list string
                -> Res (Z * string * string * string * bool);
  checkForDblExt : string -> string -> string * string;
  mvFile : string -> string -> Res float;
  getFileCreationTime : string -> string;
  getDiskSpaceAvail : string -> Z
}.

(** The list [[deltaTime, rootContainer, fileDataList, ingestRate]]. *)
Record StagingInfo : Type := mkStagingInfo {
  st_deltaTime : float;
  st_rootContainer : Container;
  st_fileDataList : list (ContainerRef * string * Z);
  st_ingestRate : float
}.

Section WithExternals.

Variable E : Externals.

(** The size estimation of [saveFromHttpToFile]. *)
Definition remSize (r : ReqProps) : Res Z :=
  if isArchivePull E (fileUri r) && negb (startswith (fileUri r) "http://")
  then Ok 100000000000
  else if startswith (fileUri r) "http://" then
    match contentLength E (readFd r) with
    | Some v => int_of_str E v
    | None => Ok 100000000000
    end
  else Ok (reqSize r).

(** The [try] statement of [saveFromHttpToFile] after the acquisition:
    size estimation, parsing, statistics. *)
Definition transfer (trgFilename : string) (blockSize : Z) : M World StagingInfo :=
  r <- gets req ;;
  remSize <- lift (remSize r) ;;
  pr <- lift (parse E (readFd r) remSize blockSize trgFilename) ;;
  deltaTime <- read_clock (timer_stop E) ;;
  bytes <- lift (py_float (bytesRead pr)) ;;
  ingestRate <- lift (py_float_div bytes deltaTime) ;;
  modify (with_req (setBytesReceived (bytesRead pr))) ;;
  ret (mkStagingInfo deltaTime (rootContainer pr) (fileDataList pr) ingestRate).

(** The body of the [try] statement of [saveFromHttpToFile]. *)
Definition guarded_body (trgFilename : string) (blockSize : Z)
    (mutexDiskAccess : bool) (diskInfoObj : option DiskInfo) : M World StagingInfo :=
  (if mutexDiskAccess
   then (slot <- getSlotId diskInfoObj ;; acquireDiskResource slot)
   else ret tt) ;;
  transfer trgFilename blockSize.

(** The [finally] clause of [saveFromHttpToFile]. *)
Definition guarded_finally (mutexDiskAccess : bool)
    (diskInfoObj : option DiskInfo) : M World unit :=
  if mutexDiskAccess
  then (slot <- getSlotId diskInfoObj ;; releaseDiskResource slot)
  else ret tt.

Definition saveFromHttpToFile (trgFilename : string) (blockSize : Z)
    (mutexDiskAccess : bool) (diskInfoObj : option DiskInfo) : M World StagingInfo :=
  lift (checkCreatePath E (dirname trgFilename)) ;;
  try_finally
    (guarded_body trgFilename blockSize mutexDiskAccess diskInfoObj)
    (guarded_finally mutexDiskAccess diskInfoObj).

(** [saveInStagingFile]: any exception is logged and raised again as a
    plain [Exception]; the message is abridged to its code and the file
    name. *)
Definition saveInStagingFile (stagingFilename : string)
    (diskInfoObj : DiskInfo) : M World StagingInfo :=
  try_except
    (blockSize <- gets blockSize ;;
     saveFromHttpToFile stagingFilename blockSize true (Some diskInfoObj))
    (fun e => raise (Exception_ ("NGAMS_ER_PROB_STAGING_AREA: " ++ stagingFilename))).

(** [for child in children: visit(child)], collecting the objects as the
    visits leave them. *)
Fixpoint each_child {A} (visit : A -> World -> A * World) (children : list A)
    (w : World) : list A * World :=
  match children with
  | [] => ([], w)
  | child :: rest =>
      let (child', w1) := visit child w in
      let (rest', w2) := each_child visit rest w1 in
      (child' :: rest', w2)
  end.

(** [createContainers(container, parentContainer, srvObj)]: the result is
    the container object as the call leaves it, identities filled in. *)
Fixpoint createContainers (container : Container)
    (parentContainer : option Container) (w : World) : Container * World :=
  let containerName := containerName container in
  let ingestionDate := time_time E (clock w) in
  let w := with_clock (S (clock w)) w in
  let parentContainerId :=
    match parentContainer with
    | Some p => Some (str_id (containerId p))
    | None => None
    end in
  let (containerId, db') :=
    createContainer containerName 0 ingestionDate parentContainerId (db w) in
  let w := with_db (fun _ => db') w in
  let container := setIngestionDate ingestionDate (setContainerId containerId container) in
  let (children, w) :=
    each_child (fun childContainer => createContainers childContainer (Some container))
      (containers container) w in
  (setContainers children container, w).

(** What the commit loop carries from one file to the next: the running
    totals [containerSizes] and the results [resDapiList]. *)
Definition LoopState : Type := gmap ContainerKey Z * list DapiStatus.

(** [if not containerSizes.has_key(k): containerSizes[k] = 0] followed by
    [containerSizes[k] += n]. *)
Definition dict_add (k : ContainerKey) (n : Z) (m : gmap ContainerKey Z)
    : gmap ContainerKey Z :=
  <[k := default 0 (m !! k) + n]> m.

(** The source file version named by the URI, when it names one. *)
Definition uri_file_version (uri : string) (dapiVersion : Z) : Res Z :=
  match str_find uri "file_version" with
  | Some _ =>
      match py_index (str_split uri "file_version=") 1 with
      | Ok rest =>
          match py_index (str_split rest "&") 0 with
          | Ok v => int_of_str E v
          | Raise e => Raise e
          | Block => Block
          end
      | Raise e => Raise e
      | Block => Block
      end
  | None => Ok dapiVersion
  end.

(** One turn of [for item in fileDataList]. *)
Definition commit_file (root : Container) (diskInfo : DiskInfo) (dateDir : string)
    (st : LoopState) (item : ContainerRef * string * Z) : M World LoopState :=
  let '(containerSizes, resDapiList) := st in
  let '(container, filepath, crc) := item in
  let containerId := str_id (getContainerId root container) in
  let basename := basename filepath in
  let fileId := basename in
  cat <- gets db ;;
  info <- lift (genFileInfo E cat diskInfo filepath fileId basename [dateDir]) ;;
  let '(fileVersion, relPath, relFilename, complFilename, fileExists) := info in
  let '(complFilename, relFilename) := checkForDblExt E complFilename relFilename in
  uncomprSize <- lift (getFileSize E filepath) ;;
  let containerSizes := dict_add containerId uncomprSize containerSizes in
  mimeType <- gets (fun w => mimeType (req w)) ;;
  let compression := "NONE" in
  archFileSize <- lift (getFileSize E filepath) ;;
  let resDapi :=
    mkDapiStatus (diskId diskInfo) relFilename fileId fileVersion mimeType
      archFileSize uncomprSize compression relPath (slotId diskInfo)
      fileExists complFilename in
  mvTime <- lift (mvFile E filepath (ds_completeFilename resDapi)) ;;
  modify (with_req (incIoTime mvTime)) ;;
  let checksumPlugIn := "StreamCrc32" in
  let checksum := pretty crc in
  uri <- gets (fun w => fileUri (req w)) ;;
  file_version <- lift (uri_file_version uri (ds_fileVersion resDapi)) ;;
  ts <- read_clock (getTimeStamp E) ;;
  let creDate := getFileCreationTime E (ds_completeFilename resDapi) in
  reqIoTime <- gets (fun w => ioTime (req w)) ;;
  modify (with_db (writeFileInfo
    (mkFileRow (ds_diskId resDapi) (ds_relFilename resDapi) (ds_fileId resDapi)
       file_version (ds_format resDapi) (ds_fileSize resDapi)
       (ds_uncomprSize resDapi) (ds_compression resDapi) ts None checksum
       checksumPlugIn NGAMS_FILE_STATUS_OK creDate (Some reqIoTime)))) ;;
  modify (with_db (addFileToContainer containerId (ds_fileId resDapi))) ;;
  for_each (fun (_ : unit) (contSizeInfo : ContainerKey * Z) =>
              modify (with_db (setContainerSize contSizeInfo.1 contSizeInfo.2)))
    tt (map_to_list containerSizes) ;;
  caching <- gets cachingActive ;;
  (if caching
   then modify (fun w =>
          with_notify
            (newFilesDbm w ++
               [(ds_diskId resDapi, ds_fileId resDapi, file_version,
                 ds_relFilename resDapi)])
            (subscriptionInfo w) (subscriptionTriggers w) (replies w) w)
   else ret tt) ;;
  modify (with_db (db_updateDiskInfo (ds_fileSize resDapi) (ds_diskId resDapi))) ;;
  ret (containerSizes, (resDapiList ++ [resDapi])%list).

Definition setCompleted (date : string) (d : DiskInfo) : DiskInfo :=
  mkDiskInfo (diskId d) (diskHostId d) (mountPoint d) (slotId d) 1 (Some date)
    (availableMb d) (bytesStored d) (numberOfFiles d).

(** What [handleCmd] leaves behind for the caller to observe: the
    persisted root container and the committed files. *)
Definition handleCmd : M World (Container * list DapiStatus) :=
  allow <- gets allowArchiveReq ;;
  (if allow then ret tt else raise (Exception_ "NGAMS_ER_ILL_REQ: Archive")) ;;
  checkSetState "Archive Request" [NGAMS_ONLINE_STATE]
    [NGAMS_IDLE_SUBSTATE; NGAMS_BUSY_SUBSTATE]
    NGAMS_ONLINE_STATE NGAMS_BUSY_SUBSTATE ;;
  r <- gets req ;;
  (if String.eqb (mimeType r) ""
   then modify (with_req (setMimeType (determineMimeType E (fileUri r))))
   else ret tt) ;;
  (if startswith (fileUri r) "http://"
   then (readFd <- lift (openCheckUri E (fileUri r)) ;;
         modify (with_req (setReadFd readFd)))
   else ret tt) ;;
  targ <- gets (qarchive_getTargetVolume E) ;;
  match targ with
  | None => raise (Exception_ "No disk volumes are available for ingesting any files.")
  | Some targDiskInfo =>
      modify (with_req (setTargDiskInfo targDiskInfo)) ;;
      baseName <-
        lift (match str_find (fileUri r) "file_id=" with
              | Some _ =>
                  res_map basename (py_index (str_split (fileUri r) "file_id=") 1)
              | None => Ok (basename (fileUri r))
              end) ;;
      uid <- read_clock (genUniqueId E) ;;
      let stgFilename :=
        path_join (path_join (path_join "/" (mountPoint targDiskInfo))
                     NGAMS_STAGING_DIR)
          (uid ++ "___" ++ baseName) in
      modify (with_req (setStagingFilename stgFilename)) ;;
      stagingInfo <- saveInStagingFile stgFilename targDiskInfo ;;
      modify (with_req (incIoTime (st_deltaTime stagingInfo))) ;;
      root <- (fun w => let (c, w') :=
                 createContainers (st_rootContainer stagingInfo) None w in
               (Ok c, w')) ;;
      ts <- read_clock (getTimeStamp E) ;;
      dateDir <- lift (py_index (str_split ts "T") 0) ;;
      st <- for_each (commit_file root targDiskInfo dateDir) (∅, [])
              (st_fileDataList stagingInfo) ;;
      let resDapiList := st.2 in
      let availSpace := getDiskSpaceAvail E (mountPoint targDiskInfo) in
      threshold <- gets freeSpaceDiskChangeMb ;;
      (if (availSpace <? threshold)%Z
       then (complDate <- read_clock (getTimeStamp E) ;;
             modify (with_db (writeDiskInfo (setCompleted complDate targDiskInfo))))
       else ret tt) ;;
      modify (with_state NGAMS_ONLINE_STATE NGAMS_IDLE_SUBSTATE) ;;
      modify (fun w =>
        with_notify (newFilesDbm w) (subscriptionInfo w) (subscriptionTriggers w)
          (replies w ++ ["Successfully handled Archive Pull Request for data file "
                           ++ "with URI: " ++ safeFileUri (req w)]) w) ;;
      for_each (fun (_ : unit) (resDapi : DapiStatus) =>
                  modify (fun w =>
                    with_notify (newFilesDbm w)
                      (subscriptionInfo w
                         ++ [(ds_fileId resDapi, ds_fileVersion resDapi)])
                      (S (subscriptionTriggers w)) (replies w) w))
        tt resDapiList ;;
      ret (root, resDapiList)
  end.

End WithExternals.

End CARCHIVE.

(** * ngamsCmd_MIRRARCHIVE *)

Module MIRRARCHIVE.

(** The collaborators of the plug-in.  A fetch command answers with its
    outcome and with the number of bytes it leaves recorded as received
    in the request properties. *)
Record Externals : Type := mkExternals {
  getNgasDisksCols : string;
  query2 : Catalog -> string -> list string -> Res (list DiskInfo);
  stagingFileSize : string -> option Z;
  httpfetch_saveToFile : ReqProps -> string -> Z -> Z -> Res (float * Z) * Z;
  rsyncfetch_saveToFile : ReqProps -> string -> Z -> Z -> Res (float * Z) * Z;
  ngamsGeneric : World -> Res DapiStatus;
  mvFile : string -> string -> Res float;
  toiso8601 : nat -> string;
  getFileCreationTime : string -> string;
  open_ : string -> Res string;
  crc32 : string -> Z -> Z
}.

Section WithExternals.

Variable E : Externals.

(** [getTargetVolume(srvObj)].  In the expression that builds [sqlQuery],
    [%] binds tighter than [+]: the right operand of [+] is
    ["host_id={0} order by available_mb desc" % getNgasDisksCols()]. *)
Definition getTargetVolume : M World (option DiskInfo) :=
  sqlQuery <-
    lift (res_map
            (String.append "SELECT %s FROM ngas_disks nd WHERE completed=0 AND ")
            (py_mod "host_id={0} order by available_mb desc" (getNgasDisksCols E))) ;;
  w <- gets id ;;
  res <- lift (query2 E (db w) sqlQuery [srvHostId w]) ;;
  match res with
  | [] => ret None
  | first :: _ => ret (Some first)
  end.

(** [updateDiskInfo(srvObj, resDapi, availSpace)]:
    [UPDATE ngas_disks SET number_of_files=(number_of_files + 1),
     available_mb = {0}, bytes_stored = (bytes_stored + {1})
     WHERE disk_id = {2}]. *)
Definition updateDiskInfo (resDapi : DapiStatus) (availSpace : Z) : M World unit :=
  modify (with_db (fun c =>
    mkCatalog
      (alter (fun d => set_disk_counters availSpace
                         (bytesStored d + ds_fileSize resDapi)
                         (numberOfFiles d + 1) d)
         (ds_diskId resDapi) (ngas_disks c))
      (ngas_containers c) (next_container_id c)
      (ngas_containers_files c) (ngas_files c)
      (db_log c ++ [OpUpdateDiskInfo (ds_fileSize resDapi) (ds_diskId resDapi)]))).

Definition saveInStagingFile (stagingFilename : string) (startByte : Z)
    : M World (float * Z) :=
  blockSize <- gets blockSize ;;
  configured <- gets mirroringFetchMethod ;;
  let fetchMethod := if String.eqb configured "" then "HTTP" else configured in
  r <- gets req ;;
  let '(info, received) :=
    if String.eqb fetchMethod "RSYNC"
    then rsyncfetch_saveToFile E r stagingFilename blockSize startByte
    else httpfetch_saveToFile E r stagingFilename blockSize startByte in
  modify (with_req (setBytesReceived received)) ;;
  lift info.

(** *** calculateCrc *)

(** The objects a name of [calculateCrc] can stand for. *)
Inductive PyObj : Type :=
| PyStr (s : string)
| PyType (name : string).

(** The local variables of [calculateCrc]: the names it assigns. *)
Record Locals : Type := mkLocals {
  l_crc : option Z;
  l_fdin : option string;
  l_buff : option string
}.

(** A name that the function never assigns is not local: it is looked up
    in the module, which binds no [buffer], and then in the built-ins,
    where Python 2 keeps the type [buffer]. *)
Definition load_global (name : string) : Res PyObj :=
  if String.eqb name "buffer" then Ok (PyType "buffer")
  else Raise (NameError name).

(** [len(o)] *)
Definition py_len (o : PyObj) : Res Z :=
  match o with
  | PyStr s => Ok (Z.of_nat (String.length s))
  | PyType _ => Raise (TypeError "object of type 'type' has no len()")
  end.

Definition load_local {A} (name : string) (field : Locals -> option A) : M Locals A :=
  fun l =>
    match field l with
    | Some v => (Ok v, l)
    | None => (Raise (UnboundLocalError name), l)
    end.

(** [while cond: body]; a loop that outlives its fuel never returns. *)
Fixpoint while_ {S} (fuel : nat) (cond : M S bool) (body : M S unit) : M S unit :=
  match fuel with
  | O => fun s => (Block, s)
  | Datatypes.S fuel' =>
      c <- cond ;;
      if c then (body ;; while_ fuel' cond body) else ret tt
  end.

(** [fdin.read(blockSize)]: the next block of the open file. *)
Definition fdin_read (blockSize : Z) : M Locals string :=
  content <- load_local "fdin" l_fdin ;;
  let n := Z.to_nat blockSize in
  modify (fun l => mkLocals (l_crc l) (Some (drop_str n content)) (l_buff l)) ;;
  ret (String.substring 0 n content).

Definition calculateCrc_frame (fuel : nat) (filename : string) (blockSize : Z)
    : M Locals Z :=
  modify (fun l => mkLocals (Some 0) (l_fdin l) (l_buff l)) ;;
  try_finally
    (content <- lift (open_ E filename) ;;
     modify (fun l => mkLocals (l_crc l) (Some content) (l_buff l)) ;;
     modify (fun l => mkLocals (l_crc l) (l_fdin l) (Some "-")) ;;
     while_ fuel
       (buffer <- lift (load_global "buffer") ;;
        n <- lift (py_len buffer) ;;
        ret (0 <? n)%Z)
       (buff <- fdin_read blockSize ;;
        modify (fun l => mkLocals (l_crc l) (l_fdin l) (Some buff)) ;;
        crc <- load_local "crc" l_crc ;;
        modify (fun l => mkLocals (Some (crc32 E buff crc)) (l_fdin l) (l_buff l))))
    (_ <- load_local "fdin" l_fdin ;; ret tt) ;;
  load_local "crc" l_crc.

Definition calculateCrc (fuel : nat) (filename : string) (blockSize : Z) : Res Z :=
  (calculateCrc_frame fuel filename blockSize (mkLocals None None None)).1.

(** *** The command handler *)

(** The [except] clauses of [__handleCmd]. *)
Definition classify (e : PyExc) : M World (float * Z) :=
  match e with
  | FailedDownloadException _ => raise e
  | PostponeException _ => raise e
  | _ =>
      if (getattr_errno e =? 28)%Z then raise (FailedDownloadException e)
      else
        received <- gets (fun w => bytesReceived (req w)) ;;
        if (received >=? 0)%Z then raise (PostponeException e)
        else raise (FailedDownloadException e)
  end.

Definition __handleCmd : M World unit :=
  allow <- gets allowArchiveReq ;;
  (if allow then ret tt else raise (Exception_ "NGAMS_ER_ILL_REQ: Archive")) ;;
  stgFilename <- gets (fun w => stagingFilename (req w)) ;;
  let startByte := default 0 (stagingFileSize E stgFilename) in
  file_id <- gets (fun w => fileinfo_fileId (req w)) ;;
  file_version <- gets (fun w => fileinfo_fileVersion (req w)) ;;
  stagingInfo <-
    try_except
      (stagingInfo <- saveInStagingFile stgFilename startByte ;;
       modify (with_req (incIoTime stagingInfo.1)) ;;
       ret stagingInfo)
      classify ;;
  let checksumPlugIn := "ngamsGenCrc32" in
  let checksum := stagingInfo.2 in
  w <- gets id ;;
  resDapi <- lift (ngamsGeneric E w) ;;
  ioTime_ <- lift (mvFile E stgFilename (ds_completeFilename resDapi)) ;;
  modify (with_req (incIoTime ioTime_)) ;;
  ts <- read_clock (toiso8601 E) ;;
  let creDate := getFileCreationTime E (ds_completeFilename resDapi) in
  modify (with_db (sqlUpdate_ngas_disks (ds_fileSize resDapi) (ds_fileSize resDapi)
                     (ds_diskId resDapi))) ;;
  modify (with_db (sqlInsert_ngas_files
    (mkFileRow (ds_diskId resDapi) (ds_relFilename resDapi) file_id file_version
       (ds_format resDapi) (ds_fileSize resDapi) (ds_uncomprSize resDapi)
       (ds_compression resDapi) ts (Some 0) (pretty checksum) checksumPlugIn
       NGAMS_FILE_STATUS_OK creDate None))).

(** The row that [__handleCmd] inserts for a committed file. *)
Definition inserted_row (w : World) (resDapi : DapiStatus) (checksum : Z)
    (ts : string) : FileRow :=
  mkFileRow (ds_diskId resDapi) (ds_relFilename resDapi)
    (fileinfo_fileId (req w)) (fileinfo_fileVersion (req w))
    (ds_format resDapi) (ds_fileSize resDapi) (ds_uncomprSize resDapi)
    (ds_compression resDapi) ts (Some 0) (pretty checksum) "ngamsGenCrc32"
    NGAMS_FILE_STATUS_OK
    (getFileCreationTime E (ds_completeFilename resDapi)) None.

Definition handleCmd : M World unit :=
  state <- gets srvState ;;
  if String.eqb state NGAMS_ONLINE_STATE then __handleCmd
  else raise (AbortedException "Server is OFFLINE").

End WithExternals.

End MIRRARCHIVE.

(** * Vocabulary of the properties *)

(** The catalog key under which a child names its parent. *)
Definition parent_key (parent : option Container) : option ContainerKey :=
  match parent with
  | Some p => Some (str_id (containerId p))
  | None => None
  end.

(** The identity of a container of the pre-order. *)
Definition node_id (n : option ContainerKey * Container) : option nat :=
  containerId n.2.

(** The statement that creates the row of a container of the tree. *)
Definition create_event (n : option ContainerKey * Container) : DbOp :=
  OpCreateContainer (default 0%nat (containerId n.2)) (containerName n.2) 0 n.1.

(** The row of a container as [createContainers] persists it. *)
Definition created_row (n : option ContainerKey * Container) : ContainerRow :=
  mkContainerRow (containerName n.2) 0 (default 0%float (ingestionDate n.2)) n.1.

Definition insert_row (m : gmap nat ContainerRow)
    (n : option ContainerKey * Container) : gmap nat ContainerRow :=
  <[default 0%nat (containerId n.2) := created_row n]> m.

(** [w'] is [w] after the rows of the containers [ns] were created, in
    this order, under consecutive identities. *)
Definition created (ns : list (option ContainerKey * Container)) (w w' : World)
    : Prop :=
  node_id <$> ns
    = Some <$> seq (next_container_id (db w)) (length ns) /\
  next_container_id (db w') = (next_container_id (db w) + length ns)%nat /\
  db_log (db w') = (db_log (db w) ++ (create_event <$> ns))%list /\
  ngas_containers (db w') = foldl insert_row (ngas_containers (db w)) ns /\
  ngas_disks (db w') = ngas_disks (db w) /\
  ngas_containers_files (db w') = ngas_containers_files (db w) /\
  ngas_files (db w') = ngas_files (db w) /\
  w' = with_clock (clock w') (with_db (fun _ => db w') w).

(** The size that the commit loop reads for the staged file of an item. *)
Definition usize (E : CARCHIVE.Externals) (item : ContainerRef * string * Z) : Z :=
  match CARCHIVE.getFileSize E item.1.2 with
  | Ok z => z
  | _ => 0
  end.

(** The catalog key of the container an item is attached to. *)
Definition item_key (root : Container) (item : ContainerRef * string * Z)
    : ContainerKey :=
  str_id (getContainerId root item.1.1).

Definition keyed (E : CARCHIVE.Externals) (root : Container)
    (item : ContainerRef * string * Z) : ContainerKey * Z :=
  (item_key root item, usize E item).

(** The running totals after a sequence of files, given by key and size. *)
Definition totals (l : list (ContainerKey * Z)) : gmap ContainerKey Z :=
  foldl (fun m kz => CARCHIVE.dict_add kz.1 kz.2 m) ∅ l.

(** The sum of the sizes filed under a key. *)
Definition sum_for (k : ContainerKey) (l : list (ContainerKey * Z)) : Z :=
  foldr (fun kz acc => if decide (kz.1 = k) then kz.2 + acc else acc) 0 l.

(** One size statement for each entry of the running totals. *)
Definition size_events (m : gmap ContainerKey Z) : list DbOp :=
  (fun kv => OpSetContainerSize kv.1 kv.2) <$> map_to_list m.

Definition write_sizes (l : list (ContainerKey * Z)) (c : Catalog) : Catalog :=
  foldl (fun c kv => setContainerSize kv.1 kv.2 c) c l.

(** The sum of the sizes of the files attached to the container [p]. *)
Definition direct_size (E : CARCHIVE.Externals) (p : ContainerRef)
    (items : list (ContainerRef * string * Z)) : Z :=
  foldr (fun it acc => if decide (it.1.1 = p) then usize E it + acc else acc)
    0 items.

(** The sum of the sizes of the files attached to the container [p] or to
    a container below it. *)
Definition descendant_size (E : CARCHIVE.Externals) (p : ContainerRef)
    (items : list (ContainerRef * string * Z)) : Z :=
  foldr (fun it acc =>
           if decide (p `prefix_of` it.1.1) then usize E it + acc else acc)
    0 items.

(** A row after the size statements for the running totals [m]. *)
Definition with_total (m : gmap ContainerKey Z) (id : nat) (r : ContainerRow)
    : ContainerRow :=
  match m !! KeyId id with
  | Some z => set_size z r
  | None => r
  end.

(** A volume after [files] more files of [bytes] bytes altogether. *)
Definition add_file_counters (bytes files : Z) (d : DiskInfo) : DiskInfo :=
  set_disk_counters (availableMb d) (bytesStored d + bytes)
    (numberOfFiles d + files) d.

Definition total_size (E : CARCHIVE.Externals)
    (items : list (ContainerRef * string * Z)) : Z :=
  foldr (fun it acc => usize E it + acc) 0 items.

(** An item of the request as the commit loop files it, with the version
    it is recorded under. *)
Definition filed (E : CARCHIVE.Externals) (root : Container)
    (item : ContainerRef * string * Z) (version : Z)
    : ContainerKey * Z * string * Z :=
  (item_key root item, usize E item, basename item.1.2, version).

(** A command that leaves the catalog as it finds it. *)
Definition keeps_db {A} (m : M World A) : Prop :=
  forall w r w', m w = (r, w') -> db w' = db w.

(** The statements of the commit loop for a sequence of files, each given
    by key, size, file identifier and version, starting from the running
    totals [sizes]. *)
Fixpoint commit_trace (disk : string) (sizes : gmap ContainerKey Z)
    (files : list (ContainerKey * Z * string * Z)) : list DbOp :=
  match files with
  | [] => []
  | (key, fileSize, fileId, version) :: rest =>
      let sizes' := CARCHIVE.dict_add key fileSize sizes in
      [OpWriteFileInfo fileId version; OpAddFileToContainer key fileId]
        ++ size_events sizes'
        ++ [OpUpdateDiskInfo fileSize disk]
        ++ commit_trace disk sizes' rest
  end.

(** The number of size statements addressed to a key. *)
Definition is_size_write (k : ContainerKey) (ev : DbOp) : bool :=
  match ev with
  | OpSetContainerSize k' _ => bool_decide (k' = k)
  | _ => false
  end.

Definition size_writes (k : ContainerKey) (log : list DbOp) : nat :=
  length (List.filter (is_size_write k) log).

(** * Concrete requests *)

Module Demo.

Definition volume1 : DiskInfo :=
  mkDiskInfo "disk-1" "ngas1" "/mnt/vol1" "slot-1" 0 None 9000 0 0.

Definition catalog0 : Catalog :=
  mkCatalog {[ "disk-1" := volume1 ]} ∅ 0 [] [] [].

Definition request (uri staging : string) : ReqProps :=
  mkReqProps uri uri "application/octet-stream" 300 "body" 0 0%float staging
    None "X1" 1.

Definition world (r : ReqProps) : World :=
  mkWorld true 65536 1000 "" "ngas1" "ONLINE" "IDLE" false catalog0 ∅ []
    [] [] 0 [] 0 r.

(** Container A holds f1 (100 bytes); its child B holds f2 (200 bytes). *)
Definition containerB : Container := mkContainer "B" None None [].
Definition containerA : Container := mkContainer "A" None None [containerB].

Definition nested_parse : CARCHIVE.ParseResult :=
  CARCHIVE.mkParseResult
    [([], "/mnt/vol1/staging/f1", 11); ([0%nat], "/mnt/vol1/staging/f2", 22)]
    0%float 0%float containerA 0%float 300.

(** Two files of 100 and 200 bytes, both in the only container. *)
Definition flat_parse : CARCHIVE.ParseResult :=
  CARCHIVE.mkParseResult
    [([], "/mnt/vol1/staging/f1", 11); ([], "/mnt/vol1/staging/f2", 22)]
    0%float 0%float (mkContainer "A" None None []) 0%float 300.

Definition sizes (p : string) : Res Z :=
  if String.eqb p "/mnt/vol1/staging/f1" then Ok 100
  else if String.eqb p "/mnt/vol1/staging/f2" then Ok 200
  else Raise (EnvironmentError_ 2 "No such file or directory").

(** Collaborators of CARCHIVE for a push request whose body the parser
    answers with [parsed] after [elapsed] seconds. *)
Definition carchive (elapsed : float) (parsed : Res CARCHIVE.ParseResult)
    : CARCHIVE.Externals :=
  CARCHIVE.mkExternals
    (fun _ => 1700000000%float)
    (fun _ => "2024-01-02T03:04:05.000")
    (fun _ => elapsed)
    (fun _ => "uid")
    (fun _ => Ok tt)
    (fun _ => "multipart/mixed")
    (fun uri => Ok uri)
    (fun _ => false)
    (fun _ => None)
    (fun _ => Raise (ValueError "invalid literal for int()"))
    (fun _ => Some volume1)
    (fun _ _ _ _ => parsed)
    sizes
    (fun _ _ _ fileId _ dirs =>
       Ok (1, "data", "data/" ++ fileId, "/mnt/vol1/data/" ++ fileId, false))
    (fun complFilename relFilename => (complFilename, relFilename))
    (fun _ _ => Ok 0.5%float)
    (fun _ => "2024-01-02T03:04:05.000")
    (fun _ => 5000).

Definition push_world : World := world (request "bundle.tar" "").

(** The two push requests, handled. *)
Definition nested_run : Res (Container * list DapiStatus) * World :=
  CARCHIVE.handleCmd (carchive 2%float (Ok nested_parse)) push_world.

Definition flat_run : Res (Container * list DapiStatus) * World :=
  CARCHIVE.handleCmd (carchive 2%float (Ok flat_parse)) push_world.

Definition returned (run : Res (Container * list DapiStatus) * World)
    : Container * list DapiStatus :=
  match run.1 with
  | Ok result => result
  | _ => (containerA, [])
  end.

(** Collaborators of MIRRARCHIVE whose fetch answers with [fetched] and
    leaves [received] bytes recorded in the request. *)
Definition mirrarchive (fetched : Res (float * Z)) (received : Z)
    : MIRRARCHIVE.Externals :=
  MIRRARCHIVE.mkExternals
    "nd.disk_id, nd.host_id, nd.available_mb"
    (fun c _ _ => Ok (map snd (map_to_list (ngas_disks c))))
    (fun _ => None)
    (fun _ _ _ _ => (fetched, received))
    (fun _ _ _ _ => (fetched, received))
    (fun _ =>
       Ok (mkDapiStatus "disk-1" "data/X1" "X1" 1 "application/octet-stream"
             500 500 "NONE" "data" "slot-1" false "/mnt/vol1/data/X1"))
    (fun _ _ => Ok 0.5%float)
    (fun _ => "2024-01-02T03:04:05.000")
    (fun _ => "2024-01-02T03:04:05.000")
    (fun _ => Ok "payload")
    (fun _ crc => crc).

Definition mirror_world : World :=
  world (request "http://ngas2:7777/RETRIEVE?file_id=X1" "/mnt/vol1/staging/X1").

End Demo.

(** * Observations on commands *)

(** A command that leaves an observation [f] of the world as it finds
    it, whatever its outcome. *)
Definition keeps {A B} (f : World -> B) (m : M World A) : Prop :=
  forall w r w', m w = (r, w') -> f w' = f w.

(** A command that leaves [f] as it finds it unless it returns. *)
Definition keeps_on_fail {A B} (f : World -> B) (m : M World A) : Prop :=
  forall w r w', m w = (r, w') -> is_Ok r = false -> f w' = f w.

(** A command that never returns a value. *)
Definition never_Ok {A} (m : M World A) : Prop :=
  forall w a w', m w <> (Ok a, w').

(** A command that always returns a value. *)
Definition always_Ok {A} (m : M World A) : Prop :=
  forall w, is_Ok (m w).1 = true.

(** Every container row of the catalog holds an identity that the
    catalog has issued. *)
Definition catalog_wf (c : Catalog) : Prop :=
  forall id, is_Some (ngas_containers c !! id) -> (id < next_container_id c)%nat.



(** A command that leaves [f] as it finds it unless it never returns. *)
Definition keeps_unless_blocked {A B} (f : World -> B) (m : M World A) : Prop :=
  forall w r w', m w = (r, w') -> r <> Block -> f w' = f w.

(** What a command that returns leaves behind, told from the observation
    [f] of the world it started in. *)
Definition on_success {A C} (f : World -> C) (m : M World A)
    (Q : C -> A -> World -> Prop) : Prop :=
  forall w a w', m w = (Ok a, w') -> Q (f w) a w'.

(** What the subscription service is told about a committed file. *)
Definition announced (d : DapiStatus) : string * Z :=
  (ds_fileId d, ds_fileVersion d).


(** Further requests. *)
Module Scenes.

(** A server that is not permitted to archive. *)
Definition closed_world : World :=
  mkWorld false 65536 1000 "" "ngas1" "ONLINE" "IDLE" false Demo.catalog0 ∅ []
    [] [] 0 [] 0 (Demo.request "bundle.tar" "").

(** A server that is off line, with a mirroring request. *)
Definition offline_world : World :=
  mkWorld true 65536 1000 "" "ngas1" "OFFLINE" "IDLE" false Demo.catalog0 ∅ []
    [] [] 0 [] 0
    (Demo.request "http://ngas2:7777/RETRIEVE?file_id=X1" "/mnt/vol1/staging/X1").



(** A catalog that already holds a container row. *)
Definition used_catalog : Catalog :=
  mkCatalog {[ "disk-1" := Demo.volume1 ]}
    {[ 0%nat := mkContainerRow "old" 42 0%float None ]} 1 [] [] [].

Definition used_world : World :=
  mkWorld true 65536 1000 "" "ngas1" "ONLINE" "IDLE" false used_catalog ∅ []
    [] [] 0 [] 0 (Demo.request "bundle.tar" "").

End Scenes.

(** * Properties *)

Open Scope list_scope.

(** ** Commands *)

Ltac unfold_cmd :=
  unfold bind, ret, raise, lift, gets, modify, try_except, try_finally,
    read_clock in *.

Lemma bind_inv_Ok {S A B} (m : M S A) (k : A -> M S B) s b s' :
  bind m k s = (Ok b, s') ->
  exists a s1, m s = (Ok a, s1) /\ k a s1 = (Ok b, s').
Proof.
  unfold bind. destruct (m s) as [[a|e|] s1]; intros H; try discriminate.
  exists a, s1. split; [reflexivity | exact H].
Qed.

(** ** The mirroring handler *)

Section MirrorProperties.

Variable E : MIRRARCHIVE.Externals.

(** The fetch of the mirroring handler only writes the request. *)
Lemma saveInStagingFile_db stg start w r w' :
  MIRRARCHIVE.saveInStagingFile E stg start w = (r, w') ->
  db w' = db w /\ allowArchiveReq w' = allowArchiveReq w.
Proof.
  unfold MIRRARCHIVE.saveInStagingFile. unfold_cmd.
  destruct (if String.eqb _ "RSYNC" then _ else _) as [info received].
  destruct info; intros H; inversion H; subst; auto.
Qed.

(** The [except] clauses end in a [raise], whatever the error. *)
Lemma classify_out_of_space e w :
  getattr_errno e = 28 ->
  MIRRARCHIVE.classify e w = (Raise (FailedDownloadException e), w).
Proof.
  destruct e; simpl; intros H; try discriminate.
  subst. reflexivity.
Qed.

Lemma classify_resumable e w :
  (forall c, e <> FailedDownloadException c) ->
  (forall c, e <> PostponeException c) ->
  getattr_errno e <> 28 ->
  0 <= bytesReceived (req w) ->
  MIRRARCHIVE.classify e w = (Raise (PostponeException e), w).
Proof.
  intros Hf Hp Herr Hb.
  assert (Hge : (bytesReceived (req w) >=? 0)%Z = true) by lia.
  destruct e; simpl in *;
    try (exfalso; eapply Hf; reflexivity);
    try (exfalso; eapply Hp; reflexivity);
    unfold_cmd; try rewrite Hge; try reflexivity.
  destruct (errno =? 28)%Z eqn:Hn; [lia |]. rewrite Hge. reflexivity.
Qed.

(** An error of the fetch leaves [__handleCmd] through the [except]
    clauses. *)
Lemma handleCmd_fetch_raises w e w1 e' :
  allowArchiveReq w = true ->
  MIRRARCHIVE.saveInStagingFile E (stagingFilename (req w))
    (default 0 (MIRRARCHIVE.stagingFileSize E (stagingFilename (req w)))) w
    = (Raise e, w1) ->
  MIRRARCHIVE.classify e w1 = (Raise e', w1) ->
  MIRRARCHIVE.__handleCmd E w = (Raise e', w1).
Proof.
  intros Hallow Hfetch Hcls.
  unfold MIRRARCHIVE.__handleCmd. unfold_cmd.
  rewrite Hallow. rewrite Hfetch. rewrite Hcls. reflexivity.
Qed.

(** A successful [__handleCmd] is a successful fetch followed by the two
    statements on the catalog. *)
Lemma handleCmd_success w w' :
  MIRRARCHIVE.__handleCmd E w = (Ok tt, w') ->
  exists io checksum w1 resDapi ts,
    MIRRARCHIVE.saveInStagingFile E (stagingFilename (req w))
      (default 0 (MIRRARCHIVE.stagingFileSize E (stagingFilename (req w)))) w
      = (Ok (io, checksum), w1) /\
    db w' =
      sqlInsert_ngas_files (MIRRARCHIVE.inserted_row E w resDapi checksum ts)
        (sqlUpdate_ngas_disks (ds_fileSize resDapi) (ds_fileSize resDapi)
           (ds_diskId resDapi) (db w)).
Proof.
  unfold MIRRARCHIVE.__handleCmd. unfold_cmd.
  destruct (allowArchiveReq w); [| discriminate].
  destruct (MIRRARCHIVE.saveInStagingFile E _ _ w) as [[[io checksum]|e|] w1] eqn:Hfetch.
  - destruct (saveInStagingFile_db _ _ _ _ _ Hfetch) as [Hdb _].
    destruct (MIRRARCHIVE.ngamsGeneric E _) as [resDapi|?|]; try discriminate.
    destruct (MIRRARCHIVE.mvFile E _ _) as [t|?|]; try discriminate.
    intros H. inversion H; subst; clear H. simpl.
    exists io, checksum, w1, resDapi. eexists. split; [reflexivity |].
    rewrite Hdb. reflexivity.
  - destruct e; simpl; unfold_cmd;
      repeat match goal with
             | |- context [if ?b then _ else _] => destruct b
             end; discriminate.
  - discriminate.
Qed.

(** A successful [__handleCmd] changes the file count of no volume, and
    adds the size of the file to the stored bytes of its volume. *)
Lemma mirror_commit_counters w w' :
  MIRRARCHIVE.__handleCmd E w = (Ok tt, w') ->
  (forall disk,
     numberOfFiles <$> ngas_disks (db w') !! disk
     = numberOfFiles <$> ngas_disks (db w) !! disk) /\
  exists resDapi,
    bytesStored <$> ngas_disks (db w') !! ds_diskId resDapi
    = (fun d => bytesStored d + ds_fileSize resDapi)
        <$> ngas_disks (db w) !! ds_diskId resDapi.
Proof.
  intros Hok.
  destruct (handleCmd_success _ _ Hok)
    as (io & checksum & w1 & resDapi & ts & _ & Hdb).
  rewrite Hdb. simpl. split.
  - intros disk. destruct (decide (ds_diskId resDapi = disk)) as [<- | Hne].
    + rewrite lookup_alter_eq. destruct (ngas_disks (db w) !! _); reflexivity.
    + rewrite lookup_alter_ne by exact Hne. reflexivity.
  - exists resDapi. rewrite lookup_alter_eq.
    destruct (ngas_disks (db w) !! _); reflexivity.
Qed.

(** C3: when the fetch raises an error that signals a full disk (errno
    28), [__handleCmd] raises [FailedDownloadException], whatever number
    of bytes the fetch has recorded as received; the outcome is never
    [PostponeException]. *)
Theorem out_of_space_is_permanent_failure w e w1 :
  allowArchiveReq w = true ->
  MIRRARCHIVE.saveInStagingFile E (stagingFilename (req w))
    (default 0 (MIRRARCHIVE.stagingFileSize E (stagingFilename (req w)))) w
    = (Raise e, w1) ->
  getattr_errno e = 28 ->
  MIRRARCHIVE.__handleCmd E w = (Raise (FailedDownloadException e), w1).
Proof.
  intros Hallow Hfetch Herrno.
  apply (handleCmd_fetch_raises w e w1); auto using classify_out_of_space.
Qed.

(** A format without any conversion leaves its argument unconverted. *)
Lemma py_mod_without_conversion fmt arg :
  forallb (fun c => negb (Ascii.eqb c "%"%char)) (list_ascii_of_string fmt) = true ->
  py_mod fmt arg
  = Raise (TypeError "not all arguments converted during string formatting").
Proof.
  unfold py_mod. induction fmt as [|c fmt IH]; simpl; intros Hfmt.
  - reflexivity.
  - apply andb_prop in Hfmt. destruct Hfmt as [Hc Hfmt].
    destruct (Ascii.eqb c "%"%char); [discriminate |].
    rewrite (IH Hfmt). reflexivity.
Qed.

(** C8 (the code departs from the claim): [getTargetVolume] never reaches
    the catalog.  Building the text of the query applies [%] to a format
    without conversion and a string argument, which raises [TypeError]
    for every server and every catalog. *)
Theorem getTargetVolume_raises_TypeError w :
  MIRRARCHIVE.getTargetVolume E w =
    (Raise (TypeError "not all arguments converted during string formatting"), w).
Proof.
  unfold MIRRARCHIVE.getTargetVolume, bind, lift.
  rewrite py_mod_without_conversion by reflexivity.
  reflexivity.
Qed.

(** The standalone checksum helper stops at its loop condition. *)
Lemma calculateCrc_opened fuel filename blockSize content :
  MIRRARCHIVE.open_ E filename = Ok content ->
  MIRRARCHIVE.calculateCrc E (S fuel) filename blockSize =
    Raise (TypeError "object of type 'type' has no len()").
Proof.
  intros Hopen. unfold MIRRARCHIVE.calculateCrc, MIRRARCHIVE.calculateCrc_frame.
  unfold_cmd. simpl. rewrite Hopen. simpl. reflexivity.
Qed.

Lemma calculateCrc_not_Ok fuel filename blockSize crc :
  MIRRARCHIVE.calculateCrc E fuel filename blockSize <> Ok crc.
Proof.
  unfold MIRRARCHIVE.calculateCrc, MIRRARCHIVE.calculateCrc_frame.
  unfold_cmd. simpl.
  destruct (MIRRARCHIVE.open_ E filename) as [content|e|]; simpl;
    try discriminate.
  destruct fuel; simpl; discriminate.
Qed.

(** C10: [calculateCrc] returns a checksum for no file name and no block
    size, because its loop condition reads [buffer], a name the function
    never assigns (the read loop assigns [buff]): once the file is open
    the first evaluation of the condition raises.  The checksum that
    [__handleCmd] stores is the one the fetch returned. *)
Theorem calculateCrc_never_returns fuel filename blockSize w w' :
  (forall crc, MIRRARCHIVE.calculateCrc E fuel filename blockSize <> Ok crc) /\
  (forall content,
     MIRRARCHIVE.open_ E filename = Ok content ->
     MIRRARCHIVE.calculateCrc E (S fuel) filename blockSize =
       Raise (TypeError "object of type 'type' has no len()")) /\
  (MIRRARCHIVE.__handleCmd E w = (Ok tt, w') ->
   exists io checksum w1 row,
     MIRRARCHIVE.saveInStagingFile E (stagingFilename (req w))
       (default 0 (MIRRARCHIVE.stagingFileSize E (stagingFilename (req w)))) w
       = (Ok (io, checksum), w1) /\
     ngas_files (db w') = (ngas_files (db w) ++ [row])%list /\
     file_checksum row = pretty checksum).
Proof.
  split; [| split].
  - intros crc. apply calculateCrc_not_Ok.
  - intros content. apply calculateCrc_opened.
  - intros Hok.
    destruct (handleCmd_success _ _ Hok) as (io & checksum & w1 & resDapi & ts & Hfetch & Hdb).
    exists io, checksum, w1, (MIRRARCHIVE.inserted_row E w resDapi checksum ts).
    split; [exact Hfetch |]. rewrite Hdb. split; reflexivity.
Qed.

End MirrorProperties.

Lemma out_of_space_is_permanent_failure_witness :
  MIRRARCHIVE.__handleCmd
    (Demo.mirrarchive (Raise (EnvironmentError_ 28 "No space left on device")) 300)
    Demo.mirror_world
  = (Raise (FailedDownloadException (EnvironmentError_ 28 "No space left on device")),
     with_req (setBytesReceived 300) Demo.mirror_world).
Proof.
  apply (out_of_space_is_permanent_failure
           (Demo.mirrarchive (Raise (EnvironmentError_ 28 "No space left on device")) 300)
           Demo.mirror_world).
  - reflexivity.
  - reflexivity.
  - reflexivity.
Defined.

Lemma calculateCrc_never_returns_witness :
  (forall crc,
     MIRRARCHIVE.calculateCrc (Demo.mirrarchive (Ok (1%float, 77)) 500) 3
       "/mnt/vol1/data/X1" 65536 <> Ok crc) /\
  MIRRARCHIVE.calculateCrc (Demo.mirrarchive (Ok (1%float, 77)) 500) 4
    "/mnt/vol1/data/X1" 65536
  = Raise (TypeError "object of type 'type' has no len()") /\
  exists row,
    ngas_files
      (db (MIRRARCHIVE.__handleCmd (Demo.mirrarchive (Ok (1%float, 77)) 500)
             Demo.mirror_world).2)
    = [row] /\ file_checksum row = "77".
Proof.
  destruct (calculateCrc_never_returns (Demo.mirrarchive (Ok (1%float, 77)) 500) 3
              "/mnt/vol1/data/X1" 65536 Demo.mirror_world
              (MIRRARCHIVE.__handleCmd (Demo.mirrarchive (Ok (1%float, 77)) 500)
                 Demo.mirror_world).2)
    as (Hnever & Hraise & Hstored).
  split; [exact Hnever |].
  split; [apply (Hraise "payload"); reflexivity |].
  destruct Hstored as (io & checksum & w1 & row & Hfetch & Hfiles & Hsum);
    [reflexivity |].
  exists row. split; [exact Hfiles |].
  rewrite Hsum. vm_compute in Hfetch. inversion Hfetch. reflexivity.
Defined.

(** C2 (the code departs from the claim): a generic error of the fetch
    with zero bytes received leaves [__handleCmd] as [PostponeException],
    the resumable outcome, because the test on the bytes received is
    [>= 0]. *)
Theorem generic_error_zero_bytes_is_postponed :
  bytesReceived
    (req (MIRRARCHIVE.__handleCmd
            (Demo.mirrarchive (Raise (Exception_ "Connection reset by peer")) 0)
            Demo.mirror_world).2) = 0 /\
  (MIRRARCHIVE.__handleCmd
     (Demo.mirrarchive (Raise (Exception_ "Connection reset by peer")) 0)
     Demo.mirror_world).1
  = Raise (PostponeException (Exception_ "Connection reset by peer")).
Proof. split; reflexivity. Qed.

(** C9 (the code departs from the claim): a successful mirror archive of
    a 500-byte file adds 500 to the stored bytes of the target volume and
    leaves its file count where it was. *)
Theorem mirror_commit_keeps_file_count :
  let w' := (MIRRARCHIVE.__handleCmd (Demo.mirrarchive (Ok (1%float, 77)) 500)
               Demo.mirror_world).2 in
  (MIRRARCHIVE.__handleCmd (Demo.mirrarchive (Ok (1%float, 77)) 500)
     Demo.mirror_world).1 = Ok tt /\
  numberOfFiles <$> (ngas_disks (db Demo.mirror_world) !! "disk-1") = Some 0 /\
  numberOfFiles <$> (ngas_disks (db w') !! "disk-1") = Some 0 /\
  bytesStored <$> (ngas_disks (db w') !! "disk-1") = Some 500.
Proof. vm_compute. repeat split; reflexivity. Qed.

(** ** The staging writer *)

Section StagingProperties.

Variable E : CARCHIVE.Externals.

(** Parsing and statistics leave the disk semaphores alone. *)
Lemma transfer_locks trg bs w r w' :
  CARCHIVE.transfer E trg bs w = (r, w') ->
  diskMutexSems w' = diskMutexSems w /\ lockLog w' = lockLog w.
Proof.
  unfold CARCHIVE.transfer. unfold_cmd.
  destruct (CARCHIVE.remSize E (req w)) as [rs|?|];
    [| intros H; inversion H; auto ..].
  destruct (CARCHIVE.parse E _ _ _ _) as [pr|?|];
    [| intros H; inversion H; auto ..].
  destruct (py_float (CARCHIVE.bytesRead pr)) as [b|?|];
    [| intros H; inversion H; auto ..].
  destruct (py_float_div b _) as [rate|?|];
    intros H; inversion H; auto.
Qed.

(** The outcome of the transfer, from the answers of the collaborators. *)
Lemma transfer_outcome trg bs w rs pr b :
  CARCHIVE.remSize E (req w) = Ok rs ->
  CARCHIVE.parse E (readFd (req w)) rs bs trg = Ok pr ->
  py_float (CARCHIVE.bytesRead pr) = Ok b ->
  (CARCHIVE.transfer E trg bs w).1 =
    res_map
      (CARCHIVE.mkStagingInfo (CARCHIVE.timer_stop E (clock w))
         (CARCHIVE.rootContainer pr) (CARCHIVE.fileDataList pr))
      (py_float_div b (CARCHIVE.timer_stop E (clock w))).
Proof.
  intros Hrs Hpr Hb. unfold CARCHIVE.transfer. unfold_cmd.
  rewrite Hrs, Hpr. simpl. rewrite Hb.
  destruct (py_float_div b _); reflexivity.
Qed.

Lemma permits_with_sems slot sems ev w :
  permits slot (with_sems sems ev w) = default 1%nat (sems !! slot).
Proof. reflexivity. Qed.

(** The guarded region, entered with a permit at hand. *)
Lemma guarded_region trg bs d w n :
  permits (slotId d) w = S n ->
  let w1 := with_sems (<[slotId d := n]> (diskMutexSems w)) (Acquire (slotId d)) w in
  let body := CARCHIVE.transfer E trg bs w1 in
  try_finally (CARCHIVE.guarded_body E trg bs true (Some d))
    (CARCHIVE.guarded_finally true (Some d)) w
  = match body.1 with
    | Block => (Block, body.2)
    | r =>
        (r, with_sems (<[slotId d := S (permits (slotId d) body.2)]>
                         (diskMutexSems body.2))
              (Release (slotId d)) body.2)
    end.
Proof.
  intros Hp w1 body. subst body.
  unfold try_finally, CARCHIVE.guarded_body, CARCHIVE.guarded_finally.
  unfold bind at 1. unfold getSlotId, bind at 1, ret at 1.
  unfold acquireDiskResource. rewrite Hp. fold w1.
  destruct (CARCHIVE.transfer E trg bs w1) as [[info|e|] w2]; reflexivity.
Qed.

(** C5: with mutual exclusion requested, every exit of the guarded region
    of [saveFromHttpToFile], by a normal return or by an exception,
    happens with the disk resource of the slot released: the only lock
    events of the call are the acquisition followed by the release, and
    the semaphore of the slot holds as many permits as on entry. *)
Theorem saveFromHttpToFile_releases trg bs d w r w' :
  CARCHIVE.checkCreatePath E (dirname trg) = Ok tt ->
  CARCHIVE.saveFromHttpToFile E trg bs true (Some d) w = (r, w') ->
  r <> Block ->
  lockLog w' = (lockLog w ++ [Acquire (slotId d); Release (slotId d)])%list /\
  permits (slotId d) w' = permits (slotId d) w.
Proof.
  intros Hpath Hrun Hexit.
  unfold CARCHIVE.saveFromHttpToFile in Hrun.
  unfold bind at 1, lift at 1 in Hrun. rewrite Hpath in Hrun.
  destruct (permits (slotId d) w) as [|n] eqn:Hp.
  - unfold try_finally, CARCHIVE.guarded_body in Hrun.
    unfold bind at 1, getSlotId, bind at 1, ret at 1, acquireDiskResource in Hrun.
    rewrite Hp in Hrun. inversion Hrun; subst. congruence.
  - rewrite (guarded_region trg bs d w n Hp) in Hrun.
    destruct (CARCHIVE.transfer E trg bs _) as [r2 w2] eqn:Hbody.
    apply transfer_locks in Hbody. destruct Hbody as [Hsems Hlog].
    simpl in Hrun.
    assert (Hw' : w' = with_sems (<[slotId d := S (permits (slotId d) w2)]>
                                    (diskMutexSems w2)) (Release (slotId d)) w2).
    { destruct r2; inversion Hrun; subst; congruence. }
    subst w'. simpl. rewrite Hlog. simpl. split.
    + rewrite <- app_assoc. reflexivity.
    + rewrite permits_with_sems, lookup_insert_eq. simpl.
      unfold permits at 1. rewrite Hsems. simpl.
      rewrite lookup_insert_eq. reflexivity.
Qed.

(** C6, as the code has it: with the parser's answer at hand,
    [saveFromHttpToFile] returns as ingest rate the bytes read divided by
    the elapsed time when the elapsed time is not zero; the division has
    no guard, and an elapsed time of zero ends the call with
    [ZeroDivisionError]. *)
Theorem ingestRate_is_bytes_over_elapsed trg bs mutex d w rs pr b :
  CARCHIVE.checkCreatePath E (dirname trg) = Ok tt ->
  (mutex = true -> (0 < permits (slotId d) w)%nat) ->
  CARCHIVE.remSize E (req w) = Ok rs ->
  CARCHIVE.parse E (readFd (req w)) rs bs trg = Ok pr ->
  py_float (CARCHIVE.bytesRead pr) = Ok b ->
  let elapsed := CARCHIVE.timer_stop E (clock w) in
  let outcome := (CARCHIVE.saveFromHttpToFile E trg bs mutex (Some d) w).1 in
  (PrimFloat.eqb elapsed 0 = false ->
   outcome = Ok (CARCHIVE.mkStagingInfo elapsed (CARCHIVE.rootContainer pr)
                   (CARCHIVE.fileDataList pr) (PrimFloat.div b elapsed))) /\
  (PrimFloat.eqb elapsed 0 = true -> outcome = Raise ZeroDivisionError).
Proof.
  intros Hpath Hperm Hrs Hpr Hb elapsed outcome.
  assert (Hout : outcome =
            res_map (CARCHIVE.mkStagingInfo elapsed (CARCHIVE.rootContainer pr)
                       (CARCHIVE.fileDataList pr)) (py_float_div b elapsed)).
  { subst outcome elapsed. unfold CARCHIVE.saveFromHttpToFile.
    unfold bind at 1, lift at 1. rewrite Hpath.
    destruct mutex.
    - destruct (permits (slotId d) w) as [|n] eqn:Hp;
        [specialize (Hperm eq_refl); lia |].
      rewrite (guarded_region trg bs d w n Hp).
      pose proof (transfer_outcome trg bs
        (with_sems (<[slotId d := n]> (diskMutexSems w)) (Acquire (slotId d)) w)
        rs pr b Hrs Hpr Hb) as Ht.
      simpl in Ht. rewrite Ht.
      destruct (py_float_div b _); reflexivity.
    - pose proof (transfer_outcome trg bs w rs pr b Hrs Hpr Hb) as Ht.
      unfold try_finally, CARCHIVE.guarded_body, CARCHIVE.guarded_finally.
      unfold bind at 1, ret at 1.
      destruct (CARCHIVE.transfer E trg bs w) as [r2 w2]. simpl in Ht. subst r2.
      destruct (py_float_div b _); reflexivity. }
  rewrite Hout. unfold py_float_div.
  split; intros Hz; rewrite Hz; reflexivity.
Qed.

End StagingProperties.

Lemma saveFromHttpToFile_releases_witness :
  let run :=
    CARCHIVE.saveFromHttpToFile
      (Demo.carchive 2%float (Raise (EnvironmentError_ 104 "Connection reset by peer")))
      "/mnt/vol1/staging/uid___bundle.tar" 65536 true (Some Demo.volume1)
      Demo.push_world in
  run.1 = Raise (EnvironmentError_ 104 "Connection reset by peer") /\
  lockLog run.2 = [Acquire "slot-1"; Release "slot-1"] /\
  permits "slot-1" run.2 = permits "slot-1" Demo.push_world.
Proof.
  intros run. split; [reflexivity |].
  apply (saveFromHttpToFile_releases
           (Demo.carchive 2%float (Raise (EnvironmentError_ 104 "Connection reset by peer")))
           "/mnt/vol1/staging/uid___bundle.tar" 65536 Demo.volume1
           Demo.push_world run.1 run.2).
  - reflexivity.
  - apply surjective_pairing.
  - vm_compute. discriminate.
Defined.

Lemma ingestRate_is_bytes_over_elapsed_witness :
  (CARCHIVE.saveFromHttpToFile (Demo.carchive 2%float (Ok Demo.nested_parse))
     "/mnt/vol1/staging/uid___bundle.tar" 65536 true (Some Demo.volume1)
     Demo.push_world).1
  = Ok (CARCHIVE.mkStagingInfo 2%float Demo.containerA
          (CARCHIVE.fileDataList Demo.nested_parse) 150%float).
Proof.
  apply (ingestRate_is_bytes_over_elapsed
           (Demo.carchive 2%float (Ok Demo.nested_parse))
           "/mnt/vol1/staging/uid___bundle.tar" 65536 true Demo.volume1
           Demo.push_world 300 Demo.nested_parse 300%float).
  - reflexivity.
  - intros _. vm_compute. lia.
  - reflexivity.
  - reflexivity.
  - reflexivity.
  - reflexivity.
Defined.

(** C6 as stated fails: with an elapsed time of zero the call does not
    return a rate. *)
Lemma ingestRate_not_zero_guarded :
  CARCHIVE.timer_stop (Demo.carchive 0%float (Ok Demo.nested_parse))
    (clock Demo.push_world) = 0%float /\
  ~ (exists info,
       (CARCHIVE.saveFromHttpToFile (Demo.carchive 0%float (Ok Demo.nested_parse))
          "/mnt/vol1/staging/uid___bundle.tar" 65536 true (Some Demo.volume1)
          Demo.push_world).1 = Ok info).
Proof.
  split; [reflexivity |].
  intros [info H]. vm_compute in H. discriminate.
Qed.

(** ** The container hierarchy *)

(** Induction on container trees. *)
Lemma Container_tree_ind (P : Container -> Prop) :
  (forall name id date cs, Forall P cs -> P (mkContainer name id date cs)) ->
  forall c, P c.
Proof.
  intros Hnode. fix IH 1. intros [name id date cs].
  apply Hnode. induction cs as [|ch rest IHrest]; constructor.
  - apply IH.
  - exact IHrest.
Qed.

Lemma created_refl w : created [] w w.
Proof.
  unfold created. simpl. rewrite Nat.add_0_r, app_nil_r.
  repeat split; try reflexivity. destruct w; reflexivity.
Qed.

Lemma created_app ns1 ns2 w w1 w2 :
  created ns1 w w1 -> created ns2 w1 w2 -> created (ns1 ++ ns2) w w2.
Proof.
  intros (Hid1 & Hn1 & Hl1 & Ht1 & Hd1 & Hc1 & Hf1 & Hw1)
         (Hid2 & Hn2 & Hl2 & Ht2 & Hd2 & Hc2 & Hf2 & Hw2).
  unfold created. rewrite !fmap_app, length_app, seq_app, fmap_app, foldl_app.
  rewrite Hid1, Hid2, Hn1. repeat split.
  - lia.
  - rewrite Hl2, Hl1, app_assoc. reflexivity.
  - rewrite Ht2, Ht1. reflexivity.
  - congruence.
  - congruence.
  - congruence.
  - etransitivity; [exact Hw2 |].
    generalize (clock w2) (db w2). intros k2 d2. rewrite Hw1. reflexivity.
Qed.

Section ContainerProperties.

Variable E : CARCHIVE.Externals.

Lemma each_child_created (par : Container) cs :
  Forall (fun c => forall parent w c' w',
            CARCHIVE.createContainers E c parent w = (c', w') ->
            created (nodes (parent_key parent) c') w w' /\ strip c' = strip c) cs ->
  forall w cs' w',
    CARCHIVE.each_child
      (fun ch => CARCHIVE.createContainers E ch (Some par)) cs w = (cs', w') ->
    created (flat_map (nodes (Some (str_id (containerId par)))) cs') w w' /\
    map strip cs' = map strip cs.
Proof.
  induction 1 as [|ch rest Hch _ IH]; intros w cs' w' Hrun; simpl in Hrun.
  - inversion Hrun; subst. split; [apply created_refl | reflexivity].
  - destruct (CARCHIVE.createContainers E ch (Some par) w) as [ch' w1] eqn:H1.
    destruct (CARCHIVE.each_child _ rest w1) as [rest' w2] eqn:H2.
    inversion Hrun; subst.
    destruct (Hch _ _ _ _ H1) as [Hc1 Hs1].
    destruct (IH _ _ _ H2) as [Hc2 Hs2].
    split.
    + simpl. eapply created_app; eauto.
    + simpl. congruence.
Qed.

(** [createContainers] creates the rows of the tree in pre-order and
    returns the tree with the identities written into it. *)
Lemma createContainers_created c :
  forall parent w c' w',
    CARCHIVE.createContainers E c parent w = (c', w') ->
    created (nodes (parent_key parent) c') w w' /\ strip c' = strip c.
Proof.
  induction c as [name id date cs IH] using Container_tree_ind.
  intros parent w c' w' Hrun. simpl in Hrun.
  destruct (CARCHIVE.each_child _ cs _) as [children w2] eqn:Hch.
  inversion Hrun; subst; clear Hrun.
  apply (each_child_created _ _ IH) in Hch. destruct Hch as [Hcreated Hstrip].
  split.
  - simpl in Hcreated |- *.
    match goal with
    | |- created (?n :: ?rest) _ _ => change (created ([n] ++ rest) w w')
    end.
    eapply created_app; [| exact Hcreated].
    unfold created. simpl. rewrite Nat.add_1_r.
    repeat split; reflexivity.
  - simpl. simpl in Hstrip. rewrite Hstrip. reflexivity.
Qed.

End ContainerProperties.

(** Rows outside the range of the new identities are left alone. *)
Lemma foldl_insert_row_other ns : forall lo m id,
  node_id <$> ns = Some <$> seq lo (length ns) ->
  (id < lo \/ lo + length ns <= id)%nat ->
  foldl insert_row m ns !! id = m !! id.
Proof.
  induction ns as [|n ns IH]; intros lo m id Hids Hid; simpl; [reflexivity |].
  simpl in Hids. inversion Hids as [[Hn Hrest]]. unfold node_id in Hn.
  rewrite (IH (S lo)); [| exact Hrest | simpl in Hid; lia].
  unfold insert_row. rewrite Hn. simpl.
  apply lookup_insert_ne. simpl in Hid. lia.
Qed.

(** The [i]-th container created holds the [i]-th new identity, and its
    row is the one created for it. *)
Lemma foldl_insert_row_lookup ns : forall lo m i n,
  node_id <$> ns = Some <$> seq lo (length ns) ->
  ns !! i = Some n ->
  containerId n.2 = Some (lo + i)%nat /\
  foldl insert_row m ns !! (lo + i)%nat = Some (created_row n).
Proof.
  induction ns as [|n0 ns IH]; intros lo m i n Hids Hi; [discriminate |].
  simpl in Hids. inversion Hids as [[Hn Hrest]]. unfold node_id in Hn.
  destruct i as [|i]; simpl in Hi.
  - inversion Hi; subst n0. rewrite Nat.add_0_r. split; [exact Hn |].
    simpl. rewrite (foldl_insert_row_other ns (S lo)); [| exact Hrest | lia].
    unfold insert_row. rewrite Hn. simpl. apply lookup_insert_eq.
  - replace (lo + S i)%nat with (S lo + i)%nat by lia.
    simpl foldl. apply IH; assumption.
Qed.

Lemma lookup_flat_map_nodes k cs : forall i y,
  flat_map (nodes k) cs !! i = Some y ->
  exists m ch j,
    cs !! m = Some ch /\ nodes k ch !! j = Some y /\
    (forall j' z, nodes k ch !! j' = Some z ->
       flat_map (nodes k) cs !! (i - j + j')%nat = Some z) /\
    (j <= i)%nat.
Proof.
  induction cs as [|c cs IH]; intros i y Hi; [discriminate |].
  simpl in Hi. apply lookup_app_Some in Hi. destruct Hi as [Hl | [Hlen Hr]].
  - exists 0%nat, c, i. split; [reflexivity |]. split; [exact Hl |].
    split; [| lia]. intros j' z Hz. simpl.
    replace (i - i + j')%nat with j' by lia.
    apply lookup_app_l_Some. exact Hz.
  - destruct (IH _ _ Hr) as (m & ch & j & Hm & Hj & Hback & Hle).
    exists (S m), ch, j. split; [exact Hm |]. split; [exact Hj |].
    split; [| lia]. intros j' z Hz. simpl.
    rewrite lookup_app_r by lia.
    replace (i - j + j' - length (nodes k c))%nat
      with (i - length (nodes k c) - j + j')%nat by lia.
    apply Hback. exact Hz.
Qed.

(** In the pre-order of a tree, a container other than the root comes
    after its parent and carries the key of its parent. *)
Lemma nodes_parent c : forall pk i pk' d,
  nodes pk c !! i = Some (pk', d) ->
  (i = 0%nat /\ pk' = pk /\ d = c) \/
  (exists j pkp cp,
     (j < i)%nat /\ nodes pk c !! j = Some (pkp, cp) /\
     d ∈ containers cp /\ pk' = Some (str_id (containerId cp))).
Proof.
  induction c as [name id date cs IH] using Container_tree_ind.
  intros pk i pk' d Hi. destruct i as [|i]; simpl in Hi.
  - inversion Hi; subst. left. auto.
  - right.
    destruct (lookup_flat_map_nodes _ _ _ _ Hi) as (m & ch & j & Hm & Hj & Hback & Hle).
    rewrite Forall_forall in IH.
    assert (Hin : ch ∈ cs) by (eapply list_elem_of_lookup_2; eauto).
    destruct (IH ch Hin _ _ _ _ Hj) as [(-> & -> & ->) | (j0 & pkp & cp & Hlt & Hj0 & Hd & Hpk)].
    + exists 0%nat, pk, (mkContainer name id date cs).
      split; [lia |]. split; [reflexivity |]. split; [exact Hin | reflexivity].
    + exists (S (i - j + j0))%nat, pkp, cp.
      split; [lia |]. split; [| split; assumption].
      simpl. apply Hback. exact Hj0.
Qed.

Section CreateContainers.

Variable E : CARCHIVE.Externals.

(** C4: [createContainers] persists the tree in pre-order.  The rows it
    creates are those of the containers of the tree in pre-order, each
    created with size zero; the [i]-th container created receives the
    [i]-th identity the catalog issues, and its row carries the key of
    its parent, [None] for the root alone; the parent of every other
    container was created, and its identity assigned, strictly before. *)
Theorem createContainers_preorder root w :
  let root' := (CARCHIVE.createContainers E root None w).1 in
  let w' := (CARCHIVE.createContainers E root None w).2 in
  let ns := nodes None root' in
  let lo := next_container_id (db w) in
  strip root' = strip root /\
  db_log (db w') = (db_log (db w) ++ (create_event <$> ns))%list /\
  forall i pk c,
    ns !! i = Some (pk, c) ->
    containerId c = Some (lo + i)%nat /\
    create_event (pk, c) = OpCreateContainer (lo + i) (containerName c) 0 pk /\
    (exists date,
       ngas_containers (db w') !! (lo + i)%nat
       = Some (mkContainerRow (containerName c) 0 date pk)) /\
    ((i = 0%nat /\ pk = None /\ c = root') \/
     (exists j pkp cp,
        (j < i)%nat /\ ns !! j = Some (pkp, cp) /\ c ∈ containers cp /\
        containerId cp = Some (lo + j)%nat /\ pk = Some (KeyId (lo + j)))).
Proof.
  intros root' w' ns lo.
  destruct (createContainers_created E root None w root' w') as [Hcr Hstrip].
  { apply surjective_pairing. }
  destruct Hcr as (Hids & _ & Hlog & Htable & _).
  split; [exact Hstrip |]. split; [exact Hlog |].
  intros i pk c Hi.
  destruct (foldl_insert_row_lookup _ lo (ngas_containers (db w)) i (pk, c) Hids Hi)
    as [Hid Hrow].
  simpl in Hid. split; [exact Hid |].
  split; [unfold create_event; simpl; rewrite Hid; reflexivity |].
  split.
  { eexists. fold ns in Htable. rewrite Htable, Hrow. reflexivity. }
  destruct (nodes_parent root' None i pk c Hi)
    as [(-> & -> & ->) | (j & pkp & cp & Hlt & Hj & Hin & Hpk)].
  - left. auto.
  - right. exists j, pkp, cp.
    destruct (foldl_insert_row_lookup _ lo (ngas_containers (db w)) j (pkp, cp) Hids Hj)
      as [Hidp _].
    simpl in Hidp. rewrite Hpk, Hidp. simpl. auto 6.
Qed.

End CreateContainers.

Lemma createContainers_preorder_witness :
  let run := CARCHIVE.createContainers (Demo.carchive 2%float (Ok Demo.nested_parse))
               Demo.containerA None Demo.push_world in
  db_log (db run.2)
  = [OpCreateContainer 0 "A" 0 None; OpCreateContainer 1 "B" 0 (Some (KeyId 0))] /\
  exists c date,
    nodes None run.1 !! 1%nat = Some (Some (KeyId 0), c) /\
    containerId c = Some 1%nat /\
    ngas_containers (db run.2) !! 1%nat
    = Some (mkContainerRow "B" 0 date (Some (KeyId 0))).
Proof.
  intros run.
  destruct (createContainers_preorder (Demo.carchive 2%float (Ok Demo.nested_parse))
              Demo.containerA Demo.push_world)
    as (_ & Hlog & Hrows).
  split; [exact Hlog |].
  destruct (Hrows 1%nat (Some (KeyId 0))
              (mkContainer "B" (Some 1%nat) (Some 1700000000%float) []) eq_refl)
    as (Hid & _ & [date Hrow] & _).
  eexists _, date. split; [reflexivity |]. split; [exact Hid | exact Hrow].
Defined.

(** ** The commit loop *)

Lemma totals_snoc l kz :
  totals (l ++ [kz]) = CARCHIVE.dict_add kz.1 kz.2 (totals l).
Proof. unfold totals. rewrite foldl_app. reflexivity. Qed.

Lemma sum_for_app k l1 l2 :
  sum_for k (l1 ++ l2) = sum_for k l1 + sum_for k l2.
Proof.
  unfold sum_for. induction l1 as [|kz l1 IH]; simpl; [reflexivity |].
  rewrite IH. destruct (decide (kz.1 = k)); lia.
Qed.

Lemma sum_for_notin k l : k ∉ l.*1 -> sum_for k l = 0.
Proof.
  unfold sum_for. induction l as [|kz l IH]; simpl; intros Hout; [reflexivity |].
  destruct (decide (kz.1 = k)) as [Heq | _].
  - exfalso. apply Hout. rewrite Heq. apply elem_of_cons. auto.
  - apply IH. intros Hin. apply Hout. apply elem_of_cons. auto.
Qed.

(** The running totals hold, for each key met so far, the sum of the
    sizes filed under it, and nothing for any other key. *)
Lemma totals_lookup l k :
  totals l !! k = if decide (k ∈ l.*1) then Some (sum_for k l) else None.
Proof.
  induction l as [|kz l IH] using rev_ind.
  - simpl. destruct (decide (k ∈ [])) as [Hin|]; [inversion Hin | reflexivity].
  - rewrite totals_snoc, sum_for_app, fmap_app. unfold CARCHIVE.dict_add.
    assert (Hlast : sum_for k [kz] = if decide (kz.1 = k) then kz.2 else 0).
    { unfold sum_for. simpl. destruct (decide (kz.1 = k)); lia. }
    rewrite Hlast. clear Hlast.
    simpl. destruct (decide (kz.1 = k)) as [Heq | Hne].
    + subst k. rewrite lookup_insert_eq, IH.
      destruct (decide (kz.1 ∈ l.*1 ++ [kz.1])) as [_ | Hout];
        [| exfalso; apply Hout, elem_of_app; right;
           apply list_elem_of_singleton; reflexivity].
      destruct (decide (kz.1 ∈ l.*1)) as [|Hout0]; simpl; f_equal;
        try rewrite (sum_for_notin _ _ Hout0); lia.
    + rewrite lookup_insert_ne by exact Hne. rewrite IH.
      destruct (decide (k ∈ l.*1)) as [Hin | Hout];
        destruct (decide (k ∈ l.*1 ++ [kz.1])) as [Hin' | Hout'].
      * f_equal. lia.
      * exfalso. apply Hout', elem_of_app. left. exact Hin.
      * exfalso. apply elem_of_app in Hin'. destruct Hin' as [Hin' | Hin'].
        -- apply Hout. exact Hin'.
        -- apply list_elem_of_singleton in Hin'. congruence.
      * reflexivity.
Qed.

Lemma write_sizes_tables l : forall c,
  ngas_disks (write_sizes l c) = ngas_disks c /\
  ngas_files (write_sizes l c) = ngas_files c /\
  ngas_containers_files (write_sizes l c) = ngas_containers_files c /\
  db_log (write_sizes l c)
  = (db_log c ++ ((fun kv => OpSetContainerSize kv.1 kv.2) <$> l))%list.
Proof.
  induction l as [|kv l IH]; intros c; simpl.
  - rewrite app_nil_r. auto.
  - destruct (IH (setContainerSize kv.1 kv.2 c)) as (Hd & Hf & Hc & Hl).
    unfold write_sizes in *. rewrite Hd, Hf, Hc, Hl. simpl.
    rewrite <- app_assoc. auto.
Qed.

Lemma write_sizes_other l : forall c id,
  KeyId id ∉ l.*1 ->
  ngas_containers (write_sizes l c) !! id = ngas_containers c !! id.
Proof.
  induction l as [|kv l IH]; intros c id Hout; simpl; [reflexivity |].
  simpl in Hout. apply not_elem_of_cons in Hout. destruct Hout as [Hne Hout].
  unfold write_sizes in *. rewrite IH by exact Hout.
  destruct kv as [[id'|] z]; simpl in *; [| reflexivity].
  apply lookup_alter_ne. congruence.
Qed.

Lemma write_sizes_lookup l : forall c id z,
  NoDup l.*1 ->
  (KeyId id, z) ∈ l ->
  ngas_containers (write_sizes l c) !! id
  = set_size z <$> ngas_containers c !! id.
Proof.
  induction l as [|kv l IH]; intros c id z Hnd Hin; [inversion Hin |].
  simpl in Hnd. apply NoDup_cons in Hnd. destruct Hnd as [Hfresh Hnd].
  apply elem_of_cons in Hin. destruct Hin as [<- | Hin].
  - simpl. change (foldl _ ?c0 l) with (write_sizes l c0).
    rewrite write_sizes_other by exact Hfresh.
    simpl. apply lookup_alter_eq.
  - simpl. change (foldl _ ?c0 l) with (write_sizes l c0).
    rewrite (IH _ id z Hnd Hin).
    assert (Hne : kv.1 <> KeyId id).
    { intros Heq. apply Hfresh. rewrite Heq.
      apply (list_elem_of_fmap_2 fst) in Hin. exact Hin. }
    destruct kv as [[id'|] z']; simpl in *; [| reflexivity].
    rewrite lookup_alter_ne by congruence. reflexivity.
Qed.

(** After the size statements for the running totals [m], a row holds the
    total of its key when [m] has one, and is unchanged otherwise. *)
Lemma write_sizes_map (m : gmap ContainerKey Z) c id :
  ngas_containers (write_sizes (map_to_list m) c) !! id
  = (fun r => match m !! KeyId id with
              | Some z => set_size z r
              | None => r
              end) <$> ngas_containers c !! id.
Proof.
  destruct (m !! KeyId id) as [z|] eqn:Hm.
  - apply write_sizes_lookup.
    + apply NoDup_fst_map_to_list.
    + apply elem_of_map_to_list. exact Hm.
  - rewrite write_sizes_other.
    + destruct (ngas_containers c !! id); reflexivity.
    + intros Hin. apply list_elem_of_fmap in Hin.
      destruct Hin as ([k z] & Hk & Hin). simpl in Hk. subst k.
      apply elem_of_map_to_list in Hin. congruence.
Qed.

Lemma for_each_setContainerSize l : forall w,
  for_each (fun (_ : unit) (kv : ContainerKey * Z) =>
              modify (with_db (setContainerSize kv.1 kv.2))) tt l w
  = (Ok tt, with_db (write_sizes l) w).
Proof.
  induction l as [|kv l IH]; intros w; simpl.
  - unfold ret. f_equal. destruct w; reflexivity.
  - unfold bind, modify. rewrite IH. reflexivity.
Qed.

Section CommitLoop.

Variable E : CARCHIVE.Externals.

(** What one successful turn of the commit loop does to the running
    totals, to the results and to the catalog. *)
Lemma commit_file_Ok root disk dateDir sizes dapis item w sizes' dapis' w' :
  CARCHIVE.commit_file E root disk dateDir (sizes, dapis) item w
  = (Ok (sizes', dapis'), w') ->
  exists z row d,
    CARCHIVE.getFileSize E item.1.2 = Ok z /\
    sizes' = CARCHIVE.dict_add (item_key root item) z sizes /\
    dapis' = dapis ++ [d] /\
    ds_fileSize d = z /\ ds_diskId d = diskId disk /\
    file_id row = basename item.1.2 /\ uncompressed_file_size row = z /\
    db w' =
      db_updateDiskInfo z (diskId disk)
        (write_sizes (map_to_list sizes')
           (addFileToContainer (item_key root item) (basename item.1.2)
              (writeFileInfo row (db w)))).
Proof.
  destruct item as [[ref path] crc].
  unfold CARCHIVE.commit_file. unfold_cmd. simpl.
  destruct (CARCHIVE.genFileInfo E _ _ _ _ _ _)
    as [[[[[ver relPath] relFilename] complFilename] fileExists]|?|];
    try discriminate.
  destruct (CARCHIVE.checkForDblExt E _ _) as [complFilename' relFilename'].
  destruct (CARCHIVE.getFileSize E path) as [z|?|]; try discriminate.
  destruct (CARCHIVE.mvFile E _ _) as [t|?|]; try discriminate.
  destruct (CARCHIVE.uri_file_version E _ _) as [fv|?|]; try discriminate.
  rewrite for_each_setContainerSize.
  destruct (cachingActive _); intros H; inversion H; subst; clear H;
    do 3 eexists; repeat split; reflexivity.
Qed.

(** The catalog after the statements of one turn. *)
Lemma turn_catalog z disk sizes key fid row c :
  let c' := db_updateDiskInfo z disk
              (write_sizes (map_to_list sizes)
                 (addFileToContainer key fid (writeFileInfo row c))) in
  db_log c' =
    db_log c
      ++ [OpWriteFileInfo (file_id row) (file_version row);
          OpAddFileToContainer key fid]
      ++ size_events sizes ++ [OpUpdateDiskInfo z disk] /\
  (forall id,
     ngas_containers c' !! id = with_total sizes id <$> ngas_containers c !! id) /\
  ngas_disks c' = alter (add_file_counters z 1) disk (ngas_disks c) /\
  ngas_files c' = ngas_files c ++ [row] /\
  ngas_containers_files c' = ngas_containers_files c ++ [(key, fid)].
Proof.
  intros c'. subst c'.
  destruct (write_sizes_tables (map_to_list sizes)
              (addFileToContainer key fid (writeFileInfo row c)))
    as (Hd & Hf & Hc & Hl).
  simpl. rewrite Hd, Hf, Hc, Hl. simpl.
  repeat split.
  - unfold size_events. rewrite <- !app_assoc. reflexivity.
  - intros id. rewrite write_sizes_map. reflexivity.
Qed.

Lemma with_total_dict_add sizes key z id r :
  with_total (CARCHIVE.dict_add key z sizes) id (with_total sizes id r)
  = with_total (CARCHIVE.dict_add key z sizes) id r.
Proof.
  unfold with_total, CARCHIVE.dict_add.
  destruct (sizes !! KeyId id) as [z0|] eqn:Hs; [| reflexivity].
  destruct (decide (key = KeyId id)) as [-> | Hne].
  - rewrite lookup_insert_eq. reflexivity.
  - rewrite lookup_insert_ne by exact Hne. rewrite Hs. reflexivity.
Qed.

Lemma add_file_counters_twice b1 n1 b2 n2 d :
  add_file_counters b2 n2 (add_file_counters b1 n1 d)
  = add_file_counters (b1 + b2) (n1 + n2) d.
Proof.
  destruct d. unfold add_file_counters, set_disk_counters. simpl.
  f_equal; lia.
Qed.

Lemma add_file_counters_none d : add_file_counters 0 0 d = d.
Proof.
  destruct d. unfold add_file_counters, set_disk_counters. simpl.
  f_equal; lia.
Qed.

(** The commit loop, from any turn on: the running totals, the rows of
    the containers, the statements sent, the counters of the volume, the
    file records and the memberships. *)
Lemma commit_loop root disk dateDir rest :
  forall done sizes dapis w st' w' c0,
    sizes = totals (keyed E root <$> done) ->
    (forall id,
       ngas_containers (db w) !! id
       = with_total sizes id <$> ngas_containers c0 !! id) ->
    for_each (CARCHIVE.commit_file E root disk dateDir) (sizes, dapis) rest w
    = (Ok st', w') ->
    st'.1 = totals (keyed E root <$> (done ++ rest)) /\
    (forall id,
       ngas_containers (db w') !! id
       = with_total st'.1 id <$> ngas_containers c0 !! id) /\
    (exists versions,
       length versions = length rest /\
       db_log (db w')
       = db_log (db w)
           ++ commit_trace (diskId disk) sizes
                (zip_with (filed E root) rest versions)) /\
    ngas_disks (db w')
    = alter (add_file_counters (total_size E rest) (Z.of_nat (length rest)))
        (diskId disk) (ngas_disks (db w)) /\
    (exists rows,
       ngas_files (db w') = ngas_files (db w) ++ rows /\
       uncompressed_file_size <$> rows = usize E <$> rest) /\
    ngas_containers_files (db w')
    = ngas_containers_files (db w)
        ++ ((fun it => (item_key root it, basename it.1.2)) <$> rest).
Proof.
  induction rest as [|item rest IH];
    intros done sizes dapis w st' w' c0 Hsizes Hrows Hrun.
  - simpl in Hrun. inversion Hrun; subst; clear Hrun. simpl.
    rewrite (app_nil_r done).
    split; [reflexivity |]. split; [exact Hrows |].
    split; [exists []; rewrite app_nil_r; auto |].
    split; [symmetry; apply alter_id; intros d _; apply add_file_counters_none |].
    split; [exists []; rewrite app_nil_r; auto |].
    rewrite app_nil_r. reflexivity.
  - simpl in Hrun. apply bind_inv_Ok in Hrun.
    destruct Hrun as ([sizes1 dapis1] & w1 & Hturn & Hrest).
    apply commit_file_Ok in Hturn.
    destruct Hturn as (z & row & d & Hz & Hs1 & _ & _ & _ & Hfid & Husz & Hdb).
    assert (Hu : usize E item = z) by (unfold usize; rewrite Hz; reflexivity).
    destruct (turn_catalog z (diskId disk) sizes1 (item_key root item)
                (basename item.1.2) row (db w))
      as (Hlog1 & Hrows1 & Hdisks1 & Hfiles1 & Hmem1).
    rewrite <- Hdb in Hlog1, Hrows1, Hdisks1, Hfiles1, Hmem1.
    assert (Hsizes1 : sizes1 = totals (keyed E root <$> (done ++ [item]))).
    { rewrite fmap_app, fmap_cons, fmap_nil, totals_snoc, <- Hsizes.
      unfold keyed. simpl. rewrite Hu. exact Hs1. }
    assert (Hinv1 : forall id,
              ngas_containers (db w1) !! id
              = with_total sizes1 id <$> ngas_containers c0 !! id).
    { intros id. rewrite Hrows1, Hrows.
      destruct (ngas_containers c0 !! id) as [r|]; [| reflexivity].
      simpl. rewrite Hs1, with_total_dict_add. reflexivity. }
    destruct (IH _ _ _ _ _ _ c0 Hsizes1 Hinv1 Hrest)
      as (Ht & Hr & (versions & Hlen & Hlog) & Hdisks & (rows & Hfiles & Hsz) & Hmem).
    rewrite <- app_assoc in Ht. simpl in Ht.
    split; [exact Ht |]. split; [exact Hr |]. split; [| split; [| split]].
    + exists (file_version row :: versions). split; [simpl; lia |].
      rewrite Hlog, Hlog1. simpl. unfold filed at 1. simpl.
      rewrite Hu, <- Hs1, Hfid. rewrite <- app_assoc. f_equal. simpl.
      do 2 f_equal. rewrite <- app_assoc. reflexivity.
    + rewrite Hdisks, Hdisks1. rewrite alter_alter_eq. apply alter_ext.
      intros d0 _. simpl. rewrite add_file_counters_twice.
      rewrite Hu. f_equal. lia.
    + exists (row :: rows). rewrite Hfiles, Hfiles1, <- app_assoc.
      split; [reflexivity |]. rewrite !fmap_cons, Hsz, Husz, Hu. reflexivity.
    + rewrite Hmem, Hmem1, <- app_assoc. reflexivity.
Qed.

End CommitLoop.

(** ** Commands that do not write the catalog *)

Lemma keeps_db_bind {A B} (m : M World A) (k : A -> M World B) :
  keeps_db m -> (forall a, keeps_db (k a)) -> keeps_db (bind m k).
Proof.
  intros Hm Hk w r w'. unfold bind.
  destruct (m w) as [[a|e|] w1] eqn:H1; intros H.
  - rewrite (Hk a _ _ _ H). eapply Hm; eauto.
  - inversion H; subst. eapply Hm; eauto.
  - inversion H; subst. eapply Hm; eauto.
Qed.

Lemma keeps_db_ret {A} (a : A) : keeps_db (ret a).
Proof. intros w r w' H. inversion H; reflexivity. Qed.

Lemma keeps_db_raise {A} e : keeps_db (@raise World A e).
Proof. intros w r w' H. inversion H; reflexivity. Qed.

Lemma keeps_db_lift {A} (x : Res A) : keeps_db (lift x).
Proof. intros w r w' H. inversion H; reflexivity. Qed.

Lemma keeps_db_gets {A} (f : World -> A) : keeps_db (gets f).
Proof. intros w r w' H. inversion H; reflexivity. Qed.

Lemma keeps_db_read_clock {A} (f : nat -> A) : keeps_db (read_clock f).
Proof. intros w r w' H. inversion H; reflexivity. Qed.

Lemma keeps_db_modify (f : World -> World) :
  (forall w, db (f w) = db w) -> keeps_db (modify f).
Proof. intros Hf w r w' H. inversion H; subst. apply Hf. Qed.

Lemma keeps_db_if {A} (b : bool) (m1 m2 : M World A) :
  keeps_db m1 -> keeps_db m2 -> keeps_db (if b then m1 else m2).
Proof. destruct b; auto. Qed.

Lemma keeps_db_try_finally {A} (body : M World A) fin :
  keeps_db body -> keeps_db fin -> keeps_db (try_finally body fin).
Proof.
  intros Hb Hf w r w'. unfold try_finally.
  destruct (body w) as [[a|e|] w1] eqn:H1.
  - destruct (fin w1) as [[u|e|] w2] eqn:H2; intros H; inversion H; subst;
      rewrite (Hf _ _ _ H2); eapply Hb; eauto.
  - destruct (fin w1) as [[u|e'|] w2] eqn:H2; intros H; inversion H; subst;
      rewrite (Hf _ _ _ H2); eapply Hb; eauto.
  - intros H; inversion H; subst. eapply Hb; eauto.
Qed.

Lemma keeps_db_try_except {A} (body : M World A) handler :
  keeps_db body -> (forall e, keeps_db (handler e)) ->
  keeps_db (try_except body handler).
Proof.
  intros Hb Hh w r w'. unfold try_except.
  destruct (body w) as [[a|e|] w1] eqn:H1; intros H.
  - inversion H; subst. eapply Hb; eauto.
  - rewrite (Hh e _ _ _ H). eapply Hb; eauto.
  - inversion H; subst. eapply Hb; eauto.
Qed.

Lemma keeps_db_for_each {A B} (body : B -> A -> M World B) l :
  (forall b a, keeps_db (body b a)) -> forall b, keeps_db (for_each body b l).
Proof.
  intros Hbody. induction l as [|x l IH]; intros b; simpl.
  - apply keeps_db_ret.
  - apply keeps_db_bind; auto.
Qed.

Lemma keeps_db_acquire slot : keeps_db (acquireDiskResource slot).
Proof.
  intros w r w'. unfold acquireDiskResource.
  destruct (permits slot w); intros H; inversion H; reflexivity.
Qed.

Lemma keeps_db_release slot : keeps_db (releaseDiskResource slot).
Proof. intros w r w' H. inversion H; reflexivity. Qed.

Lemma keeps_db_getSlotId d : keeps_db (getSlotId d).
Proof. destruct d; [apply keeps_db_ret | apply keeps_db_raise]. Qed.

Lemma keeps_db_checkSetState a s1 s2 n1 n2 : keeps_db (checkSetState a s1 s2 n1 n2).
Proof.
  intros w r w'. unfold checkSetState.
  destruct (_ && _); intros H; inversion H; reflexivity.
Qed.

Create HintDb keeps_db.
#[export] Hint Resolve keeps_db_ret keeps_db_raise keeps_db_lift keeps_db_gets
  keeps_db_read_clock keeps_db_acquire keeps_db_release keeps_db_getSlotId
  keeps_db_checkSetState : keeps_db.

Ltac keeps_db :=
  repeat first
    [ apply keeps_db_bind; [| intros ?]
    | apply keeps_db_if
    | apply keeps_db_try_finally
    | apply keeps_db_try_except; [| intros ?]
    | apply keeps_db_for_each; intros ? ?
    | apply keeps_db_modify; intros ?; reflexivity
    | solve [auto with keeps_db] ].

(** ** References into a persisted tree *)

Lemma elem_of_flat_map_lookup {A B} (f : A -> list B) l i x b :
  l !! i = Some x -> b ∈ f x -> b ∈ flat_map f l.
Proof.
  revert i. induction l as [|y l IH]; intros i Hi Hb; [discriminate |].
  simpl. apply elem_of_app. destruct i as [|i]; simpl in Hi.
  - inversion Hi; subst. left. exact Hb.
  - right. eapply IH; eauto.
Qed.

Lemma NoDup_flat_map_lookup {A B} (f : A -> list B) l i x :
  NoDup (flat_map f l) -> l !! i = Some x -> NoDup (f x).
Proof.
  revert i. induction l as [|y l IH]; intros i Hnd Hi; [discriminate |].
  simpl in Hnd. apply NoDup_app in Hnd. destruct Hnd as (Hy & _ & Hl).
  destruct i as [|i]; simpl in Hi.
  - inversion Hi; subst. exact Hy.
  - eapply IH; eauto.
Qed.

Lemma NoDup_flat_map_disjoint {A B} (f : A -> list B) l i j x y b :
  NoDup (flat_map f l) -> l !! i = Some x -> l !! j = Some y -> i <> j ->
  b ∈ f x -> b ∈ f y -> False.
Proof.
  revert i j. induction l as [|z l IH]; intros i j Hnd Hi Hj Hne Hx Hy;
    [discriminate |].
  simpl in Hnd. apply NoDup_app in Hnd. destruct Hnd as (_ & Hsep & Hl).
  destruct i as [|i], j as [|j]; simpl in Hi, Hj.
  - congruence.
  - inversion Hi; subst. apply (Hsep b Hx). eapply elem_of_flat_map_lookup; eauto.
  - inversion Hj; subst. apply (Hsep b Hy). eapply elem_of_flat_map_lookup; eauto.
  - eapply (IH i j); eauto.
Qed.

Lemma fmap_flat_map_nodes k cs :
  node_id <$> flat_map (nodes k) cs
  = flat_map (fun ch => node_id <$> nodes k ch) cs.
Proof.
  induction cs as [|c cs IH]; simpl; [reflexivity |].
  rewrite fmap_app, IH. reflexivity.
Qed.

(** A container reached through a reference is a container of the tree. *)
Lemma deref_in_nodes p : forall c pk d,
  deref c p = Some d -> exists pk', (pk', d) ∈ nodes pk c.
Proof.
  induction p as [|i p IH]; intros [name id date cs] pk d Hd; simpl in Hd.
  - inversion Hd; subst. exists pk. simpl. apply elem_of_cons. auto.
  - destruct (cs !! i) as [ch|] eqn:Hch; [| discriminate].
    destruct (IH ch (Some (str_id id)) d Hd) as [pk' Hin].
    exists pk'. simpl. apply elem_of_cons. right.
    eapply elem_of_flat_map_lookup; eauto.
Qed.

Lemma deref_id_in_nodes p c pk d :
  deref c p = Some d -> containerId d ∈ node_id <$> nodes pk c.
Proof.
  intros Hd. destruct (deref_in_nodes p c pk d Hd) as [pk' Hin].
  apply (list_elem_of_fmap_2 node_id) in Hin. exact Hin.
Qed.

(** In a tree whose identities are pairwise distinct, two references that
    reach the same identity are the same reference. *)
Lemma deref_injective p : forall c pk q d1 d2,
  NoDup (node_id <$> nodes pk c) ->
  deref c p = Some d1 -> deref c q = Some d2 ->
  containerId d1 = containerId d2 -> p = q.
Proof.
  induction p as [|i p IH]; intros [name id date cs] pk q d1 d2 Hnd H1 H2 Hid;
    change (nodes pk (mkContainer name id date cs))
      with ((pk, mkContainer name id date cs)
              :: flat_map (nodes (Some (str_id id))) cs) in Hnd;
    rewrite fmap_cons in Hnd; apply NoDup_cons in Hnd;
    destruct Hnd as [Hroot Hnd]; rewrite fmap_flat_map_nodes in Hroot, Hnd;
    simpl in H1.
  - inversion H1; subst d1. destruct q as [|j q]; [reflexivity |].
    exfalso. simpl in H2.
    destruct (cs !! j) as [cj|] eqn:Hj; [| discriminate].
    apply Hroot. simpl in Hid. unfold node_id at 1. simpl. rewrite Hid.
    eapply elem_of_flat_map_lookup; [exact Hj |].
    eapply deref_id_in_nodes; eauto.
  - destruct (cs !! i) as [ci|] eqn:Hi; [| discriminate].
    destruct q as [|j q]; simpl in H2.
    + exfalso. inversion H2; subst d2.
      apply Hroot. simpl in Hid. unfold node_id at 1. simpl. rewrite <- Hid.
      eapply elem_of_flat_map_lookup; [exact Hi |].
      eapply deref_id_in_nodes; eauto.
    + destruct (cs !! j) as [cj|] eqn:Hj; [| discriminate].
      destruct (decide (i = j)) as [-> | Hne].
      * f_equal. rewrite Hi in Hj. inversion Hj; subst cj.
        eapply (IH ci (Some (str_id id))); eauto.
        eapply (NoDup_flat_map_lookup (fun ch => node_id <$> nodes (Some (str_id id)) ch));
          eauto.
      * exfalso.
        eapply (NoDup_flat_map_disjoint
                  (fun ch => node_id <$> nodes (Some (str_id id)) ch) cs i j);
          eauto.
        -- eapply deref_id_in_nodes; eauto.
        -- rewrite Hid. eapply deref_id_in_nodes; eauto.
Qed.

Section HandleCmd.

Variable E : CARCHIVE.Externals.

Lemma keeps_db_saveInStagingFile stg d : keeps_db (CARCHIVE.saveInStagingFile E stg d).
Proof.
  unfold CARCHIVE.saveInStagingFile, CARCHIVE.saveFromHttpToFile,
    CARCHIVE.guarded_body, CARCHIVE.guarded_finally, CARCHIVE.transfer.
  keeps_db.
Qed.

(** A successful staging hands over what the parser reported. *)
Lemma transfer_Ok trg bs w info w' :
  CARCHIVE.transfer E trg bs w = (Ok info, w') ->
  exists rs pr,
    CARCHIVE.parse E (readFd (req w)) rs bs trg = Ok pr /\
    CARCHIVE.st_rootContainer info = CARCHIVE.rootContainer pr /\
    CARCHIVE.st_fileDataList info = CARCHIVE.fileDataList pr.
Proof.
  unfold CARCHIVE.transfer. unfold_cmd.
  destruct (CARCHIVE.remSize E (req w)) as [rs|?|]; try discriminate.
  destruct (CARCHIVE.parse E _ _ _ _) as [pr|?|] eqn:Hpr; try discriminate.
  destruct (py_float _) as [b|?|]; try discriminate.
  destruct (py_float_div _ _) as [rate|?|]; try discriminate.
  intros H. inversion H; subst. exists rs, pr. auto.
Qed.

Lemma saveInStagingFile_Ok stg d w info w' :
  CARCHIVE.saveInStagingFile E stg d w = (Ok info, w') ->
  exists fd rs bs pr,
    CARCHIVE.parse E fd rs bs stg = Ok pr /\
    CARCHIVE.st_rootContainer info = CARCHIVE.rootContainer pr /\
    CARCHIVE.st_fileDataList info = CARCHIVE.fileDataList pr.
Proof.
  unfold CARCHIVE.saveInStagingFile, try_except.
  destruct (bind _ _ w) as [[info0|e|] w1] eqn:Hbody; try discriminate.
  intros H. inversion H; subst; clear H.
  apply bind_inv_Ok in Hbody. destruct Hbody as (bs & w2 & _ & Hsave).
  unfold CARCHIVE.saveFromHttpToFile in Hsave.
  apply bind_inv_Ok in Hsave. destruct Hsave as (_ & w3 & _ & Hsave).
  unfold try_finally in Hsave.
  destruct (CARCHIVE.guarded_body E stg bs true (Some d) w3)
    as [[info1|e|] w4] eqn:Hg; try discriminate.
  assert (info1 = info).
  { destruct (CARCHIVE.guarded_finally true (Some d) w4) as [[?|?|] ?];
      inversion Hsave; reflexivity. }
  subst info1. unfold CARCHIVE.guarded_body in Hg.
  apply bind_inv_Ok in Hg. destruct Hg as (_ & w5 & _ & Ht).
  apply transfer_Ok in Ht. destruct Ht as (rs & pr & Hpr & Hroot & Hfiles).
  exists (readFd (req w5)), rs, bs, pr. auto.
Qed.

Ltac bind_inv H :=
  let a := fresh "a" in
  let w := fresh "w" in
  let Hs := fresh "Hstep" in
  apply bind_inv_Ok in H; destruct H as (a & w & Hs & H).

Ltac db_kept H :=
  match type of H with
  | ?m ?w = (_, ?w') =>
      let K := fresh "Hdb" in
      assert (K : db w' = db w)
        by (apply (fun (P : keeps_db m) => P _ _ _ H); keeps_db)
  end.

(** The phases of a successful [handleCmd]: staging, creation of the
    containers, the commit loop, and the completion check. *)
Lemma handleCmd_Ok w root dapis w' :
  CARCHIVE.handleCmd E w = (Ok (root, dapis), w') ->
  exists targ stg info w3 w4 w4' dateDir st w5,
    db w3 = db w /\
    (exists w2, CARCHIVE.saveInStagingFile E stg targ w2 = (Ok info, w3)) /\
    CARCHIVE.createContainers E (CARCHIVE.st_rootContainer info) None
      (with_req (incIoTime (CARCHIVE.st_deltaTime info)) w3) = (root, w4) /\
    db w4' = db w4 /\
    for_each (CARCHIVE.commit_file E root targ dateDir) (∅, [])
      (CARCHIVE.st_fileDataList info) w4' = (Ok st, w5) /\
    dapis = st.2 /\
    (db w' = db w5 \/
     exists date, db w' = writeDiskInfo (CARCHIVE.setCompleted date targ) (db w5)).
Proof.
  unfold CARCHIVE.handleCmd. intros H.
  bind_inv H. db_kept Hstep.
  bind_inv H. db_kept Hstep0.
  bind_inv H. db_kept Hstep1.
  bind_inv H. db_kept Hstep2.
  bind_inv H. db_kept Hstep3.
  bind_inv H. db_kept Hstep4.
  bind_inv H. db_kept Hstep5.
  destruct a5 as [targ|]; [| discriminate].
  bind_inv H. db_kept Hstep6.
  bind_inv H. db_kept Hstep7.
  bind_inv H. db_kept Hstep8.
  bind_inv H. db_kept Hstep9.
  bind_inv H. pose proof (keeps_db_saveInStagingFile _ _ _ _ _ Hstep10) as Hdb10.
  bind_inv H. db_kept Hstep11.
  bind_inv H.
  bind_inv H. db_kept Hstep13.
  bind_inv H. db_kept Hstep14.
  bind_inv H.
  bind_inv H. db_kept Hstep16.
  bind_inv H.
  bind_inv H. db_kept Hstep18.
  bind_inv H. db_kept Hstep19.
  bind_inv H. db_kept Hstep20.
  inversion H; subst; clear H.
  inversion Hstep11; subst; clear Hstep11.
  destruct (CARCHIVE.createContainers E _ None _) as [c wc] eqn:Hcreate.
  inversion Hstep12; subst; clear Hstep12.
  eexists targ, _, a9, w11, w13, w15, a13, a14, w16.
  split; [congruence |].
  split; [eexists; exact Hstep10 |].
  split; [exact Hcreate |].
  split; [congruence |].
  split; [exact Hstep15 |].
  split; [reflexivity |].
  rewrite Hdb17, Hdb16, Hdb15.
  destruct (_ <? _)%Z.
  - right. apply bind_inv_Ok in Hstep17.
    destruct Hstep17 as (date & wd & Hclock & Hwrite).
    db_kept Hclock. inversion Hwrite; subst.
    exists date. simpl. apply f_equal. congruence.
  - left. inversion Hstep17; subst. congruence.
Qed.

Lemma with_total_empty id r : with_total ∅ id r = r.
Proof. unfold with_total. rewrite lookup_empty. reflexivity. Qed.

(** The size of a freshly created row after the size statements for the
    running totals of [l]. *)
Lemma size_with_totals l id n :
  container_size (with_total (totals l) id (created_row n)) = sum_for (KeyId id) l.
Proof.
  unfold with_total. rewrite totals_lookup.
  destruct (decide (KeyId id ∈ l.*1)) as [Hin | Hout]; simpl.
  - reflexivity.
  - symmetry. apply sum_for_notin. exact Hout.
Qed.

(** Under a key that belongs to the container [p] alone, the sizes filed
    are those of the files attached to [p]. *)
Lemma sum_for_direct root p k items :
  (forall it, item_key root it = k <-> it.1.1 = p) ->
  sum_for k (keyed E root <$> items) = direct_size E p items.
Proof.
  intros Hkey. unfold sum_for, direct_size.
  induction items as [|it items IH]; [reflexivity |].
  rewrite fmap_cons. simpl. rewrite IH.
  destruct (decide (item_key root it = k)) as [Hk | Hk];
    destruct (decide (it.1.1 = p)) as [Hp | Hp]; try reflexivity.
  - exfalso. apply Hp, Hkey, Hk.
  - exfalso. apply Hk, Hkey, Hp.
Qed.

(** C1, as the code has it: after a successful [handleCmd], the size
    persisted for a container of the request is the sum of the sizes of
    the files attached to that very container; the files of the
    containers below it are not counted.  The sizes summed are the
    uncompressed sizes of the file records of the request, and each file
    is recorded as a member of the container it is attached to. *)
Theorem container_size_is_sum_of_direct_members w root dapis w' :
  CARCHIVE.handleCmd E w = (Ok (root, dapis), w') ->
  exists fd rs bs stg pr,
    CARCHIVE.parse E fd rs bs stg = Ok pr /\
    strip root = strip (CARCHIVE.rootContainer pr) /\
    (exists rows,
       ngas_files (db w') = ngas_files (db w) ++ rows /\
       uncompressed_file_size <$> rows = usize E <$> CARCHIVE.fileDataList pr) /\
    ngas_containers_files (db w')
    = ngas_containers_files (db w)
        ++ ((fun it => (item_key root it, basename it.1.2))
              <$> CARCHIVE.fileDataList pr) /\
    forall p c,
      deref root p = Some c ->
      exists id row,
        containerId c = Some id /\
        ngas_containers (db w') !! id = Some row /\
        container_size row = direct_size E p (CARCHIVE.fileDataList pr).
Proof.
  intros Hrun.
  destruct (handleCmd_Ok _ _ _ _ Hrun)
    as (targ & stg & info & w3 & w4 & w4' & dateDir & st & w5
        & Hdb3 & [w2 Hstage] & Hcreate & Hdb4 & Hloop & _ & Hfinal).
  destruct (saveInStagingFile_Ok _ _ _ _ _ Hstage)
    as (fd & rs & bs & pr & Hparse & Hroot & Hitems).
  exists fd, rs, bs, stg, pr. split; [exact Hparse |].
  destruct (createContainers_created E _ _ _ _ _ Hcreate) as [Hcr Hstrip].
  split; [rewrite <- Hroot; exact Hstrip |].
  destruct Hcr as (Hids & _ & _ & Htable & _ & Hmem4 & Hfiles4 & _).
  simpl in Hids, Htable, Hmem4, Hfiles4.
  destruct (commit_loop E root targ dateDir (CARCHIVE.st_fileDataList info)
              [] ∅ [] w4' st w5 (db w4) eq_refl)
    as (Htot & Hrows & _ & _ & (rows & Hfiles5 & Hsz) & Hmem5).
  { intros id. rewrite Hdb4.
    destruct (ngas_containers (db w4) !! id); simpl;
      [rewrite with_total_empty |]; reflexivity. }
  { exact Hloop. }
  simpl in Htot. rewrite Hitems in Htot, Hsz, Hmem5.
  assert (Hcont : ngas_containers (db w') = ngas_containers (db w5) /\
                  ngas_files (db w') = ngas_files (db w5) /\
                  ngas_containers_files (db w') = ngas_containers_files (db w5)).
  { destruct Hfinal as [-> | [date ->]]; auto. }
  destruct Hcont as (Hcont & Hfiles & Hmem).
  split.
  { exists rows. rewrite Hfiles, Hfiles5, Hdb4, Hfiles4, Hdb3. auto. }
  split.
  { rewrite Hmem, Hmem5, Hdb4, Hmem4, Hdb3. reflexivity. }
  assert (Hnd : NoDup (node_id <$> nodes None root)).
  { rewrite Hids. apply (NoDup_fmap_2 Some). apply NoDup_seq. }
  intros p c Hp.
  destruct (deref_in_nodes p root None c Hp) as [pk Hin].
  apply list_elem_of_lookup_1 in Hin. destruct Hin as [i Hi].
  destruct (foldl_insert_row_lookup _ _ (ngas_containers (db w3)) i (pk, c) Hids Hi)
    as [Hid Hrow].
  simpl in Hid. rewrite <- Htable in Hrow.
  eexists _, _. split; [exact Hid |]. split.
  - rewrite Hcont, Hrows, Hrow. reflexivity.
  - rewrite Htot, size_with_totals. apply sum_for_direct.
    intros it. unfold item_key, getContainerId. split.
    + intros Hk. destruct (deref root it.1.1) as [c2|] eqn:H2; [| discriminate].
      destruct (containerId c2) as [id2|] eqn:Hid2; [| discriminate].
      simpl in Hk. inversion Hk; subst id2.
      symmetry. eapply (deref_injective p root None); eauto. congruence.
    + intros ->. rewrite Hp, Hid. reflexivity.
Qed.

Lemma size_writes_app k l1 l2 :
  size_writes k (l1 ++ l2) = (size_writes k l1 + size_writes k l2)%nat.
Proof. unfold size_writes. rewrite List.filter_app, length_app. reflexivity. Qed.

(** Among size statements with pairwise distinct keys, a key is written
    once if it occurs and not at all otherwise. *)
Lemma size_writes_NoDup k (l : list (ContainerKey * Z)) :
  NoDup l.*1 ->
  size_writes k ((fun kv => OpSetContainerSize kv.1 kv.2) <$> l)
  = if decide (k ∈ l.*1) then 1%nat else 0%nat.
Proof.
  induction l as [|[k0 z] l IH]; intros Hnd.
  - destruct (decide (k ∈ [])) as [Hin|]; [inversion Hin | reflexivity].
  - rewrite fmap_cons in Hnd. apply NoDup_cons in Hnd. destruct Hnd as [Hfresh Hnd].
    rewrite !fmap_cons. change (?x :: ?l0) with ([x] ++ l0) at 1.
    rewrite size_writes_app, (IH Hnd). unfold size_writes at 1. simpl.
    destruct (decide (k0 = k)) as [-> | Hne].
    + rewrite bool_decide_eq_true_2 by reflexivity. simpl.
      destruct (decide (k ∈ l.*1)) as [Hin | _]; [contradiction |].
      destruct (decide (k ∈ k :: l.*1)) as [_ | Hout]; [reflexivity |].
      exfalso. apply Hout, elem_of_cons. auto.
    + rewrite bool_decide_eq_false_2 by exact Hne. simpl.
      destruct (decide (k ∈ l.*1)) as [Hin | Hout];
        destruct (decide (k ∈ k0 :: l.*1)) as [Hin' | Hout']; try reflexivity.
      * exfalso. apply Hout', elem_of_cons. auto.
      * exfalso. apply elem_of_cons in Hin'. destruct Hin'; congruence.
Qed.

Lemma size_writes_events k (m : gmap ContainerKey Z) :
  size_writes k (size_events m) = if decide (k ∈ dom m) then 1%nat else 0%nat.
Proof.
  unfold size_events. rewrite size_writes_NoDup by apply NoDup_fst_map_to_list.
  destruct (decide (k ∈ (map_to_list m).*1)) as [Hin | Hout];
    destruct (decide (k ∈ dom m)) as [Hd | Hd]; try reflexivity; exfalso.
  - apply Hd. apply list_elem_of_fmap in Hin. destruct Hin as ([k' z] & -> & Hin).
    apply elem_of_map_to_list in Hin. apply elem_of_dom. eauto.
  - apply Hout. apply elem_of_dom in Hd. destruct Hd as [z Hz].
    apply elem_of_map_to_list in Hz.
    apply (list_elem_of_fmap_2 fst) in Hz. exact Hz.
Qed.

Lemma size_writes_create_events k ns :
  size_writes k (create_event <$> ns) = 0%nat.
Proof.
  unfold size_writes. induction ns as [|n ns IH]; [reflexivity |].
  rewrite fmap_cons. simpl. exact IH.
Qed.

Lemma commit_trace_cons disk sizes key z fid ver files :
  commit_trace disk sizes ((key, z, fid, ver) :: files)
  = [OpWriteFileInfo fid ver; OpAddFileToContainer key fid]
      ++ size_events (CARCHIVE.dict_add key z sizes)
      ++ [OpUpdateDiskInfo z disk]
      ++ commit_trace disk (CARCHIVE.dict_add key z sizes) files.
Proof. reflexivity. Qed.

(** The number of size statements that the commit loop addresses to a
    key: one for every file from the first one filed under the key. *)
Lemma size_writes_commit_trace disk k files : forall sizes,
  size_writes k (commit_trace disk sizes files)
  = if decide (k ∈ dom sizes) then length files
    else length (drop_while (fun f => negb (bool_decide (f.1.1.1 = k))) files).
Proof.
  induction files as [|[[[key z] fid] ver] files IH]; intros sizes.
  - simpl. destruct (decide (k ∈ dom sizes)); reflexivity.
  - rewrite commit_trace_cons.
    rewrite !size_writes_app, size_writes_events, IH.
    unfold CARCHIVE.dict_add. rewrite dom_insert_L.
    change (size_writes k [OpWriteFileInfo fid ver; OpAddFileToContainer key fid])
      with 0%nat.
    change (size_writes k [OpUpdateDiskInfo z disk]) with 0%nat.
    simpl drop_while.
    destruct (decide (k ∈ dom sizes)) as [Hin | Hout].
    + destruct (decide (k ∈ {[key]} ∪ dom sizes)) as [_ | Hout'];
        [simpl; lia | exfalso; apply Hout', elem_of_union; auto].
    + destruct (decide (key = k)) as [-> | Hne].
      * rewrite bool_decide_eq_true_2 by reflexivity. simpl.
        destruct (decide (k ∈ {[k]} ∪ dom sizes)) as [_ | Hout'];
          [lia |].
        exfalso. apply Hout', elem_of_union. left.
        apply elem_of_singleton. reflexivity.
      * rewrite bool_decide_eq_false_2 by exact Hne. simpl.
        destruct (decide (k ∈ {[key]} ∪ dom sizes)) as [Hin' | _]; [| lia].
        exfalso. apply elem_of_union in Hin'. destruct Hin' as [Hin' | Hin'].
        -- apply elem_of_singleton in Hin'. congruence.
        -- contradiction.
Qed.

(** C7, as the code has it: the size statements are sent inside the
    commit loop.  The statements of a successful [handleCmd] are those
    that create the containers, then for each file in turn its record,
    its membership, one size statement for every container touched so
    far with its running total, and the update of the volume; a container
    is therefore written once for every file from the first one attached
    to it, and the last statement for it carries its final total. *)
Theorem container_sizes_written_after_each_file w root dapis w' :
  CARCHIVE.handleCmd E w = (Ok (root, dapis), w') ->
  exists fd rs bs stg pr targ versions completion,
    CARCHIVE.parse E fd rs bs stg = Ok pr /\
    length versions = length (CARCHIVE.fileDataList pr) /\
    let files := zip_with (filed E root) (CARCHIVE.fileDataList pr) versions in
    db_log (db w')
    = db_log (db w) ++ (create_event <$> nodes None root)
        ++ commit_trace (diskId targ) ∅ files ++ completion /\
    (completion = [] \/ completion = [OpWriteDiskInfo (diskId targ)]) /\
    forall k,
      (size_writes k (db_log (db w')) - size_writes k (db_log (db w)))%nat
      = length (drop_while (fun f => negb (bool_decide (f.1.1.1 = k))) files).
Proof.
  intros Hrun.
  destruct (handleCmd_Ok _ _ _ _ Hrun)
    as (targ & stg & info & w3 & w4 & w4' & dateDir & st & w5
        & Hdb3 & [w2 Hstage] & Hcreate & Hdb4 & Hloop & _ & Hfinal).
  destruct (saveInStagingFile_Ok _ _ _ _ _ Hstage)
    as (fd & rs & bs & pr & Hparse & Hroot & Hitems).
  destruct (createContainers_created E _ _ _ _ _ Hcreate) as [Hcr _].
  destruct Hcr as (_ & _ & Hlog4 & _). simpl in Hlog4.
  destruct (commit_loop E root targ dateDir (CARCHIVE.st_fileDataList info)
              [] ∅ [] w4' st w5 (db w4) eq_refl)
    as (_ & _ & (versions & Hlen & Hlog5) & _).
  { intros id. rewrite Hdb4.
    destruct (ngas_containers (db w4) !! id); simpl;
      [rewrite with_total_empty |]; reflexivity. }
  { exact Hloop. }
  rewrite Hitems in Hlen, Hlog5. rewrite Hdb4, Hlog4, Hdb3 in Hlog5.
  assert (Hlog : exists completion,
            db_log (db w') = db_log (db w5) ++ completion /\
            (completion = [] \/ completion = [OpWriteDiskInfo (diskId targ)])).
  { destruct Hfinal as [-> | [date ->]].
    - exists []. rewrite app_nil_r. auto.
    - exists [OpWriteDiskInfo (diskId targ)]. auto. }
  destruct Hlog as (completion & Hlog & Hcompl).
  exists fd, rs, bs, stg, pr, targ, versions, completion.
  split; [exact Hparse |]. split; [exact Hlen |].
  assert (Hall : db_log (db w')
            = db_log (db w) ++ (create_event <$> nodes None root)
                ++ commit_trace (diskId targ) ∅
                     (zip_with (filed E root) (CARCHIVE.fileDataList pr) versions)
                ++ completion).
  { rewrite Hlog, Hlog5, <- !app_assoc. reflexivity. }
  split; [exact Hall |]. split; [exact Hcompl |].
  intros k. rewrite Hall, !size_writes_app, size_writes_commit_trace.
  pose proof (size_writes_create_events k (nodes None root)) as Hc0.
  assert (Hc1 : size_writes k completion = 0%nat).
  { destruct Hcompl as [-> | ->]; reflexivity. }
  rewrite Hc0, Hc1.
  destruct (decide (k ∈ dom (∅ : gmap ContainerKey Z))) as [Hin | _]; [| lia].
  exfalso. rewrite dom_empty_L in Hin. apply elem_of_empty in Hin. exact Hin.
Qed.


End HandleCmd.

Lemma container_size_is_sum_of_direct_members_witness :
  exists rowA rowB,
    ngas_containers (db Demo.nested_run.2) !! 0%nat = Some rowA /\
    container_size rowA = 100 /\
    ngas_containers (db Demo.nested_run.2) !! 1%nat = Some rowB /\
    container_size rowB = 200.
Proof.
  destruct (container_size_is_sum_of_direct_members
              (Demo.carchive 2%float (Ok Demo.nested_parse)) Demo.push_world
              (Demo.returned Demo.nested_run).1 (Demo.returned Demo.nested_run).2
              Demo.nested_run.2)
    as (fd & rs & bs & stg & pr & Hparse & _ & _ & _ & Hsizes).
  { vm_compute. reflexivity. }
  simpl in Hparse. inversion Hparse; subst pr.
  destruct (Hsizes [] (Demo.returned Demo.nested_run).1 eq_refl)
    as (idA & rowA & HidA & HrowA & HsizeA).
  vm_compute in HidA. inversion HidA; subst idA.
  destruct (Hsizes [0%nat]
              (mkContainer "B" (Some 1%nat) (Some 1700000000%float) []) eq_refl)
    as (idB & rowB & HidB & HrowB & HsizeB).
  vm_compute in HidB. inversion HidB; subst idB.
  exists rowA, rowB.
  split; [exact HrowA |]. split; [rewrite HsizeA; reflexivity |].
  split; [exact HrowB |]. rewrite HsizeB. reflexivity.
Defined.

(** C1 as stated fails: container A holds a 100-byte file and its child B
    a 200-byte file; the request succeeds, the files at or below A sum to
    300, and the size persisted for A is 100. *)
Lemma parent_size_excludes_nested_files :
  is_Ok Demo.nested_run.1 = true /\
  getContainerId (Demo.returned Demo.nested_run).1 [] = Some 0%nat /\
  descendant_size (Demo.carchive 2%float (Ok Demo.nested_parse)) []
    (CARCHIVE.fileDataList Demo.nested_parse) = 300 /\
  container_size <$> (ngas_containers (db Demo.nested_run.2) !! 0%nat) = Some 100.
Proof. vm_compute. repeat split; reflexivity. Qed.

Lemma container_sizes_written_after_each_file_witness :
  size_writes (KeyId 0) (db_log (db Demo.flat_run.2)) = 2%nat.
Proof.
  destruct (container_sizes_written_after_each_file
              (Demo.carchive 2%float (Ok Demo.flat_parse)) Demo.push_world
              (Demo.returned Demo.flat_run).1 (Demo.returned Demo.flat_run).2
              Demo.flat_run.2)
    as (fd & rs & bs & stg & pr & targ & versions & completion
        & Hparse & Hlen & _ & _ & Hwrites).
  { vm_compute. reflexivity. }
  simpl in Hparse. inversion Hparse; subst pr.
  specialize (Hwrites (KeyId 0)).
  destruct versions as [|v1 [|v2 [|v3 versions]]]; try discriminate Hlen.
  change (size_writes (KeyId 0) (db_log (db Demo.push_world))) with 0%nat in Hwrites.
  rewrite Nat.sub_0_r in Hwrites. rewrite Hwrites. reflexivity.
Defined.

(** C7 as stated fails: two files attached to one container make two
    size statements for that container, the first of them sent before the
    second file is processed. *)
Lemma container_written_once_per_file :
  is_Ok Demo.flat_run.1 = true /\
  db_log (db Demo.flat_run.2)
  = [OpCreateContainer 0 "A" 0 None;
     OpWriteFileInfo "f1" 1; OpAddFileToContainer (KeyId 0) "f1";
     OpSetContainerSize (KeyId 0) 100; OpUpdateDiskInfo 100 "disk-1";
     OpWriteFileInfo "f2" 1; OpAddFileToContainer (KeyId 0) "f2";
     OpSetContainerSize (KeyId 0) 300; OpUpdateDiskInfo 200 "disk-1"] /\
  size_writes (KeyId 0) (db_log (db Demo.flat_run.2)) <> 1%nat.
Proof.
  vm_compute. split; [reflexivity |]. split; [reflexivity | discriminate].
Qed.

(** * Further properties of the mirroring handler *)

Section MirrorFurther.

Variable E : MIRRARCHIVE.Externals.

(** X1: a mirroring request is turned away before anything happens when
    the server is not on line or is not permitted to archive: the fetch
    is not started, and the server, the request and the catalog stay as
    they were. *)
Theorem mirror_request_turned_away w :
  srvState w <> NGAMS_ONLINE_STATE \/ allowArchiveReq w = false ->
  MIRRARCHIVE.handleCmd E w
  = (Raise (if String.eqb (srvState w) NGAMS_ONLINE_STATE
            then Exception_ "NGAMS_ER_ILL_REQ: Archive"
            else AbortedException "Server is OFFLINE"), w).
Proof.
  intros Hwhy. unfold MIRRARCHIVE.handleCmd, bind, gets.
  destruct (String.eqb (srvState w) NGAMS_ONLINE_STATE) eqn:Hstate.
  - destruct Hwhy as [Hoff | Hallow].
    + apply String.eqb_eq in Hstate. contradiction.
    + unfold MIRRARCHIVE.__handleCmd, bind, gets. rewrite Hallow. reflexivity.
  - reflexivity.
Qed.

(** The [except] clauses answer with one of the two outcomes of the
    taxonomy, which is the error itself or holds it. *)
Lemma classify_outcome e w :
  exists e',
    MIRRARCHIVE.classify e w = (Raise e', w) /\
    (e' = e \/ e' = FailedDownloadException e \/ e' = PostponeException e) /\
    (exists c, e' = FailedDownloadException c \/ e' = PostponeException c).
Proof.
  destruct e; simpl; unfold_cmd;
    repeat match goal with
           | |- context [if ?b then _ else _] => destruct b
           end;
    eexists; (split; [reflexivity |]); split; eauto.
Qed.

(** X2: whatever error the fetch raises, [__handleCmd] ends in
    [FailedDownloadException] or in [PostponeException], which is the
    error of the fetch or holds it as its cause, and the catalog is as it
    was: no volume is updated and no file is recorded. *)
Theorem fetch_error_ends_in_taxonomy w e w1 :
  allowArchiveReq w = true ->
  MIRRARCHIVE.saveInStagingFile E (stagingFilename (req w))
    (default 0 (MIRRARCHIVE.stagingFileSize E (stagingFilename (req w)))) w
    = (Raise e, w1) ->
  exists e',
    MIRRARCHIVE.__handleCmd E w = (Raise e', w1) /\
    (e' = e \/ e' = FailedDownloadException e \/ e' = PostponeException e) /\
    (exists c, e' = FailedDownloadException c \/ e' = PostponeException c) /\
    db w1 = db w.
Proof.
  intros Hallow Hfetch.
  destruct (classify_outcome e w1) as (e' & Hcls & Hshape & Hkind).
  exists e'. split; [eapply handleCmd_fetch_raises; eauto |].
  split; [exact Hshape |]. split; [exact Hkind |].
  eapply saveInStagingFile_db; eauto.
Qed.

(** X3: an error that the fetch has already classified, as
    [FailedDownloadException] or as [PostponeException], leaves
    [__handleCmd] as it is, whatever its [errno] and whatever the bytes
    received. *)
Theorem classified_error_passes_through w e w1 :
  allowArchiveReq w = true ->
  MIRRARCHIVE.saveInStagingFile E (stagingFilename (req w))
    (default 0 (MIRRARCHIVE.stagingFileSize E (stagingFilename (req w)))) w
    = (Raise e, w1) ->
  (exists c, e = FailedDownloadException c \/ e = PostponeException c) ->
  MIRRARCHIVE.__handleCmd E w = (Raise e, w1).
Proof.
  intros Hallow Hfetch [c [-> | ->]];
    eapply handleCmd_fetch_raises; eauto.
Qed.

(** X4: an error of the fetch that is not classified and does not signal
    a full disk, raised after at least one byte was received, leaves
    [__handleCmd] as [PostponeException] holding the error. *)
Theorem generic_error_after_bytes_is_resumable w e w1 :
  allowArchiveReq w = true ->
  MIRRARCHIVE.saveInStagingFile E (stagingFilename (req w))
    (default 0 (MIRRARCHIVE.stagingFileSize E (stagingFilename (req w)))) w
    = (Raise e, w1) ->
  (forall c, e <> FailedDownloadException c) ->
  (forall c, e <> PostponeException c) ->
  getattr_errno e <> 28 ->
  0 < bytesReceived (req w1) ->
  MIRRARCHIVE.__handleCmd E w = (Raise (PostponeException e), w1).
Proof.
  intros Hallow Hfetch Hf Hp Herr Hbytes.
  eapply handleCmd_fetch_raises; eauto.
  apply classify_resumable; auto. lia.
Qed.


(** X6: when the file cannot be opened, [calculateCrc] does not raise the
    error of [open]: the [finally] clause closes a file object that was
    never bound, and the call ends in [UnboundLocalError]. *)
Theorem calculateCrc_masks_open_error fuel filename blockSize e :
  MIRRARCHIVE.open_ E filename = Raise e ->
  MIRRARCHIVE.calculateCrc E fuel filename blockSize
  = Raise (UnboundLocalError "fdin").
Proof.
  intros Hopen.
  unfold MIRRARCHIVE.calculateCrc, MIRRARCHIVE.calculateCrc_frame.
  unfold_cmd. simpl. rewrite Hopen. reflexivity.
Qed.

End MirrorFurther.

(** X7: [updateDiskInfo] of the mirroring plug-in changes the row of the
    volume the file went to and no other: that row gains one file and the
    size of the file and takes the given available space; a volume the
    catalog does not hold is not created. *)
Theorem updateDiskInfo_changes_one_volume resDapi availSpace w :
  let w' := (MIRRARCHIVE.updateDiskInfo resDapi availSpace w).2 in
  (forall disk,
     disk <> ds_diskId resDapi ->
     ngas_disks (db w') !! disk = ngas_disks (db w) !! disk) /\
  (forall d,
     ngas_disks (db w) !! ds_diskId resDapi = Some d ->
     exists d',
       ngas_disks (db w') !! ds_diskId resDapi = Some d' /\
       numberOfFiles d' = numberOfFiles d + 1 /\
       bytesStored d' = bytesStored d + ds_fileSize resDapi /\
       availableMb d' = availSpace /\
       completed d' = completed d /\ mountPoint d' = mountPoint d) /\
  (ngas_disks (db w) !! ds_diskId resDapi = None ->
   ngas_disks (db w') = ngas_disks (db w)).
Proof.
  intros w'. subst w'. simpl. split; [| split].
  - intros disk Hne. apply lookup_alter_ne. congruence.
  - intros d Hd. eexists. rewrite lookup_alter_eq, Hd. simpl.
    split; [reflexivity |]. repeat split.
  - intros Hnone. apply alter_id'. exact Hnone.
Qed.

Lemma mirror_request_turned_away_witness :
  (MIRRARCHIVE.handleCmd (Demo.mirrarchive (Ok (1%float, 77)) 500)
     Scenes.offline_world).1
  = Raise (AbortedException "Server is OFFLINE").
Proof.
  rewrite (mirror_request_turned_away (Demo.mirrarchive (Ok (1%float, 77)) 500)
             Scenes.offline_world).
  - reflexivity.
  - left. discriminate.
Defined.

Lemma fetch_error_ends_in_taxonomy_witness :
  exists e',
    MIRRARCHIVE.__handleCmd
      (Demo.mirrarchive (Raise (EnvironmentError_ 104 "Connection reset by peer")) 300)
      Demo.mirror_world
    = (Raise e', with_req (setBytesReceived 300) Demo.mirror_world) /\
    db (with_req (setBytesReceived 300) Demo.mirror_world) = db Demo.mirror_world.
Proof.
  destruct (fetch_error_ends_in_taxonomy
              (Demo.mirrarchive (Raise (EnvironmentError_ 104 "Connection reset by peer")) 300)
              Demo.mirror_world (EnvironmentError_ 104 "Connection reset by peer")
              (with_req (setBytesReceived 300) Demo.mirror_world))
    as (e' & Hrun & _ & _ & Hdb); [reflexivity | reflexivity |].
  exists e'. split; [exact Hrun | exact Hdb].
Defined.

Lemma classified_error_passes_through_witness :
  MIRRARCHIVE.__handleCmd
    (Demo.mirrarchive (Raise (PostponeException (Exception_ "source busy"))) 0)
    Demo.mirror_world
  = (Raise (PostponeException (Exception_ "source busy")),
     with_req (setBytesReceived 0) Demo.mirror_world).
Proof.
  apply (classified_error_passes_through
           (Demo.mirrarchive (Raise (PostponeException (Exception_ "source busy"))) 0)
           Demo.mirror_world).
  - reflexivity.
  - reflexivity.
  - exists (Exception_ "source busy"). right. reflexivity.
Defined.

Lemma generic_error_after_bytes_is_resumable_witness :
  MIRRARCHIVE.__handleCmd
    (Demo.mirrarchive (Raise (Exception_ "Connection reset by peer")) 300)
    Demo.mirror_world
  = (Raise (PostponeException (Exception_ "Connection reset by peer")),
     with_req (setBytesReceived 300) Demo.mirror_world).
Proof.
  apply (generic_error_after_bytes_is_resumable
           (Demo.mirrarchive (Raise (Exception_ "Connection reset by peer")) 300)
           Demo.mirror_world).
  - reflexivity.
  - reflexivity.
  - discriminate.
  - discriminate.
  - simpl. lia.
  - simpl. lia.
Defined.


Lemma calculateCrc_masks_open_error_witness :
  MIRRARCHIVE.calculateCrc
    (MIRRARCHIVE.mkExternals "cols" (fun _ _ _ => Ok []) (fun _ => None)
       (fun _ _ _ _ => (Ok (1%float, 77), 500))
       (fun _ _ _ _ => (Ok (1%float, 77), 500))
       (fun _ => Raise (Exception_ "no DAPI")) (fun _ _ => Ok 0%float)
       (fun _ => "now") (fun _ => "then")
       (fun _ => Raise (EnvironmentError_ 2 "No such file or directory"))
       (fun _ crc => crc))
    7 "/mnt/vol1/data/missing" 65536
  = Raise (UnboundLocalError "fdin").
Proof.
  apply (calculateCrc_masks_open_error _ 7 "/mnt/vol1/data/missing" 65536
           (EnvironmentError_ 2 "No such file or directory")).
  reflexivity.
Defined.

Lemma updateDiskInfo_changes_one_volume_witness :
  exists d',
    ngas_disks
      (db (MIRRARCHIVE.updateDiskInfo
             (mkDapiStatus "disk-1" "data/X1" "X1" 1 "application/octet-stream"
                500 500 "NONE" "data" "slot-1" false "/mnt/vol1/data/X1")
             8999 Demo.mirror_world).2) !! "disk-1" = Some d' /\
    numberOfFiles d' = 1 /\ bytesStored d' = 500 /\ availableMb d' = 8999.
Proof.
  destruct (updateDiskInfo_changes_one_volume
              (mkDapiStatus "disk-1" "data/X1" "X1" 1 "application/octet-stream"
                 500 500 "NONE" "data" "slot-1" false "/mnt/vol1/data/X1")
              8999 Demo.mirror_world) as (_ & Hrow & _).
  destruct (Hrow Demo.volume1 eq_refl) as (d' & Hd' & Hn & Hb & Ha & _).
  exists d'. split; [exact Hd' |]. auto.
Defined.

(** * Further properties of the container archive handler *)

(** ** What a command leaves alone *)

Lemma bind_inv {S A B} (m : M S A) (k : A -> M S B) s r s' :
  bind m k s = (r, s') ->
  (exists a s1, m s = (Ok a, s1) /\ k a s1 = (r, s')) \/
  (is_Ok r = false /\ exists r0, m s = (r0, s') /\ is_Ok r0 = false).
Proof.
  unfold bind. destruct (m s) as [[a|e|] s1] eqn:Hm; intros H.
  - left. eauto.
  - right. inversion H; subst. split; [reflexivity |]. eexists. split; reflexivity.
  - right. inversion H; subst. split; [reflexivity |]. eexists. split; reflexivity.
Qed.

Lemma keeps_bind {A B C} (f : World -> C) (m : M World A) (k : A -> M World B) :
  keeps f m -> (forall a, keeps f (k a)) -> keeps f (bind m k).
Proof.
  intros Hm Hk w r w' H. apply bind_inv in H.
  destruct H as [(a & w1 & H1 & H2) | (_ & r0 & H1 & _)].
  - rewrite (Hk a _ _ _ H2). eapply Hm; eauto.
  - eapply Hm; eauto.
Qed.

Lemma keeps_ret {A C} (f : World -> C) (a : A) : keeps f (ret a).
Proof. intros w r w' H. inversion H; reflexivity. Qed.

Lemma keeps_raise {A C} (f : World -> C) e : keeps f (@raise World A e).
Proof. intros w r w' H. inversion H; reflexivity. Qed.

Lemma keeps_lift {A C} (f : World -> C) (x : Res A) : keeps f (lift x).
Proof. intros w r w' H. inversion H; reflexivity. Qed.

Lemma keeps_gets {A C} (f : World -> C) (g : World -> A) : keeps f (gets g).
Proof. intros w r w' H. inversion H; reflexivity. Qed.

Lemma keeps_modify {C} (f : World -> C) (g : World -> World) :
  (forall w, f (g w) = f w) -> keeps f (modify g).
Proof. intros Hg w r w' H. inversion H; subst. apply Hg. Qed.

Lemma keeps_read_clock {A C} (f : World -> C) (g : nat -> A) :
  (forall n w, f (with_clock n w) = f w) -> keeps f (read_clock g).
Proof. intros Hf w r w' H. inversion H; subst. apply Hf. Qed.

Lemma keeps_if {A C} (f : World -> C) (b : bool) (m1 m2 : M World A) :
  keeps f m1 -> keeps f m2 -> keeps f (if b then m1 else m2).
Proof. destruct b; auto. Qed.

Lemma keeps_try_finally {A C} (f : World -> C) (body : M World A) fin :
  keeps f body -> keeps f fin -> keeps f (try_finally body fin).
Proof.
  intros Hb Hf w r w'. unfold try_finally.
  destruct (body w) as [[a|e|] w1] eqn:H1.
  - destruct (fin w1) as [[u|e|] w2] eqn:H2; intros H; inversion H; subst;
      rewrite (Hf _ _ _ H2); eapply Hb; eauto.
  - destruct (fin w1) as [[u|e'|] w2] eqn:H2; intros H; inversion H; subst;
      rewrite (Hf _ _ _ H2); eapply Hb; eauto.
  - intros H; inversion H; subst. eapply Hb; eauto.
Qed.

Lemma keeps_try_except {A C} (f : World -> C) (body : M World A) handler :
  keeps f body -> (forall e, keeps f (handler e)) ->
  keeps f (try_except body handler).
Proof.
  intros Hb Hh w r w'. unfold try_except.
  destruct (body w) as [[a|e|] w1] eqn:H1; intros H.
  - inversion H; subst. eapply Hb; eauto.
  - rewrite (Hh e _ _ _ H). eapply Hb; eauto.
  - inversion H; subst. eapply Hb; eauto.
Qed.

Lemma keeps_for_each {A B C} (f : World -> C) (body : B -> A -> M World B) l :
  (forall b a, keeps f (body b a)) -> forall b, keeps f (for_each body b l).
Proof.
  intros Hbody. induction l as [|x l IH]; intros b; simpl.
  - apply keeps_ret.
  - apply keeps_bind; auto.
Qed.

Lemma keeps_acquire {C} (f : World -> C) slot :
  (forall sems ev w, f (with_sems sems ev w) = f w) ->
  keeps f (acquireDiskResource slot).
Proof.
  intros Hf w r w'. unfold acquireDiskResource.
  destruct (permits slot w); intros H; inversion H; subst; auto.
Qed.

Lemma keeps_release {C} (f : World -> C) slot :
  (forall sems ev w, f (with_sems sems ev w) = f w) ->
  keeps f (releaseDiskResource slot).
Proof. intros Hf w r w' H. inversion H; subst. apply Hf. Qed.

Lemma keeps_getSlotId {C} (f : World -> C) d : keeps f (getSlotId d).
Proof. destruct d; [apply keeps_ret | apply keeps_raise]. Qed.

Lemma keeps_checkSetState {C} (f : World -> C) a s1 s2 n1 n2 :
  (forall st sub w, f (with_state st sub w) = f w) ->
  keeps f (checkSetState a s1 s2 n1 n2).
Proof.
  intros Hf w r w'. unfold checkSetState.
  destruct (_ && _); intros H; inversion H; subst; auto.
Qed.

Ltac keeps_step :=
  first
    [ apply keeps_bind; [| intros ?]
    | apply keeps_if
    | apply keeps_try_finally
    | apply keeps_try_except; [| intros ?]
    | apply keeps_for_each; intros ? ?
    | apply keeps_modify; intros ?; reflexivity
    | apply keeps_ret
    | apply keeps_raise
    | apply keeps_lift
    | apply keeps_gets
    | apply keeps_read_clock; intros ? ?; reflexivity
    | apply keeps_acquire; intros ? ? ?; reflexivity
    | apply keeps_release; intros ? ? ?; reflexivity
    | apply keeps_getSlotId
    | apply keeps_checkSetState; intros ? ? ?; reflexivity
    | match goal with
      | |- keeps _ (let '(_, _) := ?x in _) => destruct x
      | |- keeps _ (match ?x with Some _ => _ | None => _ end) => destruct x
      end ].

Ltac keeps_tac := repeat keeps_step.

Lemma keeps_on_fail_of_keeps {A C} (f : World -> C) (m : M World A) :
  keeps f m -> keeps_on_fail f m.
Proof. intros Hm w r w' H _. eapply Hm; eauto. Qed.

Lemma keeps_on_fail_bind {A B C} (f : World -> C) (m : M World A)
    (k : A -> M World B) :
  keeps f m -> (forall a, keeps_on_fail f (k a)) -> keeps_on_fail f (bind m k).
Proof.
  intros Hm Hk w r w' H Hfail. apply bind_inv in H.
  destruct H as [(a & w1 & H1 & H2) | (_ & r0 & H1 & _)].
  - rewrite (Hk a _ _ _ H2 Hfail). eapply Hm; eauto.
  - eapply Hm; eauto.
Qed.

Lemma keeps_on_fail_always_Ok {A C} (f : World -> C) (m : M World A) :
  always_Ok m -> keeps_on_fail f m.
Proof.
  intros Hm w r w' H Hfail. specialize (Hm w). rewrite H in Hm.
  simpl in Hm. congruence.
Qed.

Lemma always_Ok_ret {A} (a : A) : always_Ok (@ret World A a).
Proof. intros w. reflexivity. Qed.

Lemma always_Ok_modify g : always_Ok (modify g).
Proof. intros w. reflexivity. Qed.

Lemma always_Ok_bind {A B} (m : M World A) (k : A -> M World B) :
  always_Ok m -> (forall a, always_Ok (k a)) -> always_Ok (bind m k).
Proof.
  intros Hm Hk w. unfold bind. specialize (Hm w).
  destruct (m w) as [[a|e|] w1]; simpl in Hm; try discriminate.
  apply Hk.
Qed.

Lemma always_Ok_for_each {A B} (body : B -> A -> M World B) l :
  (forall b a, always_Ok (body b a)) -> forall b, always_Ok (for_each body b l).
Proof.
  intros Hbody. induction l as [|x l IH]; intros b; simpl.
  - apply always_Ok_ret.
  - apply always_Ok_bind; auto.
Qed.

Lemma never_Ok_bind_l {A B} (m : M World A) (k : A -> M World B) :
  never_Ok m -> never_Ok (bind m k).
Proof.
  intros Hm w b w' H. apply bind_inv in H.
  destruct H as [(a & w1 & H1 & _) | (Hfail & _)].
  - exact (Hm _ _ _ H1).
  - discriminate.
Qed.


Lemma never_Ok_raise {A} e : never_Ok (@raise World A e).
Proof. intros w a w' H. discriminate. Qed.

Lemma always_Ok_gets {A} (g : World -> A) : always_Ok (gets g).
Proof. intros w. reflexivity. Qed.

Lemma always_Ok_if {A} (b : bool) (m1 m2 : M World A) :
  always_Ok m1 -> always_Ok m2 -> always_Ok (if b then m1 else m2).
Proof. destruct b; auto. Qed.

Lemma always_Ok_release slot : always_Ok (releaseDiskResource slot).
Proof. intros w. reflexivity. Qed.

(** A [finally] clause that cannot fail does not hide what the body did
    before it failed. *)
Lemma keeps_on_fail_try_finally {A C} (f : World -> C) (body : M World A) fin :
  keeps_on_fail f body -> keeps f fin -> always_Ok fin ->
  keeps_on_fail f (try_finally body fin).
Proof.
  intros Hb Hf Hok w r w'. unfold try_finally.
  destruct (body w) as [r1 w1] eqn:H1.
  specialize (Hok w1). destruct (fin w1) as [[u|e|] w2] eqn:H2;
    simpl in Hok; try discriminate.
  destruct r1; intros H Hfail; inversion H; subst; try discriminate;
    try rewrite (Hf _ _ _ H2); eapply Hb; eauto.
Qed.

Section StagingFurther.

Variable E : CARCHIVE.Externals.

(** X8: [saveFromHttpToFile] called with its default arguments, mutual
    exclusion requested and no disk info given, ends in [AttributeError]
    once the target directory exists: nothing is parsed, no disk resource
    is taken, and the request is left as it was. *)
Theorem saveFromHttpToFile_needs_diskInfo trg bs w :
  CARCHIVE.checkCreatePath E (dirname trg) = Ok tt ->
  CARCHIVE.saveFromHttpToFile E trg bs true None w
  = (Raise (AttributeError "'NoneType' object has no attribute 'getSlotId'"), w).
Proof.
  intros Hpath. unfold CARCHIVE.saveFromHttpToFile.
  unfold bind at 1, lift at 1. rewrite Hpath. reflexivity.
Qed.

Lemma saveFromHttpToFile_entered trg bs mutex dobj w :
  CARCHIVE.checkCreatePath E (dirname trg) = Ok tt ->
  CARCHIVE.saveFromHttpToFile E trg bs mutex dobj w
  = try_finally (CARCHIVE.guarded_body E trg bs mutex dobj)
      (CARCHIVE.guarded_finally mutex dobj) w.
Proof.
  intros Hpath. unfold CARCHIVE.saveFromHttpToFile.
  unfold bind at 1, lift at 1. rewrite Hpath. reflexivity.
Qed.

(** The transfer does not look at the disk semaphores. *)
Lemma transfer_with_sems trg bs sems ev w :
  CARCHIVE.transfer E trg bs (with_sems sems ev w)
  = ((CARCHIVE.transfer E trg bs w).1,
     with_sems sems ev (CARCHIVE.transfer E trg bs w).2).
Proof.
  unfold CARCHIVE.transfer. unfold_cmd. simpl.
  destruct (CARCHIVE.remSize E (req w)) as [rs|?|]; try reflexivity.
  destruct (CARCHIVE.parse E _ _ _ _) as [pr|?|]; try reflexivity.
  destruct (py_float (CARCHIVE.bytesRead pr)) as [b|?|]; try reflexivity.
  destruct (py_float_div b _) as [rate|?|]; reflexivity.
Qed.

(** X9: mutual exclusion changes nothing but the lock: with a permit at
    hand, [saveFromHttpToFile] has the same outcome and leaves the same
    request and the same catalog whether mutual exclusion is requested or
    not, and without it no semaphore is touched. *)
Theorem mutual_exclusion_changes_only_the_lock trg bs d w :
  CARCHIVE.checkCreatePath E (dirname trg) = Ok tt ->
  (0 < permits (slotId d) w)%nat ->
  let locked := CARCHIVE.saveFromHttpToFile E trg bs true (Some d) w in
  let free := CARCHIVE.saveFromHttpToFile E trg bs false (Some d) w in
  locked.1 = free.1 /\
  req locked.2 = req free.2 /\
  db locked.2 = db free.2 /\
  lockLog free.2 = lockLog w /\
  diskMutexSems free.2 = diskMutexSems w.
Proof.
  intros Hpath Hperm locked free. subst locked free.
  destruct (permits (slotId d) w) as [|n] eqn:Hp; [lia |].
  rewrite !(saveFromHttpToFile_entered _ _ _ _ _ Hpath).
  rewrite (guarded_region E trg bs d w n Hp).
  rewrite transfer_with_sems.
  unfold try_finally, CARCHIVE.guarded_body, CARCHIVE.guarded_finally.
  unfold bind, ret.
  destruct (CARCHIVE.transfer E trg bs w) as [r2 w2] eqn:Ht.
  pose proof (transfer_locks E _ _ _ _ _ Ht) as [Hsems Hlog].
  destruct r2; simpl; auto.
Qed.

Lemma keeps_on_fail_transfer trg bs :
  keeps_on_fail req (CARCHIVE.transfer E trg bs).
Proof.
  unfold CARCHIVE.transfer.
  do 6 (apply keeps_on_fail_bind; [keeps_tac | intros ?]).
  apply keeps_on_fail_always_Ok.
  apply always_Ok_bind; [apply always_Ok_modify | intros ?; apply always_Ok_ret].
Qed.

(** X10: [saveFromHttpToFile] records the bytes received only when the
    whole call succeeds.  After a successful call the request holds the
    bytes the parser read, and the elapsed time returned is not zero;
    after a call that fails, the request is as it was before the call. *)
Theorem bytes_received_recorded_on_success trg bs mutex dobj w r w' :
  CARCHIVE.saveFromHttpToFile E trg bs mutex dobj w = (r, w') ->
  (forall info,
     r = Ok info ->
     exists fd rs pr,
       CARCHIVE.parse E fd rs bs trg = Ok pr /\
       bytesReceived (req w') = CARCHIVE.bytesRead pr /\
       CARCHIVE.st_fileDataList info = CARCHIVE.fileDataList pr /\
       PrimFloat.eqb (CARCHIVE.st_deltaTime info) 0 = false) /\
  (is_Ok r = false -> req w' = req w).
Proof.
  intros Hrun. split.
  - intros info ->. unfold CARCHIVE.saveFromHttpToFile in Hrun.
    apply bind_inv_Ok in Hrun. destruct Hrun as (u0 & w0 & Hpath & Hrun).
    unfold try_finally in Hrun.
    destruct (CARCHIVE.guarded_body E trg bs mutex dobj w0)
      as [[info1|e|] w1] eqn:Hg;
      [| destruct (CARCHIVE.guarded_finally mutex dobj w1) as [[?|?|] ?];
         discriminate
       | discriminate].
    destruct (CARCHIVE.guarded_finally mutex dobj w1) as [[u|e|] w2] eqn:Hfin;
      try discriminate.
    inversion Hrun; subst; clear Hrun.
    assert (Hreq : req w' = req w1).
    { apply (fun (P : keeps req (CARCHIVE.guarded_finally mutex dobj)) =>
               P _ _ _ Hfin).
      unfold CARCHIVE.guarded_finally. keeps_tac. }
    unfold CARCHIVE.guarded_body in Hg.
    apply bind_inv_Ok in Hg. destruct Hg as (u1 & w3 & Hacq & Ht).
    unfold CARCHIVE.transfer in Ht. unfold_cmd.
    destruct (CARCHIVE.remSize E (req w3)) as [rs|?|]; try discriminate.
    destruct (CARCHIVE.parse E _ _ _ _) as [pr|?|] eqn:Hpr; try discriminate.
    destruct (py_float _) as [b|?|]; try discriminate.
    unfold py_float_div in Ht.
    destruct (PrimFloat.eqb _ 0) eqn:Hz; try discriminate.
    inversion Ht; subst; clear Ht.
    exists (readFd (req w3)), rs, pr. rewrite Hreq. simpl. auto.
  - revert w r w' Hrun.
    change (keeps_on_fail req (CARCHIVE.saveFromHttpToFile E trg bs mutex dobj)).
    unfold CARCHIVE.saveFromHttpToFile.
    apply keeps_on_fail_bind; [keeps_tac | intros _].
    destruct mutex, dobj as [d|].
    + apply keeps_on_fail_try_finally.
      * unfold CARCHIVE.guarded_body.
        apply keeps_on_fail_bind; [keeps_tac | intros _].
        apply keeps_on_fail_transfer.
      * unfold CARCHIVE.guarded_finally. keeps_tac.
      * unfold CARCHIVE.guarded_finally, getSlotId.
        apply always_Ok_bind; [apply always_Ok_ret | intros ?].
        apply always_Ok_release.
    + apply keeps_on_fail_of_keeps. apply keeps_try_finally.
      * unfold CARCHIVE.guarded_body, getSlotId.
        intros w r w' H. unfold bind, raise in H. inversion H. reflexivity.
      * unfold CARCHIVE.guarded_finally. keeps_tac.
    + apply keeps_on_fail_try_finally.
      * unfold CARCHIVE.guarded_body.
        apply keeps_on_fail_bind; [keeps_tac | intros _].
        apply keeps_on_fail_transfer.
      * apply keeps_ret.
      * apply always_Ok_ret.
    + apply keeps_on_fail_try_finally.
      * unfold CARCHIVE.guarded_body.
        apply keeps_on_fail_bind; [keeps_tac | intros _].
        apply keeps_on_fail_transfer.
      * apply keeps_ret.
      * apply always_Ok_ret.
Qed.

(** X11: a URI that mentions [file_version] without the text
    [file_version=] makes the version override fail with [IndexError],
    whatever version the DAPI reported. *)
Theorem uri_file_version_without_value uri dapiVersion :
  str_find uri "file_version" <> None ->
  str_find uri "file_version=" = None ->
  CARCHIVE.uri_file_version E uri dapiVersion = Raise IndexError.
Proof.
  intros Hmention Hvalue. unfold CARCHIVE.uri_file_version.
  destruct (str_find uri "file_version") as [i|]; [| congruence].
  assert (Hsplit : str_split uri "file_version=" = [uri]).
  { unfold str_split. destruct (String.length uri); simpl;
      [reflexivity | rewrite Hvalue; reflexivity]. }
  rewrite Hsplit. reflexivity.
Qed.

(** A URI that does not mention [file_version] leaves the version that
    the DAPI reported. *)
Lemma uri_file_version_absent uri dapiVersion :
  str_find uri "file_version" = None ->
  CARCHIVE.uri_file_version E uri dapiVersion = Ok dapiVersion.
Proof. intros H. unfold CARCHIVE.uri_file_version. rewrite H. reflexivity. Qed.

End StagingFurther.

Section ContainersFurther.

Variable E : CARCHIVE.Externals.

(** X12: [createContainers] only adds rows.  In a catalog whose rows all
    hold issued identities, every row present before the call is present
    and unchanged after it, the rows added are as many as the containers
    of the tree, and the catalog's rows still all hold issued
    identities; volumes, files and memberships are not touched. *)
Theorem createContainers_only_adds_rows c parent w c' w' :
  catalog_wf (db w) ->
  CARCHIVE.createContainers E c parent w = (c', w') ->
  catalog_wf (db w') /\
  (forall id row,
     ngas_containers (db w) !! id = Some row ->
     ngas_containers (db w') !! id = Some row) /\
  next_container_id (db w')
  = (next_container_id (db w) + length (nodes (parent_key parent) c'))%nat /\
  (forall i, (i < length (nodes (parent_key parent) c'))%nat ->
     is_Some (ngas_containers (db w') !! (next_container_id (db w) + i)%nat)) /\
  ngas_disks (db w') = ngas_disks (db w) /\
  ngas_files (db w') = ngas_files (db w) /\
  ngas_containers_files (db w') = ngas_containers_files (db w).
Proof.
  intros Hwf Hrun.
  destruct (createContainers_created E _ _ _ _ _ Hrun) as [Hcr _].
  destruct Hcr as (Hids & Hnext & _ & Htable & Hdisks & Hmem & Hfiles & _).
  split; [| split; [| split; [| split]]].
  - intros id Hsome. rewrite Hnext.
    destruct (decide (id < next_container_id (db w)
                      \/ next_container_id (db w)
                         + length (nodes (parent_key parent) c') <= id)%nat)
      as [Hout | Hin]; [| lia].
    rewrite Htable, (foldl_insert_row_other _ _ _ _ Hids Hout) in Hsome.
    apply Hwf in Hsome. lia.
  - intros id row Hrow. rewrite Htable.
    rewrite (foldl_insert_row_other _ _ _ _ Hids); [exact Hrow |].
    left. apply Hwf. rewrite Hrow. eauto.
  - exact Hnext.
  - intros i Hi. apply lookup_lt_is_Some_2 in Hi. destruct Hi as [n Hn].
    destruct (foldl_insert_row_lookup _ _ (ngas_containers (db w)) i n Hids Hn)
      as [_ Hrow].
    rewrite Htable, Hrow. eauto.
  - auto.
Qed.

(** X13: after [createContainers] every container of the tree holds an
    identity, and two containers of the tree hold the same identity only
    if they are the same container. *)
Theorem createContainers_identities_distinct c parent w c' w' :
  CARCHIVE.createContainers E c parent w = (c', w') ->
  forall p q d1 d2,
    deref c' p = Some d1 -> deref c' q = Some d2 ->
    is_Some (containerId d1) /\
    (containerId d1 = containerId d2 -> p = q).
Proof.
  intros Hrun p q d1 d2 H1 H2.
  destruct (createContainers_created E _ _ _ _ _ Hrun) as [Hcr _].
  destruct Hcr as (Hids & _).
  split.
  - destruct (deref_in_nodes p c' (parent_key parent) d1 H1) as [pk Hin].
    apply list_elem_of_lookup_1 in Hin. destruct Hin as [i Hi].
    destruct (foldl_insert_row_lookup _ _ ∅ i (pk, d1) Hids Hi) as [Hid _].
    simpl in Hid. rewrite Hid. eauto.
  - intros Hsame.
    eapply (deref_injective p c' (parent_key parent)); eauto.
    rewrite Hids. apply (NoDup_fmap_2 Some). apply NoDup_seq.
Qed.

End ContainersFurther.

Lemma createContainers_only_adds_rows_witness :
  let run := CARCHIVE.createContainers (Demo.carchive 2%float (Ok Demo.nested_parse))
               Demo.containerA None Scenes.used_world in
  ngas_containers (db run.2) !! 0%nat = Some (mkContainerRow "old" 42 0%float None) /\
  next_container_id (db run.2) = 3%nat.
Proof.
  intros run.
  destruct (createContainers_only_adds_rows
              (Demo.carchive 2%float (Ok Demo.nested_parse))
              Demo.containerA None Scenes.used_world run.1 run.2)
    as (_ & Hold & Hnext & _).
  - intros id [row Hrow]. simpl in Hrow.
    apply lookup_singleton_Some in Hrow. destruct Hrow as [<- _]. simpl. lia.
  - apply surjective_pairing.
  - split; [apply Hold; reflexivity | exact Hnext].
Defined.

Lemma createContainers_identities_distinct_witness :
  let run := CARCHIVE.createContainers (Demo.carchive 2%float (Ok Demo.nested_parse))
               Demo.containerA None Demo.push_world in
  exists d1 d2,
    deref run.1 [] = Some d1 /\ deref run.1 [0%nat] = Some d2 /\
    containerId d1 <> containerId d2.
Proof.
  intros run. eexists _, _.
  split; [reflexivity |]. split; [reflexivity |].
  intros Hsame.
  destruct (createContainers_identities_distinct
              (Demo.carchive 2%float (Ok Demo.nested_parse))
              Demo.containerA None Demo.push_world run.1 run.2
              (surjective_pairing _) [] [0%nat] _ _ eq_refl eq_refl)
    as [_ Hinj].
  specialize (Hinj Hsame). discriminate.
Defined.

Lemma saveFromHttpToFile_needs_diskInfo_witness :
  CARCHIVE.saveFromHttpToFile (Demo.carchive 2%float (Ok Demo.nested_parse))
    "/mnt/vol1/staging/uid___bundle.tar" 65536 true None Demo.push_world
  = (Raise (AttributeError "'NoneType' object has no attribute 'getSlotId'"),
     Demo.push_world).
Proof.
  apply (saveFromHttpToFile_needs_diskInfo
           (Demo.carchive 2%float (Ok Demo.nested_parse))
           "/mnt/vol1/staging/uid___bundle.tar" 65536 Demo.push_world).
  reflexivity.
Defined.

Lemma mutual_exclusion_changes_only_the_lock_witness :
  let E := Demo.carchive 2%float (Ok Demo.nested_parse) in
  let trg := "/mnt/vol1/staging/uid___bundle.tar" in
  (CARCHIVE.saveFromHttpToFile E trg 65536 true (Some Demo.volume1) Demo.push_world).1
  = (CARCHIVE.saveFromHttpToFile E trg 65536 false (Some Demo.volume1) Demo.push_world).1 /\
  lockLog
    (CARCHIVE.saveFromHttpToFile E trg 65536 false (Some Demo.volume1) Demo.push_world).2
  = [].
Proof.
  intros E trg.
  destruct (mutual_exclusion_changes_only_the_lock E trg 65536 Demo.volume1
              Demo.push_world) as (Hout & _ & _ & Hlog & _).
  - reflexivity.
  - vm_compute. lia.
  - split; [exact Hout | exact Hlog].
Defined.

Lemma bytes_received_recorded_on_success_witness :
  let E := Demo.carchive 2%float
             (Raise (EnvironmentError_ 104 "Connection reset by peer")) in
  let run := CARCHIVE.saveFromHttpToFile E "/mnt/vol1/staging/uid___bundle.tar"
               65536 true (Some Demo.volume1) Demo.push_world in
  req run.2 = req Demo.push_world.
Proof.
  intros E run.
  apply (proj2 (bytes_received_recorded_on_success E
                  "/mnt/vol1/staging/uid___bundle.tar" 65536 true
                  (Some Demo.volume1) Demo.push_world run.1 run.2
                  (surjective_pairing _))).
  reflexivity.
Defined.

Lemma uri_file_version_without_value_witness :
  CARCHIVE.uri_file_version (Demo.carchive 2%float (Ok Demo.nested_parse))
    "http://ngas2:7777/RETRIEVE?file_version" 1
  = Raise IndexError.
Proof.
  apply uri_file_version_without_value.
  - vm_compute. discriminate.
  - reflexivity.
Defined.

(** ** The handler, step by step *)

Lemma bind_gets {A B} (f : World -> A) (k : A -> M World B) w :
  bind (gets f) k w = k (f w) w.
Proof. reflexivity. Qed.

Lemma bind_ret {A B} (a : A) (k : A -> M World B) w : bind (ret a) k w = k a w.
Proof. reflexivity. Qed.

Lemma bind_modify {B} (g : World -> World) (k : unit -> M World B) w :
  bind (modify g) k w = k tt (g w).
Proof. reflexivity. Qed.



Lemma on_success_bind {A B C} (f : World -> C) (Q : C -> B -> World -> Prop)
    (m : M World A) (k : A -> M World B) :
  keeps f m -> (forall a, on_success f (k a) Q) -> on_success f (bind m k) Q.
Proof.
  intros Hm Hk w b w' H. apply bind_inv_Ok in H.
  destruct H as (a & w1 & H1 & H2).
  rewrite <- (Hm _ _ _ H1). exact (Hk a _ _ _ H2).
Qed.

(** The same, keeping what the first command is known to return. *)
Lemma on_success_bind_with {A B C} (f : World -> C)
    (Q : C -> B -> World -> Prop) (P : A -> Prop)
    (m : M World A) (k : A -> M World B) :
  keeps f m ->
  (forall w a w', m w = (Ok a, w') -> P a) ->
  (forall a, P a -> on_success f (k a) Q) ->
  on_success f (bind m k) Q.
Proof.
  intros Hm HP Hk w b w' H. apply bind_inv_Ok in H.
  destruct H as (a & w1 & H1 & H2).
  rewrite <- (Hm _ _ _ H1). exact (Hk a (HP _ _ _ H1) _ _ _ H2).
Qed.

Lemma on_success_raise {B C} (f : World -> C) (Q : C -> B -> World -> Prop) e :
  on_success f (raise e) Q.
Proof. intros w b w' H. discriminate. Qed.

Lemma on_success_ret {B C} (f : World -> C) (Q : C -> B -> World -> Prop) b :
  (forall w, Q (f w) b w) -> on_success f (ret b) Q.
Proof. intros HQ w b' w' H. inversion H; subst. apply HQ. Qed.

Lemma keeps_pair {A C D} (f : World -> C) (g : World -> D) (m : M World A) :
  keeps f m -> keeps g m -> keeps (fun w => (f w, g w)) m.
Proof. intros Hf Hg w r w' H. rewrite (Hf _ _ _ H), (Hg _ _ _ H). reflexivity. Qed.

Section HandlerFurther.

Variable E : CARCHIVE.Externals.

(** [createContainers] leaves alone what depends neither on the catalog
    nor on the clock. *)
Lemma keeps_createContainers {C} (f : World -> C) c parent :
  (forall n w, f (with_clock n w) = f w) ->
  (forall g w, f (with_db g w) = f w) ->
  keeps f (fun w => let (c', w') := CARCHIVE.createContainers E c parent w in
                    (Ok c', w')).
Proof.
  intros Hclock Hdb w r w'.
  destruct (CARCHIVE.createContainers E c parent w) as [c1 w1] eqn:Hrun.
  intros H. inversion H; subst; clear H.
  destruct (createContainers_created E _ _ _ _ _ Hrun) as [Hcr _].
  destruct Hcr as (_ & _ & _ & _ & _ & _ & _ & Hw).
  rewrite Hw, Hclock, Hdb. reflexivity.
Qed.

Ltac keeps_cmd :=
  repeat first
    [ keeps_step
    | apply keeps_createContainers; [intros ? ?; reflexivity | intros ? ?; reflexivity]
    | progress unfold CARCHIVE.saveInStagingFile, CARCHIVE.saveFromHttpToFile,
        CARCHIVE.guarded_body, CARCHIVE.guarded_finally, CARCHIVE.transfer,
        CARCHIVE.commit_file ].

Ltac fails_cmd :=
  repeat first
    [ apply keeps_on_fail_bind; [solve [keeps_cmd] | intros ?]
    | match goal with
      | |- keeps_on_fail _ (match ?x with Some _ => _ | None => _ end) => destruct x
      | |- keeps_on_fail _ (let '(_, _) := ?x in _) => destruct x
      end
    | apply keeps_on_fail_of_keeps; solve [keeps_cmd] ].

Ltac succeeds_cmd :=
  repeat first
    [ apply on_success_bind; [solve [keeps_cmd] | intros ?]
    | match goal with
      | |- on_success _ (match ?x with Some _ => _ | None => _ end) _ => destruct x
      end
    | apply on_success_raise ].

Ltac always_cmd :=
  repeat first
    [ apply always_Ok_bind; [| intros ?]
    | apply always_Ok_ret
    | apply always_Ok_modify
    | apply always_Ok_gets
    | apply always_Ok_if
    | apply always_Ok_for_each; intros ? ? ].

(** X14: [handleCmd] turns a request away before anything happens when
    the server is not permitted to archive, is not on line, or is neither
    idle nor busy: the error is raised and the server, the request and
    the catalog stay as they were. *)
Theorem archive_request_refused w :
  allowArchiveReq w = false \/
  srvState w <> NGAMS_ONLINE_STATE \/
  (srvSubState w <> NGAMS_IDLE_SUBSTATE /\ srvSubState w <> NGAMS_BUSY_SUBSTATE) ->
  CARCHIVE.handleCmd E w
  = (Raise (Exception_ (if allowArchiveReq w
                        then "NGAMS_ER_IMPROPER_STATE: Archive Request"
                        else "NGAMS_ER_ILL_REQ: Archive")), w).
Proof.
  intros Hwhy. unfold CARCHIVE.handleCmd. rewrite bind_gets.
  destruct (allowArchiveReq w) eqn:Hallow; [| reflexivity].
  rewrite bind_ret. unfold bind at 1, checkSetState.
  assert (Hno : bool_decide (srvState w ∈ [NGAMS_ONLINE_STATE])
                && bool_decide (srvSubState w
                                ∈ [NGAMS_IDLE_SUBSTATE; NGAMS_BUSY_SUBSTATE])
                = false).
  { destruct Hwhy as [Hc | [Hst | [Hi Hb]]]; [discriminate | |].
    - apply andb_false_iff. left. apply bool_decide_eq_false.
      intros Hin. apply list_elem_of_singleton in Hin. contradiction.
    - apply andb_false_iff. right. apply bool_decide_eq_false.
      intros Hin. apply elem_of_cons in Hin. destruct Hin as [Hin | Hin];
        [contradiction |].
      apply list_elem_of_singleton in Hin. contradiction. }
  rewrite Hno. reflexivity.
Qed.





(** ** The commit loop, file by file *)




(** ** After the commit *)

Lemma for_each_announce l : forall w,
  for_each (fun (_ : unit) (resDapi : DapiStatus) =>
              modify (fun w =>
                with_notify (newFilesDbm w)
                  (subscriptionInfo w
                     ++ [(ds_fileId resDapi, ds_fileVersion resDapi)])
                  (S (subscriptionTriggers w)) (replies w) w))
    tt l w
  = (Ok tt,
     with_notify (newFilesDbm w) (subscriptionInfo w ++ (announced <$> l))
       (subscriptionTriggers w + length l) (replies w) w).
Proof.
  induction l as [|d l IH]; intros w; simpl.
  - unfold ret. f_equal. destruct w; unfold with_notify; simpl.
    rewrite app_nil_r, Nat.add_0_r. reflexivity.
  - unfold bind, modify. rewrite IH. f_equal.
    unfold with_notify. simpl. rewrite <- app_assoc.
    f_equal. lia.
Qed.

(** X20: the subscription service hears of the files only after all of
    them are committed.  A successful [handleCmd] leaves one reply, and
    for each committed file, in the order of the request, one entry
    holding its identifier and the version the DAPI reported, with one
    trigger each; a [handleCmd] that fails leaves no reply, no entry and
    no trigger, however many files it had committed. *)
Theorem subscribers_told_after_commit w r w' :
  CARCHIVE.handleCmd E w = (r, w') ->
  match r with
  | Ok (root, dapis) =>
      subscriptionInfo w' = subscriptionInfo w ++ (announced <$> dapis) /\
      subscriptionTriggers w' = (subscriptionTriggers w + length dapis)%nat /\
      replies w'
      = replies w
          ++ [("Successfully handled Archive Pull Request for data file "
                 ++ "with URI: " ++ safeFileUri (req w))%string]
  | _ =>
      subscriptionInfo w' = subscriptionInfo w /\
      subscriptionTriggers w' = subscriptionTriggers w /\
      replies w' = replies w
  end.
Proof.
  intros Hrun.
  assert (Hfail : keeps_on_fail
            (fun w0 => (subscriptionInfo w0, subscriptionTriggers w0, replies w0))
            (CARCHIVE.handleCmd E)).
  { unfold CARCHIVE.handleCmd. fails_cmd.
    apply keeps_on_fail_always_Ok. always_cmd. }
  assert (Hsucc : on_success
            (fun w0 => (subscriptionInfo w0, subscriptionTriggers w0, replies w0,
                        safeFileUri (req w0)))
            (CARCHIVE.handleCmd E)
            (fun obs res w2 =>
               subscriptionInfo w2 = obs.1.1.1 ++ (announced <$> res.2) /\
               subscriptionTriggers w2 = (obs.1.1.2 + length res.2)%nat /\
               replies w2
               = obs.1.2
                   ++ [("Successfully handled Archive Pull Request for data file "
                          ++ "with URI: " ++ obs.2)%string])).
  { unfold CARCHIVE.handleCmd. succeeds_cmd.
    intros w0 res w2 H0. rewrite bind_modify in H0.
    unfold bind in H0. rewrite for_each_announce in H0.
    inversion H0; subst; clear H0. simpl. auto. }
  destruct r as [[root dapis]|e|].
  - exact (Hsucc _ _ _ Hrun).
  - specialize (Hfail _ _ _ Hrun eq_refl). inversion Hfail. auto.
  - specialize (Hfail _ _ _ Hrun eq_refl). inversion Hfail. auto.
Qed.

(** ** What is recorded for a file *)




(** ** The phases of a successful request *)

Lemma createContainers_frame c parent w c' w' :
  CARCHIVE.createContainers E c parent w = (c', w') ->
  ngas_files (db w') = ngas_files (db w) /\
  ngas_disks (db w') = ngas_disks (db w) /\
  req w' = req w /\
  freeSpaceDiskChangeMb w' = freeSpaceDiskChangeMb w.
Proof.
  intros Hrun.
  destruct (createContainers_created E _ _ _ _ _ Hrun) as [Hcr _].
  destruct Hcr as (_ & _ & _ & _ & Hdisks & _ & Hfiles & Hw).
  split; [exact Hfiles |]. split; [exact Hdisks |].
  rewrite Hw. split; reflexivity.
Qed.

(** What the phases of a successful [handleCmd] hand over to each other:
    the volume selected, the parser's answer, the world in which the
    commit loop starts, and the catalog the completion check leaves. *)
Lemma handleCmd_phases w root dapis w' :
  CARCHIVE.handleCmd E w = (Ok (root, dapis), w') ->
  exists targ fd rs bs stg pr dateDir w4 st w5,
    (exists w0, CARCHIVE.qarchive_getTargetVolume E w0 = Some targ) /\
    CARCHIVE.parse E fd rs bs stg = Ok pr /\
    ngas_files (db w4) = ngas_files (db w) /\
    ngas_disks (db w4) = ngas_disks (db w) /\
    fileUri (req w4) = fileUri (req w) /\
    for_each (CARCHIVE.commit_file E root targ dateDir) (∅, [])
      (CARCHIVE.fileDataList pr) w4 = (Ok st, w5) /\
    dapis = st.2 /\
    targDiskInfo (req w') = Some targ /\
    db w'
    = if (CARCHIVE.getDiskSpaceAvail E (mountPoint targ)
          <? freeSpaceDiskChangeMb w)%Z
      then writeDiskInfo
             (CARCHIVE.setCompleted (CARCHIVE.getTimeStamp E (clock w5)) targ)
             (db w5)
      else db w5.
Proof.
  set (f1 := fun w0 : World =>
               (ngas_files (db w0), ngas_disks (db w0), fileUri (req w0),
                freeSpaceDiskChangeMb w0, targDiskInfo (req w0))).
  set (Q1 := fun (targ : DiskInfo)
                 (obs : list FileRow * gmap string DiskInfo * string * Z
                        * option DiskInfo)
                 (res : Container * list DapiStatus) (w2 : World) =>
               exists fd rs bs stg pr dateDir w4 st w5,
                 CARCHIVE.parse E fd rs bs stg = Ok pr /\
                 f1 w4 = obs /\
                 for_each (CARCHIVE.commit_file E res.1 targ dateDir) (∅, [])
                   (CARCHIVE.fileDataList pr) w4 = (Ok st, w5) /\
                 res.2 = st.2 /\
                 targDiskInfo (req w2) = obs.2 /\
                 db w2
                 = if (CARCHIVE.getDiskSpaceAvail E (mountPoint targ) <? obs.1.2)%Z
                   then writeDiskInfo
                          (CARCHIVE.setCompleted
                             (CARCHIVE.getTimeStamp E (clock w5)) targ) (db w5)
                   else db w5).
  assert (Hmain : on_success
            (fun w0 => (ngas_files (db w0), ngas_disks (db w0), fileUri (req w0),
                        freeSpaceDiskChangeMb w0))
            (CARCHIVE.handleCmd E)
            (fun obs res w2 =>
               exists targ,
                 (exists w0, CARCHIVE.qarchive_getTargetVolume E w0 = Some targ) /\
                 Q1 targ (obs, Some targ) res w2)).
  { unfold CARCHIVE.handleCmd.
    do 6 (apply on_success_bind; [solve [keeps_cmd] | intros ?]).
    apply (on_success_bind_with _ _
             (fun t => exists w0, CARCHIVE.qarchive_getTargetVolume E w0 = t));
      [solve [keeps_cmd]
      | intros w0 t w0' H0; inversion H0; eauto
      | intros targ Hsel].
    destruct targ as [targ|]; [| apply on_success_raise].
    intros w0 res w2 H0. rewrite bind_modify in H0.
    exists targ. split; [exact Hsel |].
    match type of H0 with
    | ?m ?w1 = _ => assert (Hrest : on_success f1 m (Q1 targ))
    end.
    { do 3 (apply on_success_bind; [solve [keeps_cmd] | intros ?]).
      apply (on_success_bind_with f1 (Q1 targ)
               (fun info => exists fd rs bs stg pr,
                  CARCHIVE.parse E fd rs bs stg = Ok pr /\
                  CARCHIVE.st_fileDataList info = CARCHIVE.fileDataList pr)).
      { keeps_cmd. }
      { intros w3 info w3' Hst. apply saveInStagingFile_Ok in Hst.
        destruct Hst as (fd & rs & bs & pr & Hparse & _ & Hitems).
        eauto 8. }
      intros info (fd & rs & bs & stg & pr & Hparse & Hitems).
      apply on_success_bind; [solve [keeps_cmd] | intros _].
      apply on_success_bind.
      { intros w3 r3 w3'.
        destruct (CARCHIVE.createContainers E _ None w3) as [c wc] eqn:Hcreate.
        intros H3. inversion H3; subst; clear H3.
        apply createContainers_frame in Hcreate.
        destruct Hcreate as (Hf & Hd & Hr & Ht).
        unfold f1. rewrite Hf, Hd, Hr, Ht. reflexivity. }
      intros root1.
      apply on_success_bind; [solve [keeps_cmd] | intros ts].
      apply on_success_bind; [solve [keeps_cmd] | intros dateDir].
      intros w4 res1 w6 H4. apply bind_inv_Ok in H4.
      destruct H4 as (st & w5 & Hloop & Htail).
      assert (Hkept : (targDiskInfo (req w5), freeSpaceDiskChangeMb w5)
                      = (targDiskInfo (req w4), freeSpaceDiskChangeMb w4)).
      { apply (fun (P : keeps (fun w0 => (targDiskInfo (req w0),
                                           freeSpaceDiskChangeMb w0))
                           (for_each (CARCHIVE.commit_file E root1 targ dateDir)
                              (∅, []) (CARCHIVE.st_fileDataList info))) =>
                 P _ _ _ Hloop).
        keeps_cmd. }
      inversion Hkept as [[Htarg Hthr]]. clear Hkept.
      rewrite bind_gets in Htail. apply bind_inv_Ok in Htail.
      destruct Htail as (u & w7 & Hcheck & Htail).
      match type of Htail with
      | ?m ?w1 = _ =>
          assert (Hlast : on_success
                    (fun w0 => (db w0, targDiskInfo (req w0))) m
                    (fun obs res w2 =>
                       (db w2, targDiskInfo (req w2)) = obs
                       /\ res = (root1, st.2)))
      end.
      { succeeds_cmd. apply on_success_ret. intros w0'. auto. }
      apply Hlast in Htail. destruct Htail as [Hsame ->].
      inversion Hsame as [[Hdb Hreq]]. clear Hsame Hlast.
      exists fd, rs, bs, stg, pr, dateDir, w4, st, w5.
      rewrite <- Hitems.
      split; [exact Hparse |]. split; [reflexivity |].
      split; [exact Hloop |]. split; [reflexivity |].
      rewrite Hdb, Hreq. unfold f1. simpl. rewrite <- Hthr.
      destruct (_ <? _)%Z.
      - apply bind_inv_Ok in Hcheck.
        destruct Hcheck as (date & wd & Hclock & Hwrite).
        inversion Hclock; subst; clear Hclock.
        inversion Hwrite; subst; clear Hwrite.
        simpl. split; [exact Htarg | reflexivity].
      - inversion Hcheck; subst. split; [exact Htarg | reflexivity]. }
    exact (Hrest _ _ _ H0). }
  intros Hrun. destruct (Hmain _ _ _ Hrun)
    as (targ & Hsel & fd & rs & bs & stg & pr & dateDir & w4 & st & w5
        & Hparse & Hobs & Hloop & Hres & Htarg & Hdb).
  unfold f1 in Hobs. simpl in Hobs, Hres, Htarg, Hdb, Hloop.
  injection Hobs as Hf Hd Hu Ht Ht4.
  exists targ, fd, rs, bs, stg, pr, dateDir, w4, st, w5.
  split; [exact Hsel |].
  split; [exact Hparse |]. split; [exact Hf |]. split; [exact Hd |].
  split; [exact Hu |]. split; [exact Hloop |]. split; [exact Hres |].
  split; [exact Htarg |]. exact Hdb.
Qed.



(** X22: the volume after a successful [handleCmd].  No other volume is
    touched.  When the space left on the volume is not below the
    configured threshold, the stored bytes of its row have grown by the
    sizes of the files of the request and its file count by their
    number.  When it is below the threshold, the row stored for the
    volume is the volume object as it was selected at the start of the
    request, marked completed with the completion date: the counters of
    the row are those of the selection. *)
Theorem volume_after_request w root dapis w' :
  CARCHIVE.handleCmd E w = (Ok (root, dapis), w') ->
  exists targ fd rs bs stg pr,
    (exists w0, CARCHIVE.qarchive_getTargetVolume E w0 = Some targ) /\
    CARCHIVE.parse E fd rs bs stg = Ok pr /\
    (forall disk, disk <> diskId targ ->
       ngas_disks (db w') !! disk = ngas_disks (db w) !! disk) /\
    if (CARCHIVE.getDiskSpaceAvail E (mountPoint targ) <? freeSpaceDiskChangeMb w)%Z
    then exists date,
           ngas_disks (db w') !! diskId targ
           = Some (CARCHIVE.setCompleted date targ)
    else ngas_disks (db w') !! diskId targ
         = add_file_counters (total_size E (CARCHIVE.fileDataList pr))
             (Z.of_nat (length (CARCHIVE.fileDataList pr)))
             <$> ngas_disks (db w) !! diskId targ.
Proof.
  intros Hrun.
  destruct (handleCmd_phases _ _ _ _ Hrun)
    as (targ & fd & rs & bs & stg & pr & dateDir & w4 & st & w5
        & Hsel & Hparse & _ & Hd & _ & Hloop & _ & _ & Hdb).
  destruct (commit_loop E root targ dateDir (CARCHIVE.fileDataList pr)
              [] ∅ [] w4 st w5 (db w4) eq_refl)
    as (_ & _ & _ & Hdisks & _).
  { intros id. destruct (ngas_containers (db w4) !! id); simpl;
      [rewrite with_total_empty |]; reflexivity. }
  { exact Hloop. }
  rewrite Hd in Hdisks.
  exists targ, fd, rs, bs, stg, pr.
  split; [exact Hsel |]. split; [exact Hparse |].
  rewrite Hdb. destruct (_ <? _)%Z; simpl.
  - split.
    + intros disk Hne. rewrite lookup_insert_ne by congruence.
      rewrite Hdisks. apply lookup_alter_ne. congruence.
    + eexists. apply lookup_insert_eq.
  - rewrite Hdisks. split.
    + intros disk Hne. apply lookup_alter_ne. congruence.
    + apply lookup_alter_eq.
Qed.

(** ** The disk resource across the handler *)

Lemma keeps_unless_blocked_of_keeps {A C} (f : World -> C) (m : M World A) :
  keeps f m -> keeps_unless_blocked f m.
Proof. intros Hm w r w' H _. eapply Hm; eauto. Qed.

Lemma keeps_unless_blocked_bind {A B C} (f : World -> C) (m : M World A)
    (k : A -> M World B) :
  keeps_unless_blocked f m -> (forall a, keeps_unless_blocked f (k a)) ->
  keeps_unless_blocked f (bind m k).
Proof.
  intros Hm Hk w r w'. unfold bind.
  destruct (m w) as [[a|e|] w1] eqn:H1; intros H Hnb.
  - rewrite (Hk a _ _ _ H Hnb). apply (Hm _ _ _ H1). discriminate.
  - inversion H; subst. apply (Hm _ _ _ H1). discriminate.
  - inversion H; subst. contradiction.
Qed.

Lemma keeps_unless_blocked_try_except {A C} (f : World -> C) (body : M World A)
    handler :
  keeps_unless_blocked f body -> (forall e, keeps f (handler e)) ->
  keeps_unless_blocked f (try_except body handler).
Proof.
  intros Hb Hh w r w'. unfold try_except.
  destruct (body w) as [[a|e|] w1] eqn:H1; intros H Hnb.
  - inversion H; subst. apply (Hb _ _ _ H1). discriminate.
  - rewrite (Hh e _ _ _ H). apply (Hb _ _ _ H1). discriminate.
  - inversion H; subst. contradiction.
Qed.

(** Unless it never returns, [saveFromHttpToFile] leaves every disk
    semaphore with the permits it found. *)
Lemma permits_saveFromHttpToFile s trg bs d :
  keeps_unless_blocked (permits s)
    (CARCHIVE.saveFromHttpToFile E trg bs true (Some d)).
Proof.
  intros w r w' Hrun Hnb. unfold CARCHIVE.saveFromHttpToFile in Hrun.
  unfold bind at 1, lift at 1 in Hrun.
  destruct (CARCHIVE.checkCreatePath E (dirname trg)) as [[]|e|];
    [| inversion Hrun; reflexivity ..].
  destruct (permits (slotId d) w) as [|n] eqn:Hp.
  - unfold try_finally, CARCHIVE.guarded_body in Hrun.
    unfold bind at 1, getSlotId, bind at 1, ret at 1, acquireDiskResource in Hrun.
    rewrite Hp in Hrun. inversion Hrun; subst. contradiction.
  - rewrite (guarded_region E trg bs d w n Hp) in Hrun.
    destruct (CARCHIVE.transfer E trg bs _) as [r2 w2] eqn:Hbody.
    apply transfer_locks in Hbody. destruct Hbody as [Hsems _].
    simpl in Hrun.
    assert (Hw' : w' = with_sems (<[slotId d := S (permits (slotId d) w2)]>
                                    (diskMutexSems w2)) (Release (slotId d)) w2).
    { destruct r2; inversion Hrun; subst; congruence. }
    subst w'. rewrite permits_with_sems.
    unfold permits at 1. rewrite Hsems. simpl.
    destruct (decide (s = slotId d)) as [-> | Hne].
    + rewrite !lookup_insert_eq. simpl. symmetry. exact Hp.
    + rewrite !lookup_insert_ne by congruence. reflexivity.
Qed.

(** X21: unless it never returns, [handleCmd] leaves every disk
    semaphore with the permits it found, whether it succeeds or fails
    and wherever it fails: the resource taken for staging is given back
    before the containers are created and the files committed. *)
Theorem handler_releases_disk_resource s w r w' :
  CARCHIVE.handleCmd E w = (r, w') ->
  r <> Block ->
  permits s w' = permits s w.
Proof.
  revert w r w'.
  change (keeps_unless_blocked (permits s) (CARCHIVE.handleCmd E)).
  unfold CARCHIVE.handleCmd.
  do 6 (apply keeps_unless_blocked_bind;
        [apply keeps_unless_blocked_of_keeps; solve [keeps_cmd] | intros ?]).
  apply keeps_unless_blocked_bind;
    [apply keeps_unless_blocked_of_keeps; solve [keeps_cmd] | intros targ].
  destruct targ as [targ|];
    [| apply keeps_unless_blocked_of_keeps; solve [keeps_cmd]].
  do 4 (apply keeps_unless_blocked_bind;
        [apply keeps_unless_blocked_of_keeps; solve [keeps_cmd] | intros ?]).
  apply keeps_unless_blocked_bind.
  - unfold CARCHIVE.saveInStagingFile.
    apply keeps_unless_blocked_try_except; [| intros e; apply keeps_raise].
    apply keeps_unless_blocked_bind;
      [apply keeps_unless_blocked_of_keeps; apply keeps_gets | intros bs].
    apply permits_saveFromHttpToFile.
  - intros info. apply keeps_unless_blocked_of_keeps. keeps_cmd.
Qed.

End HandlerFurther.

Lemma archive_request_refused_witness :
  CARCHIVE.handleCmd (Demo.carchive 2%float (Ok Demo.nested_parse))
    Scenes.closed_world
  = (Raise (Exception_ "NGAMS_ER_ILL_REQ: Archive"), Scenes.closed_world).
Proof.
  apply (archive_request_refused (Demo.carchive 2%float (Ok Demo.nested_parse))
           Scenes.closed_world).
  left. reflexivity.
Defined.






Lemma subscribers_told_after_commit_witness :
  let E := Demo.carchive 2%float
             (Raise (EnvironmentError_ 104 "Connection reset by peer")) in
  let run := CARCHIVE.handleCmd E Demo.push_world in
  subscriptionInfo run.2 = [] /\ subscriptionTriggers run.2 = 0%nat.
Proof.
  intros E run.
  pose proof (subscribers_told_after_commit E Demo.push_world
                (Raise (Exception_
                   "NGAMS_ER_PROB_STAGING_AREA: /mnt/vol1/staging/uid___bundle.tar"))
                run.2) as Htold.
  simpl in Htold. destruct Htold as (Hinfo & Htrig & _).
  - vm_compute. reflexivity.
  - split; [exact Hinfo | exact Htrig].
Defined.

Lemma handler_releases_disk_resource_witness :
  let E := Demo.carchive 2%float
             (Raise (EnvironmentError_ 104 "Connection reset by peer")) in
  let run := CARCHIVE.handleCmd E Demo.push_world in
  permits "slot-1" run.2 = permits "slot-1" Demo.push_world.
Proof.
  intros E run.
  apply (handler_releases_disk_resource E "slot-1" Demo.push_world run.1 run.2).
  - apply surjective_pairing.
  - vm_compute. discriminate.
Defined.

Lemma volume_after_request_witness :
  exists targ,
    forall disk, disk <> diskId targ ->
      ngas_disks (db Demo.nested_run.2) !! disk
      = ngas_disks (db Demo.push_world) !! disk.
Proof.
  destruct (volume_after_request
              (Demo.carchive 2%float (Ok Demo.nested_parse)) Demo.push_world
              (Demo.returned Demo.nested_run).1 (Demo.returned Demo.nested_run).2
              Demo.nested_run.2)
    as (targ & fd & rs & bs & stg & pr & _ & _ & Hother & _).
  { vm_compute. reflexivity. }
  exists targ. exact Hother.
Defined.
